(** * WhollySheet: a spreadsheet tab used as a row store

    A shallow embedding of [packages/wholly-sheet/src/SheetSDK.ts] and
    [packages/wholly-sheet/src/WhollySheet.ts], and the properties of the
    row codec ([stringer], [RowModel.typeCast], [RowModel.assign]), the tab
    indexer ([loadTabTable], [SheetSDK.index]), the client ([getRow],
    [createRow]) and the row store ([WhollySheet.create], [update], [save],
    [find]).

    The file has three layers:
    - [Js]: the fragment of the JavaScript runtime the sources rely on
      (values, truthiness, [typeof], [===], number and date text);
    - [SheetSDK] and [WhollySheet]: the two source files, function by function;
    - the properties, one section per component. *)

From Stdlib Require Import ZArith List Ascii String Lia.
From Stdlib Require Import DecimalString DecimalN DecimalPos DecimalFacts.
From stdpp Require Import base option gmap strings list.

Local Open Scope Z_scope.

(** ** Exceptions

    Every function that can throw returns a [result]. [SheetError] is the
    class of the sources; [TypeError] and [RangeError] are raised by the
    runtime (a property read on [undefined], a call of a non-function,
    [toISOString] on an invalid date); [TransportError] is a rejection of
    the transport's promise. *)

Inductive error :=
| SheetError (message : string)
| TypeError
| RangeError
| TransportError.

Inductive result (A : Type) :=
| Ok (a : A)
| Throw (e : error).
Arguments Ok {A} a.
Arguments Throw {A} e.

#[global] Instance result_ret : MRet result := @Ok.
#[global] Instance result_bind : MBind result := λ A B f m,
  match m with
  | Ok a => f a
  | Throw e => Throw e
  end.
#[global] Instance result_fmap : FMap result := λ A B f m,
  match m with
  | Ok a => Ok (f a)
  | Throw e => Throw e
  end.

Definition isOk {A} (r : result A) : bool :=
  match r with Ok _ => true | Throw _ => false end.

(** Characters are handled as lists inside the text functions and turned
    into [string] at their interface. *)

Abbreviation chars := (list ascii).

Definition text (s : string) : chars := list_ascii_of_string s.
Definition str (l : chars) : string := string_of_list_ascii l.

Module Js.

(** ** Decimal digits *)

Definition digitVal (c : ascii) : option Z :=
  let n := Z.of_nat (nat_of_ascii c) in
  if (48 <=? n) && (n <=? 57) then Some (n - 48) else None.

Definition digitChar (n : Z) : ascii :=
  ascii_of_nat (Z.to_nat (48 + Z.min (Z.max n 0) 9)).

Definition isDigit (c : ascii) : bool :=
  match digitVal c with Some _ => true | None => false end.

(** The longest prefix of digits, and what follows it. *)
Fixpoint spanDigits (l : chars) : chars * chars :=
  match l with
  | c :: l' =>
      if isDigit c then let '(ds, rest) := spanDigits l' in (c :: ds, rest)
      else ([], l)
  | [] => ([], [])
  end.

(** The value of a digit sequence read left to right from [acc]. *)
Fixpoint digitsValue (acc : Z) (l : chars) : Z :=
  match l with
  | c :: l' => digitsValue (acc * 10 + default 0 (digitVal c)) l'
  | [] => acc
  end.

(** The decimal digits of a natural number, most significant first;
    ["0"] for zero. *)
Definition digitsOf (n : N) : chars :=
  text (NilEmpty.string_of_uint (N.to_uint n)).

(** [k] digits of [n], padded with zeros on the left (0 <= n < 10^k). *)
Fixpoint padDigits (k : nat) (n : Z) : chars :=
  match k with
  | O => []
  | S k' => digitChar (n / 10 ^ Z.of_nat k') :: padDigits k' (n mod 10 ^ Z.of_nat k')
  end.

(** Exactly [k] digits read from the front of [l]. *)
Fixpoint readDigits (k : nat) (acc : Z) (l : chars) : option (Z * chars) :=
  match k with
  | O => Some (acc, l)
  | S k' =>
      match l with
      | c :: l' =>
          match digitVal c with
          | Some d => readDigits k' (acc * 10 + d) l'
          | None => None
          end
      | [] => None
      end
  end.

Definition expect (c : ascii) (l : chars) : option chars :=
  match l with
  | c' :: l' => if Ascii.eqb c c' then Some l' else None
  | [] => None
  end.

(** White space and line terminators of the ASCII range, as skipped by
    [parseInt] and [parseFloat]. *)
Definition isSpace (c : ascii) : bool :=
  let n := Z.of_nat (nat_of_ascii c) in
  ((9 <=? n) && (n <=? 13)) || (n =? 32).

Fixpoint skipSpaces (l : chars) : chars :=
  match l with
  | c :: l' => if isSpace c then skipSpaces l' else l
  | [] => []
  end.

(** An optional sign: whether it is a minus, and what follows. *)
Definition readSign (l : chars) : bool * chars :=
  match l with
  | c :: l' =>
      if Ascii.eqb c "-" then (true, l')
      else if Ascii.eqb c "+" then (false, l')
      else (false, l)
  | [] => (false, [])
  end.

(** ** Numbers

    A Number is kept as the decimal that [Number::toString] prints for it
    (ECMAScript 6.1.6.1.20): an integer [NInt z], or a non-integer
    [NDec neg m e] standing for [± m / 10^e] with [m] not a multiple of
    ten. Conversion of a decimal to a Number is the identity on these: the
    rounding of binary64 is outside the model, no arithmetic on non-integers
    occurs in the sources. Negative zero is identified with zero, which it
    equals under [===]. *)

Inductive number :=
| NInt (z : Z)
| NDec (neg : bool) (m e : positive)
| NNaN
| NInf (neg : bool).

Definition wfNumber (x : number) : bool :=
  match x with
  | NDec _ m _ => negb (Z.pos m mod 10 =? 0)
  | _ => true
  end.

(** Trailing zeros removed. *)
Fixpoint dropZeros (l : chars) : chars :=
  match l with
  | c :: l' => if Ascii.eqb c "0" then dropZeros l' else l
  | [] => []
  end.

Definition dropZerosEnd (l : chars) : chars := reverse (dropZeros (reverse l)).

Definition signText (neg : bool) : chars := if neg then ["-"%char] else [].

(** Number::toString, steps 5 to 10: the digits [ds] of the significand
    and the position [n] of the decimal point. *)
Definition exponentText (e : Z) : chars :=
  "e"%char :: (if e <? 0 then "-"%char else "+"%char)
    :: digitsOf (Z.to_N (Z.abs e)).

Definition renderDigits (ds : chars) (n : Z) : chars :=
  let k := Z.of_nat (length ds) in
  if (k <=? n) && (n <=? 21) then
    ds ++ replicate (Z.to_nat (n - k)) "0"%char
  else if (0 <? n) && (n <=? 21) then
    take (Z.to_nat n) ds ++ "."%char :: drop (Z.to_nat n) ds
  else if (-6 <? n) && (n <=? 0) then
    "0"%char :: "."%char :: replicate (Z.to_nat (- n)) "0"%char ++ ds
  else
    match ds with
    | [] => []
    | [d] => d :: exponentText (n - 1)
    | d :: ds' => d :: "."%char :: ds' ++ exponentText (n - 1)
    end.

Definition numberText (x : number) : chars :=
  match x with
  | NNaN => text "NaN"
  | NInf neg => signText neg ++ text "Infinity"
  | NInt 0 => text "0"
  | NInt z =>
      let ds := digitsOf (Z.to_N (Z.abs z)) in
      signText (z <? 0) ++ renderDigits (dropZerosEnd ds) (Z.of_nat (length ds))
  | NDec neg m e =>
      let ds := digitsOf (Npos m) in
      signText neg ++ renderDigits ds (Z.of_nat (length ds) - Z.pos e)
  end.

(** [Number.prototype.toString()] *)
Definition numberToString (x : number) : string := str (numberText x).

(** Division of [m] by ten while it is exact and the exponent, counted
    down in [fuel], is negative. *)
Fixpoint reduce (fuel : nat) (m : Z) : Z * nat :=
  match fuel with
  | O => (m, O)
  | S f => if m mod 10 =? 0 then reduce f (m / 10) else (m, fuel)
  end.

(** The Number [± m * 10^e10]. *)
Definition mkNumber (neg : bool) (m e10 : Z) : number :=
  let sgn := if neg then -1 else 1 in
  if m <=? 0 then NInt 0
  else if 0 <=? e10 then NInt (sgn * (m * 10 ^ e10))
  else
    match reduce (Z.to_nat (- e10)) m with
    | (m', O) => NInt (sgn * m')
    | (m', S f) => NDec neg (Z.to_pos m') (Pos.of_succ_nat f)
    end.

(** [parseInt(s, 10)] *)
Definition parseIntText (l : chars) : number :=
  let '(neg, l1) := readSign (skipSpaces l) in
  match spanDigits l1 with
  | ([], _) => NNaN
  | (ds, _) => mkNumber neg (digitsValue 0 ds) 0
  end.

Definition parseInt (s : string) : number := parseIntText (text s).

Definition startsWith (p l : chars) : bool :=
  bool_decide (take (length p) l = p).

(** The exponent part [e±ddd] when one follows, else zero. *)
Definition readExponent (l : chars) : Z :=
  match l with
  | c :: l1 =>
      if Ascii.eqb c "e" || Ascii.eqb c "E" then
        let '(eneg, l2) := readSign l1 in
        match spanDigits l2 with
        | ([], _) => 0
        | (es, _) => (if eneg then -1 else 1) * digitsValue 0 es
        end
      else 0
  | [] => 0
  end.

(** [parseFloat(s)]: the longest prefix that is a StrDecimalLiteral. *)
Definition parseFloatText (l : chars) : number :=
  let '(neg, l1) := readSign (skipSpaces l) in
  if startsWith (text "Infinity") l1 then NInf neg
  else
    let '(ip, l2) := spanDigits l1 in
    let '(fp, l3) :=
      match l2 with
      | c :: l2' =>
          if Ascii.eqb c "." then
            match spanDigits l2' with
            | ([], _) => ([], if bool_decide (ip = []) then l2 else l2')
            | r => r
            end
          else ([], l2)
      | [] => ([], l2)
      end in
    match ip ++ fp with
    | [] => NNaN
    | ds => mkNumber neg (digitsValue 0 ds)
              (readExponent l3 - Z.of_nat (length fp))
    end.

Definition parseFloat (s : string) : number := parseFloatText (text s).

(** The pattern [/^([+-]?[1-9]\d*|0)$/] of [typeCast]. *)
Definition isIntText (l : chars) : bool :=
  bool_decide (l = ["0"%char])
  || match (readSign l).2 with
     | c :: l2 => isDigit c && negb (Ascii.eqb c "0") && forallb isDigit l2
     | [] => false
     end.

Definition isInt (s : string) : bool := isIntText (text s).


(** ** Dates

    The time value of a Date is a number of milliseconds since the epoch,
    at most 8.64e15 in absolute value, or NaN ([None]). The calendar
    functions are those of ECMAScript 21.4.1. *)

Definition msPerDay : Z := 86400000.
Definition maxTime : Z := 8640000000000000.

Definition Day (t : Z) : Z := t / msPerDay.
Definition TimeWithinDay (t : Z) : Z := t mod msPerDay.

Definition DayFromYear (y : Z) : Z :=
  365 * (y - 1970) + (y - 1969) / 4 - (y - 1901) / 100 + (y - 1601) / 400.

Definition InLeapYear (y : Z) : bool :=
  (y mod 4 =? 0) && (negb (y mod 100 =? 0) || (y mod 400 =? 0)).

Definition DaysInYear (y : Z) : Z := if InLeapYear y then 366 else 365.

(** The year of day number [d]: the largest [y] with
    [DayFromYear y <= d], found next to the estimate. *)
Definition yearFromDay (d : Z) : Z :=
  let y0 := 1970 + d * 400 / 146097 in
  if DayFromYear (y0 + 1) <=? d then y0 + 1
  else if d <? DayFromYear y0 then y0 - 1
  else y0.

Definition YearFromTime (t : Z) : Z := yearFromDay (Day t).

(** Days before month [m] (0 to 11) in a year, leap or not. *)
Definition daysBeforeMonth (leap : bool) (m : Z) : Z :=
  let l := if leap then 1 else 0 in
  match m with
  | 0 => 0 | 1 => 31 | 2 => 59 + l | 3 => 90 + l | 4 => 120 + l
  | 5 => 151 + l | 6 => 181 + l | 7 => 212 + l | 8 => 243 + l
  | 9 => 273 + l | 10 => 304 + l | 11 => 334 + l
  | _ => 365 + l
  end.

Definition DaysInMonth (leap : bool) (m : Z) : Z :=
  daysBeforeMonth leap (m + 1) - daysBeforeMonth leap m.

Definition DayWithinYear (t : Z) : Z := Day t - DayFromYear (YearFromTime t).

Definition monthOfDay (leap : bool) (dw : Z) : Z :=
  if dw <? daysBeforeMonth leap 1 then 0
  else if dw <? daysBeforeMonth leap 2 then 1
  else if dw <? daysBeforeMonth leap 3 then 2
  else if dw <? daysBeforeMonth leap 4 then 3
  else if dw <? daysBeforeMonth leap 5 then 4
  else if dw <? daysBeforeMonth leap 6 then 5
  else if dw <? daysBeforeMonth leap 7 then 6
  else if dw <? daysBeforeMonth leap 8 then 7
  else if dw <? daysBeforeMonth leap 9 then 8
  else if dw <? daysBeforeMonth leap 10 then 9
  else if dw <? daysBeforeMonth leap 11 then 10
  else 11.

Definition MonthFromTime (t : Z) : Z :=
  monthOfDay (InLeapYear (YearFromTime t)) (DayWithinYear t).

Definition DateFromTime (t : Z) : Z :=
  DayWithinYear t
  - daysBeforeMonth (InLeapYear (YearFromTime t)) (MonthFromTime t) + 1.

Definition HourFromTime (t : Z) : Z := TimeWithinDay t / 3600000.
Definition MinFromTime (t : Z) : Z := TimeWithinDay t / 60000 mod 60.
Definition SecFromTime (t : Z) : Z := TimeWithinDay t / 1000 mod 60.
Definition msFromTime (t : Z) : Z := TimeWithinDay t mod 1000.

(** MakeDay for a month in 0..11, MakeTime, MakeDate and TimeClip. *)
Definition MakeDay (year month date : Z) : Z :=
  DayFromYear year + daysBeforeMonth (InLeapYear year) month + date - 1.

Definition MakeTime (hour min sec ms : Z) : Z :=
  hour * 3600000 + min * 60000 + sec * 1000 + ms.

Definition MakeDate (day time : Z) : Z := day * msPerDay + time.

Definition TimeClip (t : Z) : option Z :=
  if Z.abs t <=? maxTime then Some t else None.

(** The year of the date-time string format: four digits, or a sign and
    six digits outside 0..9999. *)
Definition yearText (y : Z) : chars :=
  if (0 <=? y) && (y <=? 9999) then padDigits 4 y
  else (if y <? 0 then "-"%char else "+"%char) :: padDigits 6 (Z.abs y).

(** [Date.prototype.toISOString] on a valid time value:
    [YYYY-MM-DDTHH:mm:ss.sssZ]. *)
Definition isoText (t : Z) : chars :=
  yearText (YearFromTime t)
    ++ "-"%char :: padDigits 2 (MonthFromTime t + 1)
    ++ "-"%char :: padDigits 2 (DateFromTime t)
    ++ "T"%char :: padDigits 2 (HourFromTime t)
    ++ ":"%char :: padDigits 2 (MinFromTime t)
    ++ ":"%char :: padDigits 2 (SecFromTime t)
    ++ "."%char :: padDigits 3 (msFromTime t)
    ++ ["Z"%char].

Definition toISOString (t : Z) : string := str (isoText t).

(** The fields of a string in the full UTC form of the date-time string
    format; [None] when the string has another form. *)
Definition readYear (l : chars) : option (bool * Z * chars) :=
  match l with
  | c :: l' =>
      if Ascii.eqb c "+" then '(y, r) ← readDigits 6 0 l'; Some (false, y, r)
      else if Ascii.eqb c "-" then '(y, r) ← readDigits 6 0 l'; Some (true, y, r)
      else '(y, r) ← readDigits 4 0 l; Some (false, y, r)
  | [] => None
  end.

Record isoFields := {
  isoNeg : bool; isoYear : Z; isoMonth : Z; isoDay : Z;
  isoHour : Z; isoMin : Z; isoSec : Z; isoMs : Z }.

Definition readIso (l : chars) : option isoFields :=
  '(neg, y, l) ← readYear l;
  l ← expect "-" l; '(mo, l) ← readDigits 2 0 l;
  l ← expect "-" l; '(d, l) ← readDigits 2 0 l;
  l ← expect "T" l; '(h, l) ← readDigits 2 0 l;
  l ← expect ":" l; '(mi, l) ← readDigits 2 0 l;
  l ← expect ":" l; '(s, l) ← readDigits 2 0 l;
  l ← expect "." l; '(ms, l) ← readDigits 3 0 l;
  l ← expect "Z" l;
  match l with
  | [] => Some {| isoNeg := neg; isoYear := y; isoMonth := mo; isoDay := d;
                  isoHour := h; isoMin := mi; isoSec := s; isoMs := ms |}
  | _ => None
  end.

(** Illegal element values make the time value NaN. *)
Definition isoLegal (f : isoFields) : bool :=
  let y := if isoNeg f then - isoYear f else isoYear f in
  negb (isoNeg f && (isoYear f =? 0))
  && (1 <=? isoMonth f) && (isoMonth f <=? 12)
  && (1 <=? isoDay f)
  && (isoDay f <=? DaysInMonth (InLeapYear y) (isoMonth f - 1))
  && (isoMin f <=? 59) && (isoSec f <=? 59)
  && ((isoHour f <=? 23)
      || ((isoHour f =? 24) && (isoMin f =? 0) && (isoSec f =? 0)
          && (isoMs f =? 0))).

Definition isoTime (f : isoFields) : option Z :=
  if isoLegal f then
    let y := if isoNeg f then - isoYear f else isoYear f in
    TimeClip (MakeDate (MakeDay y (isoMonth f - 1) (isoDay f))
                (MakeTime (isoHour f) (isoMin f) (isoSec f) (isoMs f)))
  else None.

(** ** Values

    Records of the row store are objects on a heap and are referred to by
    location ([VRef]); the arrays and objects of a parsed response are
    immediate ([VArr], [VObj]). [VFun name] is the built-in method found
    under [name] on a prototype. [NoDate] is the exported [noDate] object,
    [DateObj] any other Date. *)

Definition loc := nat.

Inductive date :=
| NoDate
| DateObj (time : option Z).

Definition timeValue (d : date) : option Z :=
  match d with
  | NoDate => Some (- maxTime)
  | DateObj t => t
  end.

#[warnings="-register-all"]
Inductive value :=
| VUndefined
| VNull
| VBool (b : bool)
| VNum (n : number)
| VStr (s : string)
| VDate (d : date)
| VArr (items : list value)
| VObj (fields : list (string * value))
| VRef (l : loc)
| VFun (name : string).

(** The own properties of an object, in creation order. *)
Abbreviation props := (list (string * value)).
Abbreviation heap := (gmap loc props).

Inductive jsType :=
| TUndefined | TObject | TBoolean | TNumber | TString | TFunction.

Definition typeOf (v : value) : jsType :=
  match v with
  | VUndefined => TUndefined
  | VBool _ => TBoolean
  | VNum _ => TNumber
  | VStr _ => TString
  | VFun _ => TFunction
  | VNull | VDate _ | VArr _ | VObj _ | VRef _ => TObject
  end.

Definition instanceOfDate (v : value) : bool :=
  match v with VDate _ => true | _ => false end.

Definition isArray (v : value) : bool :=
  match v with VArr _ => true | _ => false end.

(** ToBoolean *)
Definition truthy (v : value) : bool :=
  match v with
  | VUndefined | VNull => false
  | VBool b => b
  | VNum (NInt 0) | VNum NNaN => false
  | VNum _ => true
  | VStr s => negb (String.eqb s "")
  | VDate _ | VArr _ | VObj _ | VRef _ | VFun _ => true
  end.

Definition numberEq (x y : number) : bool :=
  match x, y with
  | NInt a, NInt b => a =? b
  | NDec n1 m1 e1, NDec n2 m2 e2 =>
      Bool.eqb n1 n2 && (m1 =? m2)%positive && (e1 =? e2)%positive
  | NInf a, NInf b => Bool.eqb a b
  | _, _ => false
  end.

(** [a === b]. Objects are equal when they are the same object: two
    references to one location, [noDate] with itself, one built-in with
    itself; a Date, array or object written out is a fresh object. *)
Definition strictEq (a b : value) : bool :=
  match a, b with
  | VUndefined, VUndefined | VNull, VNull => true
  | VBool x, VBool y => Bool.eqb x y
  | VNum x, VNum y => numberEq x y
  | VStr x, VStr y => String.eqb x y
  | VRef x, VRef y => Nat.eqb x y
  | VDate NoDate, VDate NoDate => true
  | VFun x, VFun y => String.eqb x y
  | _, _ => false
  end.

(** *** Properties *)

Fixpoint lookupProp (k : string) (own : props) : option value :=
  match own with
  | (k', v) :: own' => if String.eqb k k' then Some v else lookupProp k own'
  | [] => None
  end.

(** The members of [Object.prototype], and the methods of [RowModel]. *)
Definition objectPrototype : list string :=
  ["constructor"; "__defineGetter__"; "__defineSetter__"; "hasOwnProperty";
   "__lookupGetter__"; "__lookupSetter__"; "isPrototypeOf";
   "propertyIsEnumerable"; "toString"; "valueOf"; "__proto__";
   "toLocaleString"]%string.

Definition rowModelPrototype : list string :=
  ["keys"; "header"; "values"; "typeCast"; "assign"]%string.

Definition inherited (chain : list string) (k : string) : bool :=
  existsb (String.eqb k) (chain ++ objectPrototype).

(** [o[k]] for an object with own properties [own] whose prototype chain
    carries the methods [chain] above [Object.prototype]; [__proto__]
    reads the prototype, an object. *)
Definition getProp (chain : list string) (own : props) (k : string) : value :=
  match lookupProp k own with
  | Some v => v
  | None =>
      if String.eqb k "__proto__" then VObj []
      else if inherited chain k then VFun k
      else VUndefined
  end.

(** [k in o] *)
Definition hasProp (chain : list string) (own : props) (k : string) : bool :=
  match lookupProp k own with
  | Some _ => true
  | None => inherited chain k
  end.

Fixpoint upsert (k : string) (v : value) (own : props) : props :=
  match own with
  | (k', v') :: own' =>
      if String.eqb k k' then (k, v) :: own' else (k', v') :: upsert k v own'
  | [] => [(k, v)]
  end.

(** [o[k] = v] for a primitive [v]: an own property is replaced in place
    or added last; the [__proto__] setter ignores a primitive. *)
Definition setProp (k : string) (v : value) (own : props) : props :=
  if String.eqb k "__proto__" then own else upsert k v own.

(** [Object.keys(o)] *)
Definition keysOf (own : props) : list string := own.*1.

(** *** Text of a value *)

(** What the host decides: the text of [Date.prototype.toString], the time
    value [Date.parse] gives a string that is not in the full UTC form
    [YYYY-MM-DDTHH:mm:ss.sssZ] of the date-time string format (the shorter
    forms, local time and other formats), and the source text of a
    built-in function. *)
Class Host := {
  hostDateText : Z → string;
  hostDateParse : string → option Z;
  hostFunctionText : string → string }.

Section WithHost.
Context `{Host}.

(** [o.toString()] on an object with own properties [own]:
    [Object.prototype.toString] unless an own property hides it. *)
Definition objectToString (own : props) : result string :=
  match lookupProp "toString" own with
  | None | Some (VFun "toString") => Ok "[object Object]"%string
  | Some _ => Throw TypeError
  end.

Definition joinText (parts : list string) : string := String.concat "," parts.

(** ToString *)
Fixpoint ToString (hp : heap) (v : value) : result string :=
  match v with
  | VUndefined => Ok "undefined"%string
  | VNull => Ok "null"%string
  | VBool b => Ok (if b then "true" else "false")%string
  | VNum n => Ok (numberToString n)
  | VStr s => Ok s
  | VDate d =>
      Ok (match timeValue d with
          | Some t => hostDateText t
          | None => "Invalid Date"%string
          end)
  | VArr items =>
      joinText <$>
        (fix parts (l : list value) : result (list string) :=
           match l with
           | [] => Ok []
           | x :: l' =>
               s ← match x with
                    | VUndefined | VNull => Ok ""%string
                    | _ => ToString hp x
                    end;
               r ← parts l';
               Ok (s :: r)
           end) items
  | VObj fields => objectToString fields
  | VRef l => objectToString (default [] (hp !! l))
  | VFun name => Ok (hostFunctionText name)
  end.

(** [v.toString()] *)
Definition toStringCall (hp : heap) (v : value) : result string :=
  match v with
  | VUndefined | VNull => Throw TypeError
  | _ => ToString hp v
  end.

(** [Date.parse] *)
Definition dateParse (s : string) : option Z :=
  match readIso (text s) with
  | Some f => isoTime f
  | None => hostDateParse s
  end.

(** ToNumber followed by TimeClip, for a Number. *)
Definition timeClipNumber (n : number) : option Z :=
  match n with
  | NInt z => TimeClip z
  | NDec neg m e =>
      let q := Z.pos m / 10 ^ Z.pos e in TimeClip (if neg then - q else q)
  | NNaN | NInf _ => None
  end.

(** The time value of [new Date(v)]. *)
Definition newDate (hp : heap) (v : value) : result (option Z) :=
  match v with
  | VDate d => Ok (timeValue d)
  | VStr s => Ok (dateParse s)
  | VNum n => Ok (timeClipNumber n)
  | VBool b => Ok (Some (if b then 1 else 0))
  | VNull => Ok (Some 0)
  | VUndefined => Ok None
  | VArr _ | VObj _ | VRef _ | VFun _ => dateParse <$> ToString hp v
  end.

End WithHost.

End Js.

Import Js.

(** * SheetSDK.ts *)

Module SheetSDK.

(** A double quote, for the messages. *)
Definition dq : string := String "034" "".

(** Signifies an empty cell *)
Definition NIL : string := String "000" "".

(** name of the property that tracks the row's position in the tab sheet *)
Definition rowPosition : string := "row".

Section Codec.
Context `{Host}.

(** [v.toISOString()]: a RangeError on an invalid Date. *)
Definition toISOStringCall (v : value) : result string :=
  match v with
  | VDate d =>
      match timeValue d with
      | Some t => Ok (toISOString t)
      | None => Throw RangeError
      end
  | _ => Throw TypeError
  end.

(** Convert a value to the string representation for a cell value *)
Definition stringer (hp : heap) (value : value) : result string :=
  if strictEq value VUndefined || strictEq value VNull then Ok NIL
  else if instanceOfDate value then
    if strictEq value (VDate NoDate) then Ok NIL
    else toISOStringCall value
  else toStringCall hp value.

Definition lower (c : ascii) : ascii :=
  let n := nat_of_ascii c in
  if (Nat.leb 65 n && Nat.leb n 90)%bool then ascii_of_nat (n + 32) else c.

Definition lowerText (s : string) : string := str (map lower (text s)).

Definition oneOf (words : list string) (s : string) : bool :=
  existsb (String.eqb (lowerText s)) words.

(** Modelled from the spec: [boolDefault] of [@looker/sdk-rtl] is not
    among the sources. It is the "permissive true/false parser
    defaulting to false on ambiguity" of the Row Codec: the words for
    true and for false are recognised in any letter case, anything else
    gives the default. *)
Definition boolDefault (hp : heap) (value : value) (defaultBool : bool)
  : result bool :=
  match value with
  | VUndefined => Ok defaultBool
  | _ =>
      s ← ToString hp value;
      Ok (if oneOf ["true"; "t"; "yes"; "y"; "1"]%string s then true
          else if oneOf ["false"; "f"; "no"; "n"; "0"]%string s then false
          else defaultBool)
  end.

(** [RowModel.typeCast] on the record with own properties [this] *)
Definition typeCast (hp : heap) (this : props) (key : string) (value : value)
  : result Js.value :=
  if negb (truthy value) then Ok VUndefined
  else
    let cur := getProp rowModelPrototype this key in
    match typeOf cur with
    | TString => VStr <$> toStringCall hp value
    | TNumber =>
        s ← toStringCall hp value;
        if isInt s then
          s' ← ToString hp value; Ok (VNum (parseInt s'))
        else
          s' ← ToString hp value; Ok (VNum (parseFloat s'))
    | TBoolean => VBool <$> boolDefault hp value false
    | _ =>
        if instanceOfDate cur then
          t ← newDate hp value; Ok (VDate (DateObj t))
        else VStr <$> objectToString this
    end.

(** [RowModel.keys] and [RowModel.header] *)
Definition keys (this : props) : list string := keysOf this.

Definition header (this : props) : list string :=
  (* remove `row` *)
  drop 1 (keys this).

(** [RowModel.values]: the text of the record's own fields, in the order of
    its [header]. *)
Definition modelValues (hp : heap) (this : props) : result (list string) :=
  mapM (λ key, stringer hp (getProp rowModelPrototype this key)) (header this).

(** [Object.entries(v)] *)
Definition entries (hp : heap) (v : value) : props :=
  match v with
  | VObj fields => fields
  | VRef l => default [] (hp !! l)
  | VArr items =>
      imap (λ i x, (numberToString (NInt (Z.of_nat i)), x)) items
  | VStr s =>
      imap (λ i c, (numberToString (NInt (Z.of_nat i)), VStr (String c "")))
        (text s)
  | _ => []
  end.

End Codec.

(** ** The grid of a tab *)

Record ICellData := { formattedValue : option string }.

Record ITabRowData := { values : list ICellData }.

Record ITabData := { rowData : list ITabRowData }.

Record ISheetTab := { title : string; data : list ITabData }.

(** Keyed data for a tab, and the tab's header row *)
Record ITabTable := {
  tableHeader : list string;
  tableRows : list props }.

(** A tab given by its name or as the sheet tab. *)
Inductive tabRef :=
| TabName (name : string)
| Tab (tab : ISheetTab).

Definition tabName (tab : tabRef) : string :=
  match tab with
  | TabName name => name
  | Tab tab => title tab
  end.

(** [!cell.formattedValue] is false when the text is there and not empty. *)
Definition cellText (cell : ICellData) : option string :=
  match formattedValue cell with
  | Some s => if String.eqb s "" then None else Some s
  | None => None
  end.

(** Get column headers: up to the first empty header column. *)
Fixpoint headerOf (cells : list ICellData) : list string :=
  match cells with
  | cell :: cells' =>
      match cellText cell with
      | None => []
      | Some s => s :: headerOf cells'
      end
  | [] => []
  end.

(** The body of [result.header.forEach] for one data row [r]: columns
    [index], [index + 1], ... *)
Fixpoint fillRow (header : list string) (index : nat) (r : ITabRowData)
    (row : props) : props :=
  match header with
  | colName :: header' =>
      let row' :=
        match values r !! index with
        | Some cell =>
            (* Only assign cells with values *)
            match cellText cell with
            | Some s => setProp colName (VStr s) row
            | None => row
            end
        | None => row
        end in
      fillRow header' (S index) r row'
  | [] => row
  end.

Definition noKeyMessage (tab : ISheetTab) (rowIndex : nat) (keyName : string)
  : string :=
  "Tab " +:+ tabName (Tab tab) +:+ " row "
    +:+ numberToString (NInt (Z.of_nat rowIndex + 1))
    +:+ " has no key column '" +:+ keyName +:+ "'".

(** Index row data: the loop from [rowIndex] over the remaining rows. *)
Fixpoint indexRows (tab : ISheetTab) (keyName : string) (header : list string)
    (rowIndex : nat) (rest : list ITabRowData) (rows : list props)
  : result (list props) :=
  match rest with
  | r :: rest' =>
      let row := [(rowPosition, VNum (NInt (Z.of_nat rowIndex + 1)))] in
      let row := fillRow header 0 r row in
      (* An empty data row means we've hit the last row of data *)
      if Nat.eqb (length (keysOf row)) 1 then Ok rows
      else if negb (truthy (getProp [] row keyName)) then
        Throw (SheetError (noKeyMessage tab rowIndex keyName))
      else indexRows tab keyName header (S rowIndex) rest' (rows ++ [row])
  | [] => Ok rows
  end.

(** Loads the GSheet data from a sheet (tab) into a header name collection
    and data rows *)
Definition loadTabTable (tab : ISheetTab) (keyName : string)
  : result ITabTable :=
  match data tab with
  | [] => Throw TypeError
  | d :: _ =>
      match rowData d with
      | [] => Ok {| tableHeader := []; tableRows := [] |}
      | first :: rest =>
          let header := headerOf (values first) in
          rows ← indexRows tab keyName header 1 rest [];
          Ok {| tableHeader := header; tableRows := rows |}
      end
  end.

(** ** The client

    The transport is an external collaborator: the text of the requests it
    was given is recorded in [sent], and it answers from [replies], one
    outcome per request, the promise being rejected when none is left.
    [Reply ok body] is a response with its [ok] flag and the body as
    [parseResponse] returns it. The body of a request is kept as the
    [values] it serializes. *)

Inductive HttpMethod := GET | POST | PUT.

Record httpRequest := {
  reqMethod : HttpMethod;
  reqPath : string;
  reqValues : option (list string) }.

Inductive reply :=
| Reply (ok : bool) (body : value)
| Rejected.

Record transport := {
  sent : list httpRequest;
  replies : list reply }.

Record SheetSDK := {
  apiKey : string;
  sheetId : string }.

Section Client.
Context `{Host}.

Definition includes (c : ascii) (s : string) : bool :=
  existsb (Ascii.eqb c) (text s).

(** [v[k]] on a value of a response, for a [k] that names no built-in
    member of arrays or strings. *)
Definition readProp (hp : heap) (v : value) (k : string) : result value :=
  match v with
  | VUndefined | VNull => Throw TypeError
  | VObj fields => Ok (getProp [] fields k)
  | VRef l => Ok (getProp rowModelPrototype (default [] (hp !! l)) k)
  | _ => Ok VUndefined
  end.

(** The message of [new SheetError(v)]: empty when [v] is [undefined]. *)
Definition errorMessage (hp : heap) (v : value) : result string :=
  match v with
  | VUndefined => Ok ""
  | _ => ToString hp v
  end.

Definition request (sdk : SheetSDK) (hp : heap) (method : HttpMethod)
    (api : string) (body : option (list string)) (t : transport)
  : result value * transport :=
  let key := (if includes "?" api then "&" else "?") +:+ "key=" +:+ apiKey sdk in
  let path := "https://sheets.googleapis.com/v4/spreadsheets/"
                +:+ sheetId sdk +:+ api +:+ key in
  let log := sent t ++ [{| reqMethod := method; reqPath := path;
                           reqValues := body |}] in
  match replies t with
  | Reply ok response :: rest =>
      let t' := {| sent := log; replies := rest |} in
      if negb ok then
        (message ← errorMessage hp response; Throw (SheetError message), t')
      else (Ok response, t')
  | Rejected :: rest => (Throw TransportError, {| sent := log; replies := rest |})
  | [] => (Throw TransportError, {| sent := log; replies := [] |})
  end.

(** Update a row of a sheet with the provided values *)
Definition updateRow (sdk : SheetSDK) (hp : heap) (tab : tabRef) (row : value)
    (values : list string) (t : transport) : result value * transport :=
  match ToString hp row with
  | Throw e => (Throw e, t)
  | Ok rowText =>
      let name := tabName tab in
      let options := "valueInputOption=RAW" in
      let api := "/values/" +:+ name +:+ "!A" +:+ rowText +:+ ":end?" +:+ options in
      request sdk hp PUT api (Some values) t
  end.

(** [createRow]: append the values as a row of the sheet *)
Definition createRow (sdk : SheetSDK) (hp : heap) (tab : tabRef) (row : value)
    (values : list string) (t : transport) : result value * transport :=
  match ToString hp row with
  | Throw e => (Throw e, t)
  | Ok rowText =>
      let name := tabName tab in
      let options := "valueInputOption=RAW&insertDataOption=INSERT_ROWS" in
      let api := "/values/" +:+ name +:+ "!A" +:+ rowText +:+ ":end:append?"
                   +:+ options in
      match request sdk hp POST api (Some values) t with
      | (Ok response, t') =>
          (updates ← readProp hp response "updates";
           if negb (truthy updates) then
             Throw (SheetError ("Couldn't update " +:+ name +:+ " row " +:+ rowText))
           else
             ranges ← readProp hp updates "updatedRanges";
             if negb (truthy ranges) then
               Throw (SheetError ("Couldn't update " +:+ name +:+ " row " +:+ rowText))
             else Ok response,
           t')
      | r => r
      end
  end.

(** retrieve the entire sheet *)
Definition read (sdk : SheetSDK) (hp : heap) (t : transport)
  : result value * transport :=
  let api := "?includeGridData=true" in
  request sdk hp GET api None t.

(** All tabs data loaded into a keyed collection: a plain object, where
    the table stored under [__proto__] becomes the prototype. *)
Record TabTables := {
  tabsProto : option ITabTable;
  tabsOwn : gmap string ITabTable }.

Record ISheet := {
  sheets : list ISheetTab;
  tabs : TabTables }.

(** [tabs[k] = table] *)
Definition tabsSet (k : string) (table : ITabTable) (tabs : TabTables)
  : TabTables :=
  if String.eqb k "__proto__" then
    {| tabsProto := Some table; tabsOwn := tabsOwn tabs |}
  else {| tabsProto := tabsProto tabs; tabsOwn := <[k := table]> (tabsOwn tabs) |}.

(** The loop of [index] over [doc.sheets], from the tabs filled so far;
    they stay as they are when a tab fails to load. *)
Fixpoint indexSheets (sheets : list ISheetTab) (tabs : TabTables)
  : result unit * TabTables :=
  match sheets with
  | tab :: sheets' =>
      match loadTabTable tab "id" with
      | Ok table => indexSheets sheets' (tabsSet (tabName (Tab tab)) table tabs)
      | Throw e => (Throw e, tabs)
      end
  | [] => (Ok (), tabs)
  end.

(** Index the raw sheet into tab data, for a [doc] that is given (without
    one, [doc] is the response of [read]): the result, and [doc] as the
    call leaves it. *)
Definition index (doc : ISheet) : result ISheet * ISheet :=
  let '(r, tabs) := indexSheets (sheets doc) {| tabsProto := None; tabsOwn := ∅ |} in
  let doc := {| sheets := sheets doc; tabs := tabs |} in
  (r;; Ok doc, doc).

(** [sheet.values] on a response: an array has the method of that name. *)
Definition readValues (hp : heap) (sheet : value) : result value :=
  match sheet with
  | VArr _ => Ok (VFun "values")
  | _ => readProp hp sheet "values"
  end.

(** Get the values for a sheet row *)
Definition getRow (sdk : SheetSDK) (hp : heap) (tab : tabRef) (row : value)
    (t : transport) : result value * transport :=
  if negb (truthy row) then (Throw (SheetError "row cannot be zero"), t)
  else
    match ToString hp row with
    | Throw e => (Throw e, t)
    | Ok rowText =>
        let name := tabName tab in
        let api := "/values/" +:+ name +:+ "!A" +:+ rowText +:+ ":end" in
        match request sdk hp GET api None t with
        | (Ok sheet, t') => (readValues hp sheet, t')
        | r => r
        end
    end.


End Client.

End SheetSDK.

(** * WhollySheet.ts *)

Module WhollySheet.
Import SheetSDK.

(** The key index is a plain object: its own properties map a key to a
    row, and a row stored under [__proto__] becomes its prototype. *)
Record keyIndex := {
  indexProto : option loc;
  indexOwn : gmap string loc }.

Definition emptyIndex : keyIndex := {| indexProto := None; indexOwn := ∅ |}.

Record sheet := {
  sheets : SheetSDK.SheetSDK;
  name : string;
  table : ITabTable;
  keyColumn : string;
  rows : list loc;
  index : keyIndex }.

(** The objects, the row store [this], and the transport. *)
Record world := {
  objects : heap;
  this : sheet;
  remote : transport }.

(** Operations thread the world and may throw; a throw keeps the world
    as it is at that point. *)
Definition M (A : Type) : Type := world → result A * world.

#[global] Instance M_ret : MRet M := λ A a w, (Ok a, w).
#[global] Instance M_bind : MBind M := λ A B f m w,
  match m w with
  | (Ok a, w') => f a w'
  | (Throw e, w') => (Throw e, w')
  end.

Definition throw {A} (e : error) : M A := λ w, (Throw e, w).
Definition lift {A} (r : result A) : M A := λ w, (r, w).
Definition gets {A} (f : world → A) : M A := λ w, (Ok (f w), w).

Definition setObjects (hp : heap) : M unit := λ w,
  (Ok (), {| objects := hp; this := this w; remote := remote w |}).
Definition setThis (s : sheet) : M unit := λ w,
  (Ok (), {| objects := objects w; this := s; remote := remote w |}).

Definition withIndex (i : keyIndex) (s : sheet) : sheet :=
  {| sheets := sheets s; name := name s; table := table s;
     keyColumn := keyColumn s; rows := rows s; index := i |}.


Section Store.
Context `{Host}.

(** The own properties of the record at [l]. *)
Definition propsAt (hp : heap) (l : loc) : props := default [] (hp !! l).

(** [model[k]] *)
Definition field (hp : heap) (model : loc) (k : string) : value :=
  getProp rowModelPrototype (propsAt hp model) k.

(** [model[k] = v] *)
Definition setField (model : loc) (k : string) (v : value) : M unit := λ w,
  setObjects (<[model := setProp k v (propsAt (objects w) model)]> (objects w)) w.

(** ** RowModel.assign *)

(** Assign by position *)
Fixpoint assignByPosition (model : loc) (keys : list string) (index : nat)
    (vals : list value) : M unit :=
  match vals with
  | val :: vals' =>
      let key := default "undefined"%string (keys !! index) in
      hp ← gets objects;
      value ← lift (typeCast hp (propsAt hp model) key val);
      setField model key value;;
      assignByPosition model keys (S index) vals'
  | [] => mret ()
  end.

(** Assign by name *)
Fixpoint assignByName (model : loc) (kvs : props) : M unit :=
  match kvs with
  | (key, val) :: kvs' =>
      hp ← gets objects;
      (if hasProp rowModelPrototype (propsAt hp model) key then
         value ← lift (typeCast hp (propsAt hp model) key val);
         setField model key value
       else mret ());;
      assignByName model kvs'
  | [] => mret ()
  end.

Definition assign (model : loc) (values : value) : M loc :=
  (if truthy values then
     hp ← gets objects;
     let keys := header (propsAt hp model) in
     match values with
     | VArr items => assignByPosition model keys 0 items
     | _ => assignByName model (entries hp values)
     end
   else mret ());;
  mret model.

(** ** WhollySheet *)

(** [index[k] = r] *)
Definition indexSet (k : string) (r : loc) (i : keyIndex) : keyIndex :=
  if String.eqb k "__proto__" then
    {| indexProto := Some r; indexOwn := indexOwn i |}
  else {| indexProto := indexProto i; indexOwn := <[k := r]> (indexOwn i) |}.

(** [index[k]] *)
Definition indexGet (hp : heap) (i : keyIndex) (k : string) : value :=
  match indexOwn i !! k with
  | Some r => VRef r
  | None =>
      match indexProto i with
      | Some r =>
          if String.eqb k "__proto__" then VRef r
          else getProp rowModelPrototype (propsAt hp r) k
      | None => getProp [] [] k
      end
  end.

Fixpoint indexRowsFrom (rs : list loc) : M unit :=
  match rs with
  | r :: rs' =>
      w ← gets id;
      k ← lift (ToString (objects w) (field (objects w) r (keyColumn (this w))));
      setThis (withIndex (indexSet k r (index (this w))) (this w));;
      indexRowsFrom rs'
  | [] => mret ()
  end.

Definition createIndex : M unit :=
  s ← gets this;
  setThis (withIndex emptyIndex s);;
  indexRowsFrom (rows s).

(** convert value to the strong type, or undefined if not value *)
Definition toAT (value : value) : Js.value :=
  if truthy value then value else VUndefined.


Definition nextRow (s : sheet) : value :=
  VNum (NInt (Z.of_nat (length (rows s)))).

(** [values(model)]: the row's values in table.header column order *)
Definition valuesOf (hp : heap) (s : sheet) (model : loc)
  : result (list string) :=
  mapM (λ h, stringer hp (field hp model h)) (tableHeader (table s)).

Definition checkId (model : loc) : M unit :=
  w ← gets id;
  if negb (truthy (field (objects w) model (keyColumn (this w)))) then
    row ← lift (ToString (objects w) (field (objects w) model "row"));
    throw (SheetError (dq +:+ keyColumn (this w) +:+ dq
                         +:+ " must be assigned for row " +:+ row))
  else mret ().

(** A call of the client, on the transport of the world. *)
Definition call (f : heap → transport → result value * transport) : M value :=
  λ w, let '(r, t) := f (objects w) (remote w) in
       (r, {| objects := objects w; this := this w; remote := t |}).

Definition create (model : loc) : M loc :=
  checkId model;;
  w ← gets id;
  let row := field (objects w) model "row" in
  if negb (strictEq row (VNum (NInt 0))) then
    id ← lift (ToString (objects w) (field (objects w) model "id"));
    rowText ← lift (ToString (objects w) row);
    throw (SheetError (dq +:+ id +:+ dq +:+ " row must be 0, not "
                         +:+ rowText +:+ " to create"))
  else
    values ← lift (valuesOf (objects w) (this w) model);
    result ← call (λ hp, createRow (sheets (this w)) hp
                            (TabName (name (this w))) (nextRow (this w)) values);
    assign model result;;
    (* ID may have changed *)
    createIndex;;
    mret model.

(** [rows[v]]: the element when [v] is an array index. *)
Definition arrayIndex (s : string) : option nat :=
  let n := digitsValue 0 (text s) in
  if forallb isDigit (text s) && String.eqb s (numberToString (NInt n))
  then Some (Z.to_nat n) else None.

Definition rowAt (hp : heap) (s : sheet) (v : value) : result (option loc) :=
  k ← ToString hp v;
  Ok (i ← arrayIndex k; rows s !! i).

Definition update (model : loc) : M value :=
  checkId model;;
  w ← gets id;
  let row := field (objects w) model "row" in
  if negb (truthy row) then
    id ← lift (ToString (objects w) (field (objects w) model "id"));
    throw (SheetError (dq +:+ id +:+ dq +:+ " row must be > 0 to update"))
  else
    values ← lift (valuesOf (objects w) (this w) model);
    (* This will throw an error if the request fails *)
    result ← call (λ hp, updateRow (sheets (this w)) hp
                            (TabName (name (this w))) row values);
    w ← gets id;
    let row := field (objects w) model "row" in
    entry ← lift (rowAt (objects w) (this w) row);
    match entry with
    | None => throw TypeError
    | Some r =>
        assign r result;;
        (* ID may have changed *)
        createIndex;;
        w ← gets id;
        entry ← lift (rowAt (objects w) (this w) (field (objects w) model "row"));
        mret (from_option VRef VUndefined entry)
    end.

Definition save (model : loc) : M value :=
  w ← gets id;
  (* A model with a non-zero row is an update *)
  if truthy (field (objects w) model "row") then update model
  else m ← create model; mret (VRef m).

Fixpoint findRow (hp : heap) (key : string) (value : value) (rs : list loc)
  : option loc :=
  match rs with
  | r :: rs' =>
      if strictEq (field hp r key) value then Some r
      else findRow hp key value rs'
  | [] => None
  end.

Definition find (w : world) (value : value) (columnName : option string)
  : result Js.value :=
  if negb (truthy value) then Ok VUndefined
  else
    let given := match columnName with
                 | Some c => negb (String.eqb c "")
                 | None => false
                 end in
    let key := if given then default ""%string columnName
               else keyColumn (this w) in
    let key := match typeOf value with
               | TNumber => if negb given then "row"%string else key
               | _ => key
               end in
    if bool_decide (columnName = Some (keyColumn (this w))) then
      (* Find by index *)
      k ← toStringCall (objects w) value;
      Ok (toAT (indexGet (objects w) (index (this w)) k))
    else
      Ok (toAT (match findRow (objects w) key value (rows (this w)) with
               | Some r => VRef r
               | None => VUndefined
               end)).


End Store.

End WhollySheet.

(** * Properties *)

Import SheetSDK WhollySheet.
Local Open Scope string_scope.
Local Open Scope list_scope.
Local Open Scope Z_scope.

(** ** Notions

    The definitions that the statements below are written with. *)

Section Notions.
Context `{Host}.

(** A host for the examples: its dates print one way and it reads no
    date text but the date-time string format. *)
Definition plainHost : Host := {|
  hostDateText := λ _, "Thu Jan 01 1970 00:00:00 GMT+0000";
  hostDateParse := λ _, None;
  hostFunctionText := λ name, "function " +:+ name +:+ "() { [native code] }" |}.

(** *** Grids *)

(** The text of cell [j] of a grid row, when the cell is there and has
    a formatted value. *)
Definition cellAt (r : ITabRowData) (j : nat) : option string :=
  values r !! j ≫= cellText.

(** A fully blank row: no cell under a header column has text. *)
Definition blankRow (header : list string) (r : ITabRowData) : Prop :=
  ∀ j, (j < length header)%nat → cellAt r j = None.

(** The row has text in a column named [keyName]. *)
Definition hasKey (header : list string) (keyName : string) (r : ITabRowData)
  : Prop :=
  ∃ j, header !! j = Some keyName ∧ is_Some (cellAt r j).

(** The row has text in a header column whose name makes a field of its
    own: neither [row], which the position already occupies, nor
    [__proto__]. *)
Definition populated (header : list string) (r : ITabRowData) : Prop :=
  ∃ j col, header !! j = Some col ∧ col ≠ rowPosition ∧ col ≠ "__proto__"
           ∧ is_Some (cellAt r j).

(** The record built for the grid row at [rowIndex]. *)
Definition recordOf (header : list string) (rowIndex : nat) (r : ITabRowData)
  : props :=
  fillRow header 0 r [(rowPosition, VNum (NInt (Z.of_nat rowIndex + 1)))].

(** Cells, rows and tabs written out. *)
Definition cell (s : string) : ICellData := {| formattedValue := Some s |}.
Definition noCell : ICellData := {| formattedValue := None |}.
Definition gridRow (cells : list ICellData) : ITabRowData := {| values := cells |}.
Definition tabOf (title : string) (grid : list ITabRowData) (more : list ITabData)
  : ISheetTab :=
  {| title := title; data := {| rowData := grid |} :: more |}.

(** Alice, a blank row, Bob. *)
Definition peopleTab : ISheetTab :=
  tabOf "people"
    [gridRow [cell "id"; cell "name"];
     gridRow [cell "1"; cell "Alice"];
     gridRow [];
     gridRow [cell "2"; cell "Bob"]] [].

(** A tab with a column named [row]. *)
Definition rowColumnTab : ISheetTab :=
  tabOf "people"
    [gridRow [cell "id"; cell "row"];
     gridRow [cell "1"; cell "7"]] [].

(** A blank row, then a row without key. *)
Definition paddedTab : ISheetTab :=
  tabOf "people"
    [gridRow [cell "id"; cell "name"];
     gridRow [noCell; noCell];
     gridRow [noCell; cell "Bob"]] [].

(** A row without key where the key column bears the name of a method. *)
Definition methodKeyTab : ISheetTab :=
  tabOf "people"
    [gridRow [cell "toString"; cell "name"];
     gridRow [noCell; cell "Bob"]] [].

(** The grid row cut to its first [n] cells. *)
Definition trimRow (n : nat) (r : ITabRowData) : ITabRowData :=
  {| values := take n (values r) |}.

(** The table of a tab that loads with the default key. *)
Definition loaded (tab : ISheetTab) : option ITabTable :=
  match loadTabTable tab "id" with
  | Ok table => Some table
  | Throw _ => None
  end.

(** *** Stores *)

(** The key field of the record is set. *)
Definition keySet (w : world) (model : loc) : bool :=
  truthy (field (objects w) model (keyColumn (this w))).

(** [model.row] *)
Definition rowOf (w : world) (model : loc) : value :=
  field (objects w) model "row".

(** The world after the transport has moved to [t]. *)
Definition withRemote (t : transport) (w : world) : world :=
  {| objects := objects w; this := this w; remote := t |}.

(** What [create] does once its checks have passed. *)
Definition createBody (model : loc) : M loc :=
  w ← gets id;
  values ← lift (valuesOf (objects w) (this w) model);
  result ← call (λ hp, createRow (sheets (this w)) hp
                          (TabName (name (this w))) (nextRow (this w)) values);
  assign model result;;
  createIndex;;
  mret model.

(** What [update] does once its checks have passed. *)
Definition updateBody (model : loc) : M value :=
  w ← gets id;
  values ← lift (valuesOf (objects w) (this w) model);
  result ← call (λ hp, updateRow (sheets (this w)) hp
                          (TabName (name (this w))) (rowOf w model) values);
  w ← gets id;
  entry ← lift (rowAt (objects w) (this w) (rowOf w model));
  match entry with
  | None => throw TypeError
  | Some r =>
      assign r result;;
      createIndex;;
      w ← gets id;
      entry ← lift (rowAt (objects w) (this w) (rowOf w model));
      mret (from_option VRef VUndefined entry)
  end.

(** *** Scenarios *)

Definition demoSdk : SheetSDK.SheetSDK := {| apiKey := "key"; sheetId := "doc" |}.

Definition peopleTable : ITabTable :=
  {| tableHeader := ["id"; "name"]; tableRows := [] |}.

(** A store over [people] holding the records at [rs], its index not yet
    built. *)
Definition storeOf (rs : list loc) : sheet :=
  {| sheets := demoSdk; name := "people"; table := peopleTable;
     keyColumn := "id"; rows := rs; index := emptyIndex |}.

Definition person (row : Z) (id name : string) : props :=
  [("row", VNum (NInt row)); ("id", VStr id); ("name", VStr name)].

(** The response of a successful append. *)
Definition appended : value :=
  VObj [("spreadsheetId", VStr "doc");
        ("updates", VObj [("updatedRanges", VStr "people!A1:B1")])].

(** The response of a successful update. *)
Definition updated : value :=
  VObj [("spreadsheetId", VStr "doc"); ("updatedRange", VStr "people!A2:B2");
        ("updatedRows", VNum (NInt 1))].

(** An empty store, and the record [{row: 0, id: "x", name: "n"}]. *)
Definition emptyStoreWorld (answers : list reply) : world :=
  {| objects := {[ 0%nat := person 0 "x" "n" ]};
     this := storeOf [];
     remote := {| sent := []; replies := answers |} |}.

(** A store whose one row is at position 2 of the sheet, with its index,
    and the record [{row: r, id: "x", name: "changed"}] at location 1. *)
Definition oneRowWorld (r : Z) (answers : list reply) : world :=
  {| objects := {[ 0%nat := person 2 "x" "n"; 1%nat := person r "x" "changed" ]};
     this := withIndex {| indexProto := None; indexOwn := {[ "x" := 0%nat ]} |}
               (storeOf [0%nat]);
     remote := {| sent := []; replies := answers |} |}.

(** A store of three rows, at positions 2, 3 and 4 of the sheet, with its
    index, and the record [{row: 2, id: "a", name: "changed"}] at
    location 3. *)
Definition threeRowsWorld (answers : list reply) : world :=
  {| objects := {[ 0%nat := person 2 "a" "n"; 1%nat := person 3 "b" "n";
                   2%nat := person 4 "c" "n"; 3%nat := person 2 "a" "changed" ]};
     this := withIndex {| indexProto := None;
                          indexOwn := {[ "a" := 0%nat; "b" := 1%nat;
                                         "c" := 2%nat ]} |}
               (storeOf [0%nat; 1%nat; 2%nat]);
     remote := {| sent := []; replies := answers |} |}.

Definition appendRequest (row : string) (values : list string) : httpRequest :=
  {| reqMethod := POST;
     reqPath := "https://sheets.googleapis.com/v4/spreadsheets/doc/values/people!A"
                  +:+ row
                  +:+ ":end:append?valueInputOption=RAW&insertDataOption=INSERT_ROWS&key=key";
     reqValues := Some values |}.

Definition updateRequest (row : string) (values : list string) : httpRequest :=
  {| reqMethod := PUT;
     reqPath := "https://sheets.googleapis.com/v4/spreadsheets/doc/values/people!A"
                  +:+ row +:+ ":end?valueInputOption=RAW&key=key";
     reqValues := Some values |}.

(** The values whose text [stringer] gives without raising: all but an
    invalid Date, and the arrays and objects, whose text depends on their
    members. *)
Definition printable (v : value) : bool :=
  match v with
  | VDate (DateObj None) | VArr _ | VObj _ | VRef _ => false
  | _ => true
  end.

(** The response of an append names the ranges it has updated. *)
Definition confirmed (hp : heap) (response : value) : bool :=
  match readProp hp response "updates" with
  | Ok updates =>
      truthy updates
      && match readProp hp updates "updatedRanges" with
         | Ok ranges => truthy ranges
         | Throw _ => false
         end
  | Throw _ => false
  end.

(** The transport [t] after one more request, of [method] with [body]. *)
Definition sentOne (method : HttpMethod) (body : option (list string))
    (t t' : transport) : Prop :=
  ∃ path, t' = {| sent := sent t ++ [{| reqMethod := method; reqPath := path;
                                        reqValues := body |}];
                  replies := tail (replies t) |}.



(** A record with an invalid Date under the column [name]. *)
Definition undatedWorld : world :=
  {| objects := {[ 0%nat := [("row", VNum (NInt 0)); ("id", VStr "x");
                             ("name", VDate (DateObj None))] ]};
     this := storeOf [];
     remote := {| sent := []; replies := [Reply true appended] |} |}.


(** *** The key index *)

(** The linear scan of the spec: the first row of the rows list whose
    field [column] equals the value, or [undefined]. *)
Definition linearScan (w : world) (value : value) (column : string) : Js.value :=
  match head (filter (λ r, strictEq (field (objects w) r column) value = true)
                (rows (this w))) with
  | Some r => VRef r
  | None => VUndefined
  end.

(** The index that the loop of [createIndex] makes of [rs], from [i]. *)
Fixpoint indexFold (hp : heap) (column : string) (rs : list loc) (i : keyIndex)
  : result keyIndex :=
  match rs with
  | r :: rs' =>
      k ← ToString hp (field hp r column);
      indexFold hp column rs' (indexSet k r i)
  | [] => Ok i
  end.

(** The world with the index [i]. *)
Definition setIndex (i : keyIndex) (w : world) : world :=
  {| objects := objects w; this := withIndex i (this w); remote := remote w |}.

(** The rows have text keys, none of them [__proto__]. *)
Definition textKeys (hp : heap) (column : string) (rs : list loc) : Prop :=
  ∀ r, r ∈ rs → ∃ k, field hp r column = VStr k ∧ k ≠ "__proto__".

(** Two rows with one key, a row whose key is the text of a number, and a
    row that holds a zero. *)
Definition twoRowsWorld (id0 id1 : string) (i : keyIndex) : world :=
  {| objects := {[ 0%nat := person 2 id0 "a"; 1%nat := person 3 id1 "b" ]};
     this := withIndex i (storeOf [0%nat; 1%nat]);
     remote := {| sent := []; replies := [] |} |}.

Definition ownIndex (i : gmap string loc) : keyIndex :=
  {| indexProto := None; indexOwn := i |}.

Definition countWorld : world :=
  {| objects := {[ 0%nat := [("row", VNum (NInt 2)); ("id", VStr "x");
                             ("count", VNum (NInt 0))] ]};
     this := withIndex {| indexProto := None; indexOwn := {[ "x" := 0%nat ]} |}
               (storeOf [0%nat]);
     remote := {| sent := []; replies := [] |} |}.

(** *** The codec *)

(** The characters of a decimal numeral. *)
Definition uintText (d : Decimal.uint) : chars := text (NilEmpty.string_of_uint d).

(** The decimal point and the digits after it, when there are some. *)
Definition fractionText (fp : chars) : chars :=
  match fp with [] => [] | _ => "."%char :: fp end.

(** The Number that the number branch of [typeCast] reads from a text. *)
Definition numberOfText (l : chars) : number :=
  if isIntText l then parseIntText l else parseFloatText l.

#[local] Instance jsType_eq_dec : EqDecision jsType.
Proof. solve_decision. Defined.

(** The values that encode and decode to themselves, given the current
    value [cur] of the field that receives them: a non-empty string for a
    string field, a number (in the form [wfNumber]) for a number field, a
    boolean for a boolean field, and for a Date field a valid Date other
    than [noDate]. *)
Definition encodable (cur v : value) : bool :=
  match v with
  | VStr s => negb (String.eqb s "") && bool_decide (typeOf cur = TString)
  | VNum n => wfNumber n && bool_decide (typeOf cur = TNumber)
  | VBool _ => bool_decide (typeOf cur = TBoolean)
  | VDate (DateObj (Some t)) => (Z.abs t <=? maxTime) && instanceOfDate cur
  | _ => false
  end.

(** [decode(encode(v))] on the field [key] of the record [this]. *)
Definition decodeEncoded (hp : heap) (this : props) (key : string) (v : value)
  : result value :=
  s ← stringer hp v; typeCast hp this key (VStr s).

End Notions.

(** ** Own properties *)

Lemma lookupProp_upsert_eq k v own : lookupProp k (upsert k v own) = Some v.
Proof.
  induction own as [|[k' v'] own IH]; simpl.
  - by rewrite String.eqb_refl.
  - destruct (String.eqb k k') eqn:E; simpl; rewrite ?String.eqb_refl, ?E; done.
Qed.

Lemma lookupProp_upsert_ne k k' v own :
  k ≠ k' → lookupProp k' (upsert k v own) = lookupProp k' own.
Proof.
  intros Hne. induction own as [|[k0 v0] own IH]; simpl.
  - destruct (String.eqb k' k) eqn:E; [|done].
    apply String.eqb_eq in E. congruence.
  - destruct (String.eqb k k0) eqn:E; simpl.
    + apply String.eqb_eq in E. subst k0.
      destruct (String.eqb k' k) eqn:E'; [|done].
      apply String.eqb_eq in E'. congruence.
    + by rewrite IH.
Qed.

Lemma keysOf_upsert_length k v own :
  (length (keysOf own) ≤ length (keysOf (upsert k v own)))%nat.
Proof.
  unfold keysOf. rewrite !length_fmap.
  induction own as [|[k' v'] own IH]; simpl; [lia|].
  destruct (String.eqb k k'); simpl; lia.
Qed.

Lemma lookupProp_setProp_ne k k' v own :
  k ≠ k' → lookupProp k' (setProp k v own) = lookupProp k' own.
Proof.
  intros Hne. unfold setProp. destruct (String.eqb k "__proto__"); [done|].
  by apply lookupProp_upsert_ne.
Qed.

Lemma lookupProp_setProp_eq k v own :
  k ≠ "__proto__" → lookupProp k (setProp k v own) = Some v.
Proof.
  intros Hne. unfold setProp.
  destruct (String.eqb k "__proto__") eqn:E.
  - apply String.eqb_eq in E. done.
  - apply lookupProp_upsert_eq.
Qed.

Lemma keysOf_setProp_length k v own :
  (length (keysOf own) ≤ length (keysOf (setProp k v own)))%nat.
Proof.
  unfold setProp. destruct (String.eqb k "__proto__"); [lia|].
  apply keysOf_upsert_length.
Qed.

Lemma two_keys_length k1 k2 own :
  k1 ≠ k2 → is_Some (lookupProp k1 own) → is_Some (lookupProp k2 own) →
  (2 ≤ length (keysOf own))%nat.
Proof.
  intros Hne H1 H2.
  destruct own as [|[ka va] [|[kb vb] own]]; simpl in *.
  - by destruct H1.
  - destruct (String.eqb k1 ka) eqn:E1; [|by destruct H1].
    destruct (String.eqb k2 ka) eqn:E2; [|by destruct H2].
    apply String.eqb_eq in E1, E2. congruence.
  - unfold keysOf. rewrite length_fmap. simpl. lia.
Qed.

(** ** The tab indexer *)

Section TabIndexer.

Lemma cellText_nonempty cell s : cellText cell = Some s → s ≠ "".
Proof.
  unfold cellText. destruct (formattedValue cell) as [s'|]; [|done].
  destruct (String.eqb s' "") eqn:E; [done|].
  intros [= <-]. by apply String.eqb_neq.
Qed.

Lemma cellAt_nonempty r j s : cellAt r j = Some s → s ≠ "".
Proof.
  unfold cellAt. destruct (values r !! j) as [cell|]; simpl; [|done].
  apply cellText_nonempty.
Qed.

Lemma fillRow_cons col header i r row :
  fillRow (col :: header) i r row =
  fillRow header (S i) r
    (match cellAt r i with
     | Some s => setProp col (VStr s) row
     | None => row
     end).
Proof.
  simpl. unfold cellAt. by destruct (values r !! i) as [cell|].
Qed.

Lemma fillRow_blank header i r row :
  (∀ j, (j < length header)%nat → cellAt r (i + j) = None) →
  fillRow header i r row = row.
Proof.
  revert i row. induction header as [|col header IH]; intros i row Hb; [done|].
  rewrite fillRow_cons.
  assert (cellAt r i = None) as ->.
  { rewrite <- (Nat.add_0_r i). apply Hb. simpl. lia. }
  apply IH. intros j Hj. replace (S i + j)%nat with (i + S j)%nat by lia.
  apply Hb. simpl. lia.
Qed.

(** A field that no populated column names keeps its value. *)
Lemma fillRow_lookup_unset header i r row k :
  (∀ j, header !! j = Some k → cellAt r (i + j) = None) →
  lookupProp k (fillRow header i r row) = lookupProp k row.
Proof.
  revert i row. induction header as [|col header IH]; intros i row Hk; [done|].
  rewrite fillRow_cons. rewrite IH.
  - destruct (cellAt r i) eqn:Hc; [|done].
    apply lookupProp_setProp_ne. intros ->.
    specialize (Hk 0%nat eq_refl). rewrite Nat.add_0_r in Hk. congruence.
  - intros j Hj. replace (S i + j)%nat with (i + S j)%nat by lia. by apply Hk.
Qed.

(** A field that holds a cell text still holds one at the end. *)
Lemma fillRow_keeps_text header i r row k s :
  lookupProp k row = Some (VStr s) → s ≠ "" →
  ∃ s', s' ≠ "" ∧ lookupProp k (fillRow header i r row) = Some (VStr s').
Proof.
  revert i row s. induction header as [|col header IH]; intros i row s Hl Hs.
  - by exists s.
  - rewrite fillRow_cons. destruct (cellAt r i) as [c|] eqn:Hc.
    + destruct (decide (col = k)) as [->|Hne].
      * destruct (decide (k = "__proto__")) as [->|Hp].
        -- apply (IH _ _ s); [|done]. by unfold setProp.
        -- apply (IH _ _ c); [by apply lookupProp_setProp_eq|].
           by apply cellAt_nonempty in Hc.
      * apply (IH _ _ s); [|done]. by rewrite lookupProp_setProp_ne.
    + by apply (IH _ _ s).
Qed.

(** A populated column leaves its text in the field of its name. *)
Lemma fillRow_lookup_set header i r row k :
  k ≠ "__proto__" →
  (∃ j, header !! j = Some k ∧ is_Some (cellAt r (i + j))) →
  ∃ s, s ≠ "" ∧ lookupProp k (fillRow header i r row) = Some (VStr s).
Proof.
  intros Hp. revert i row.
  induction header as [|col header IH]; intros i row [j [Hj Hc]]; [done|].
  rewrite fillRow_cons. destruct j as [|j]; simpl in Hj.
  - injection Hj as ->. rewrite Nat.add_0_r in Hc. destruct Hc as [c Hc].
    rewrite Hc. apply (fillRow_keeps_text _ _ _ _ _ c).
    + by apply lookupProp_setProp_eq.
    + by apply cellAt_nonempty in Hc.
  - apply IH. exists j. split; [done|].
    by replace (S i + j)%nat with (i + S j)%nat by lia.
Qed.

Lemma fillRow_keeps_field header i r row k :
  is_Some (lookupProp k row) → is_Some (lookupProp k (fillRow header i r row)).
Proof.
  revert i row. induction header as [|col header IH]; intros i row Hs; [done|].
  rewrite fillRow_cons. apply IH. destruct (cellAt r i); [|done].
  destruct (decide (col = k)) as [->|Hne].
  - unfold setProp. destruct (String.eqb k "__proto__"); [done|].
    rewrite lookupProp_upsert_eq. by eexists.
  - by rewrite lookupProp_setProp_ne.
Qed.

Lemma recordOf_blank header rowIndex r :
  blankRow header r → length (keysOf (recordOf header rowIndex r)) = 1%nat.
Proof.
  intros Hb. unfold recordOf. by rewrite fillRow_blank.
Qed.

Lemma recordOf_populated header rowIndex r :
  populated header r → (2 ≤ length (keysOf (recordOf header rowIndex r)))%nat.
Proof.
  intros (j & col & Hj & Hrow & Hproto & Hc). unfold recordOf.
  apply (two_keys_length rowPosition col); [done| |].
  - apply fillRow_keeps_field. simpl. by eexists.
  - destruct (fillRow_lookup_set header 0 r
                [(rowPosition, VNum (NInt (Z.of_nat rowIndex + 1)))] col Hproto)
      as (s & _ & ->); [|by eexists].
    by exists j.
Qed.

(** The [row] field is the position when no column is named [row]. *)
Lemma recordOf_row header rowIndex r :
  rowPosition ∉ header →
  lookupProp rowPosition (recordOf header rowIndex r)
  = Some (VNum (NInt (Z.of_nat rowIndex + 1))).
Proof.
  intros Hn. unfold recordOf. rewrite fillRow_lookup_unset; [done|].
  intros j Hj. exfalso. apply Hn. by apply list_elem_of_lookup_2 in Hj.
Qed.

Lemma recordOf_key header rowIndex r keyName :
  keyName ≠ rowPosition → inherited [] keyName = false →
  hasKey header keyName r →
  truthy (getProp [] (recordOf header rowIndex r) keyName) = true.
Proof.
  intros Hrow Hinh [j [Hj Hc]].
  assert (keyName ≠ "__proto__") as Hp by (intros ->; done).
  destruct (fillRow_lookup_set header 0 r
              [(rowPosition, VNum (NInt (Z.of_nat rowIndex + 1)))] keyName Hp)
    as (s & Hs & Hl); [by exists j|].
  unfold getProp, recordOf. rewrite Hl. simpl.
  by apply String.eqb_neq in Hs as ->.
Qed.

Lemma recordOf_no_key header rowIndex r keyName :
  keyName ≠ rowPosition → inherited [] keyName = false →
  ¬ hasKey header keyName r →
  truthy (getProp [] (recordOf header rowIndex r) keyName) = false.
Proof.
  intros Hrow Hinh Hno.
  assert (keyName ≠ "__proto__") as Hp by (intros ->; done).
  unfold getProp, recordOf. rewrite fillRow_lookup_unset.
  - simpl. destruct (String.eqb keyName rowPosition) eqn:E.
    { apply String.eqb_eq in E. done. }
    apply String.eqb_neq in Hp as ->. by rewrite Hinh.
  - intros j Hj. destruct (cellAt r (0 + j)) eqn:Hc; [|done].
    exfalso. apply Hno. exists j. split; [done|]. by eexists.
Qed.

Lemma indexRows_cons tab keyName header rowIndex r rest rows :
  indexRows tab keyName header rowIndex (r :: rest) rows =
  let row := recordOf header rowIndex r in
  if Nat.eqb (length (keysOf row)) 1 then Ok rows
  else if negb (truthy (getProp [] row keyName)) then
    Throw (SheetError (noKeyMessage tab rowIndex keyName))
  else indexRows tab keyName header (S rowIndex) rest (rows ++ [row]).
Proof. done. Qed.

(** Rows that all have a key value are indexed one after the other. *)
Lemma indexRows_keyed tab keyName header rowIndex pre rest rows :
  keyName ≠ rowPosition → inherited [] keyName = false →
  Forall (hasKey header keyName) pre →
  indexRows tab keyName header rowIndex (pre ++ rest) rows =
  indexRows tab keyName header (rowIndex + length pre) rest
    (rows ++ imap (λ k, recordOf header (rowIndex + k)) pre).
Proof.
  intros Hrow Hinh. revert rowIndex rows.
  induction pre as [|r pre IH]; intros rowIndex rows Hpre.
  - simpl. by rewrite Nat.add_0_r, app_nil_r.
  - apply Forall_cons in Hpre as [Hr Hpre].
    rewrite <- app_comm_cons, indexRows_cons. cbv zeta.
    assert (populated header r) as Hpop.
    { destruct Hr as [j [Hj Hc]]. exists j, keyName. repeat split; try done.
      intros ->. done. }
    apply (recordOf_populated _ rowIndex) in Hpop.
    destruct (Nat.eqb_spec (length (keysOf (recordOf header rowIndex r))) 1);
      [lia|].
    rewrite recordOf_key by done. simpl negb. cbv iota.
    rewrite IH by done. simpl length.
    replace (S rowIndex + length pre)%nat with (rowIndex + S (length pre))%nat
      by lia.
    f_equal. rewrite <- app_assoc. f_equal. simpl. rewrite Nat.add_0_r.
    f_equal. apply imap_ext. intros k x _. simpl. f_equal. lia.
Qed.

(** The parsed rows are the records of the first grid rows, in order. *)
Lemma indexRows_prefix tab keyName header rowIndex rest rows out :
  indexRows tab keyName header rowIndex rest rows = Ok out →
  ∃ n, out = rows ++ imap (λ k, recordOf header (rowIndex + k)) (take n rest).
Proof.
  revert rowIndex rows. induction rest as [|r rest IH]; intros rowIndex rows.
  - simpl. intros [= <-]. exists 0%nat. by rewrite app_nil_r.
  - rewrite indexRows_cons. cbv zeta.
    destruct (Nat.eqb _ 1).
    { intros [= <-]. exists 0%nat. by rewrite app_nil_r. }
    destruct (negb _); [done|].
    intros Hout. apply IH in Hout as [n ->]. exists (S n).
    rewrite <- app_assoc. f_equal. simpl. rewrite Nat.add_0_r. f_equal.
    apply imap_ext. intros k x _. simpl. f_equal. lia.
Qed.

(** Nothing after a fully blank row is looked at. *)
Lemma indexRows_blank tab keyName header rowIndex pre r post rows :
  blankRow header r →
  indexRows tab keyName header rowIndex (pre ++ r :: post) rows =
  indexRows tab keyName header rowIndex pre rows.
Proof.
  intros Hb. revert rowIndex rows.
  induction pre as [|r' pre IH]; intros rowIndex rows.
  - simpl app. rewrite indexRows_cons. cbv zeta.
    by rewrite recordOf_blank.
  - rewrite <- app_comm_cons, !indexRows_cons. cbv zeta.
    destruct (Nat.eqb _ 1); [done|]. destruct (negb _); [done|]. apply IH.
Qed.

End TabIndexer.

Section TabIndexerClaims.

Lemma indexRows_title tab tab' keyName header rowIndex rest rows :
  title tab = title tab' →
  indexRows tab keyName header rowIndex rest rows
  = indexRows tab' keyName header rowIndex rest rows.
Proof.
  intros Ht. revert rowIndex rows.
  induction rest as [|r rest IH]; intros rowIndex rows; [done|].
  rewrite !indexRows_cons. cbv zeta.
  destruct (Nat.eqb _ 1); [done|]. destruct (negb _); [|apply IH].
  unfold noKeyMessage, tabName. by rewrite Ht.
Qed.

(** C6, as the code has it. With a column named [row] the cell text
    replaces the position, so the last part is stated for a header without
    such a column.  Parsing stops at the first fully blank data row: in the
    example only the Alice row is parsed; in general the rows from a blank
    row on do not change the result; and the parsed row number [k]
    (counting from zero) is the record of grid row [k + 1] and carries
    [row = (k + 1) + 1]. *)
Theorem parsing_stops_at_blank_row :
  loadTabTable peopleTab "id"
  = Ok {| tableHeader := ["id"; "name"];
          tableRows := [[("row", VNum (NInt 2)); ("id", VStr "1");
                         ("name", VStr "Alice")]] |}
  ∧ (∀ title first pre r post more keyName,
       blankRow (headerOf (values first)) r →
       loadTabTable (tabOf title (first :: pre ++ r :: post) more) keyName
       = loadTabTable (tabOf title (first :: pre) more) keyName)
  ∧ (∀ title grid more keyName t k row,
       loadTabTable (tabOf title grid more) keyName = Ok t →
       tableRows t !! k = Some row →
       ∃ r, grid !! S k = Some r
            ∧ row = recordOf (tableHeader t) (S k) r
            ∧ (rowPosition ∉ tableHeader t →
               lookupProp rowPosition row
               = Some (VNum (NInt (Z.of_nat (S k) + 1))))).
Proof.
  split; [done|]. split.
  - intros title first pre r post more keyName Hb.
    unfold loadTabTable, tabOf. simpl.
    rewrite (indexRows_title _ (tabOf title (first :: pre) more)) by done.
    by rewrite indexRows_blank.
  - intros title grid more keyName t k row.
    unfold loadTabTable, tabOf. simpl.
    destruct grid as [|first rest].
    { intros [= <-]. simpl. by rewrite lookup_nil. }
    destruct (indexRows _ _ _ _ _ _) as [rows|] eqn:Hrows; [|done].
    simpl. intros [= <-]. simpl.
    apply indexRows_prefix in Hrows as [n ->]. simpl.
    intros Hk. apply list_lookup_imap_Some in Hk as (r & Hr & ->).
    apply lookup_take_Some in Hr as [Hr _].
    exists r. split; [done|]. split; [done|]. apply recordOf_row.
Qed.

Lemma parsing_stops_at_blank_row_witness :
  loadTabTable
    (tabOf "t" (gridRow [cell "id"] :: [gridRow [cell "1"]]
                  ++ gridRow [noCell] :: [gridRow [cell "2"]]) []) "id"
  = loadTabTable (tabOf "t" (gridRow [cell "id"] :: [gridRow [cell "1"]]) []) "id"
  ∧ ∃ r, [gridRow [cell "id"]; gridRow [cell "1"]] !! 1%nat = Some r
         ∧ [("row", VNum (NInt 2)); ("id", VStr "1")] = recordOf ["id"] 1 r
         ∧ (rowPosition ∉ ["id"] →
            lookupProp rowPosition [("row", VNum (NInt 2)); ("id", VStr "1")]
            = Some (VNum (NInt 2))).
Proof.
  destruct parsing_stops_at_blank_row as (_ & Hstop & Hrow). split.
  - apply Hstop. intros [|j] Hj; [reflexivity | simpl in Hj; lia].
  - apply (Hrow "t" [gridRow [cell "id"]; gridRow [cell "1"]] [] "id"
             {| tableHeader := ["id"];
                tableRows := [[("row", VNum (NInt 2)); ("id", VStr "1")]] |}
             0%nat); reflexivity.
Defined.

(** C6 as stated fails when a header column is named [row]: the parsed row
    at grid index 1 carries the cell text, not 2. *)
Lemma row_column_replaces_position :
  ∃ t row, loadTabTable rowColumnTab "id" = Ok t
           ∧ tableRows t !! 0%nat = Some row
           ∧ lookupProp rowPosition row = Some (VStr "7")
           ∧ lookupProp rowPosition row ≠ Some (VNum (NInt (1 + 1))).
Proof.
  eexists _, _. split; [reflexivity|]. split; [reflexivity|].
  split; [reflexivity | discriminate].
Qed.

(** C7, as the code has it: the rows are looked at in order and only up to
    the first blank one. When every data row before it has a key value, a
    row that has text in a header column but none in the key column raises
    the structural error, whose message names the tab and the row number
    in the sheet. The key column is named neither [row] nor like a member
    of [Object.prototype]. *)
Theorem keyless_row_raises title first pre r post more keyName :
  keyName ≠ rowPosition → inherited [] keyName = false →
  Forall (hasKey (headerOf (values first)) keyName) pre →
  populated (headerOf (values first)) r →
  ¬ hasKey (headerOf (values first)) keyName r →
  loadTabTable (tabOf title (first :: pre ++ r :: post) more) keyName
  = Throw (SheetError
             ("Tab " +:+ title +:+ " row "
                +:+ numberToString (NInt (Z.of_nat (length pre) + 2))
                +:+ " has no key column '" +:+ keyName +:+ "'")).
Proof.
  intros Hrow Hinh Hpre Hpop Hno. unfold loadTabTable, tabOf. simpl.
  rewrite indexRows_keyed by done. rewrite indexRows_cons. cbv zeta.
  apply (recordOf_populated _ (1 + length pre)) in Hpop.
  destruct (Nat.eqb_spec
              (length (keysOf (recordOf (headerOf (values first))
                                 (1 + length pre) r))) 1); [lia|].
  rewrite recordOf_no_key by done. simpl.
  unfold noKeyMessage, tabName. simpl.
  by replace (Z.of_nat (S (length pre)) + 1) with (Z.of_nat (length pre) + 2)
    by lia.
Qed.

Lemma keyless_row_raises_witness :
  loadTabTable
    (tabOf "people"
       (gridRow [cell "id"; cell "name"] :: [gridRow [cell "1"; cell "Alice"]]
          ++ gridRow [noCell; cell "Bob"] :: []) []) "id"
  = Throw (SheetError "Tab people row 3 has no key column 'id'").
Proof.
  apply (keyless_row_raises "people" (gridRow [cell "id"; cell "name"])
           [gridRow [cell "1"; cell "Alice"]] (gridRow [noCell; cell "Bob"])
           [] [] "id").
  - discriminate.
  - reflexivity.
  - apply Forall_cons. split; [|apply Forall_nil_2].
    exists 0%nat. split; [reflexivity | by eexists].
  - exists 1%nat, "name". repeat split; [discriminate .. | by eexists].
  - intros [[|[|j]] [Hj [c Hc]]]; simpl in Hj, Hc; discriminate.
Defined.

(** C7 as stated fails for a row below a blank one: row 3 of the sheet has
    a name and no key, and parsing returns an empty table. It fails as well
    for a key column that bears the name of a member of [Object.prototype]:
    the row without key is read as having one. *)
Lemma keyless_row_below_blank_row :
  (populated ["id"; "name"] (gridRow [noCell; cell "Bob"])
   ∧ ¬ hasKey ["id"; "name"] "id" (gridRow [noCell; cell "Bob"])
   ∧ loadTabTable paddedTab "id"
     = Ok {| tableHeader := ["id"; "name"]; tableRows := [] |})
  ∧ (populated ["toString"; "name"] (gridRow [noCell; cell "Bob"])
     ∧ ¬ hasKey ["toString"; "name"] "toString" (gridRow [noCell; cell "Bob"])
     ∧ loadTabTable methodKeyTab "toString"
       = Ok {| tableHeader := ["toString"; "name"];
               tableRows := [[("row", VNum (NInt 2)); ("name", VStr "Bob")]] |}).
Proof.
  split; (split; [|split; [|reflexivity]]).
  - exists 1%nat, "name". repeat split; [discriminate .. | by eexists].
  - intros [[|[|j]] [Hj [c Hc]]]; simpl in Hj, Hc; discriminate.
  - exists 1%nat, "name". repeat split; [discriminate .. | by eexists].
  - intros [[|[|j]] [Hj [c Hc]]]; simpl in Hj, Hc; discriminate.
Qed.

End TabIndexerClaims.

(** ** The codec on a slot of no recognized type *)

Section TypeCastFallback.
Context `{Host}.

(** C10: a truthy raw value cast into a slot whose current value is neither
    a string, a number, a boolean nor a Date gives [this.toString()], the
    text of the record itself, whatever the raw value is; for a record that
    does not hide [toString] this is ["[object Object]"]. *)
Theorem typeCast_unrecognized_slot hp this key v :
  truthy v = true →
  typeOf (getProp rowModelPrototype this key) ≠ TString →
  typeOf (getProp rowModelPrototype this key) ≠ TNumber →
  typeOf (getProp rowModelPrototype this key) ≠ TBoolean →
  instanceOfDate (getProp rowModelPrototype this key) = false →
  typeCast hp this key v = VStr <$> objectToString this
  ∧ (lookupProp "toString" this = None →
     typeCast hp this key v = Ok (VStr "[object Object]")).
Proof.
  intros Hv Hs Hn Hb Hd.
  assert (typeCast hp this key v = VStr <$> objectToString this) as Heq.
  { unfold typeCast. rewrite Hv. simpl negb. cbv iota.
    destruct (typeOf (getProp rowModelPrototype this key)); try done;
      by rewrite Hd. }
  split; [done|]. intros Hno. rewrite Heq. unfold objectToString.
  by rewrite Hno.
Qed.

End TypeCastFallback.

Lemma typeCast_unrecognized_slot_witness :
  typeCast (H := plainHost) ∅
    [("row", VNum (NInt 0)); ("id", VStr "x")] "name" (VStr "n")
  = Ok (VStr "[object Object]").
Proof.
  apply (typeCast_unrecognized_slot (H := plainHost) ∅
           [("row", VNum (NInt 0)); ("id", VStr "x")] "name" (VStr "n"));
    first [reflexivity | discriminate].
Defined.

(** ** The row store *)

Section Store.
Context `{Host}.

(** C9: a falsy lookup value is not found, whatever the store holds and
    whichever column is asked for. *)
Theorem find_falsy_value w v columnName :
  truthy v = false → find w v columnName = Ok VUndefined.
Proof. intros Hv. unfold find. by rewrite Hv. Qed.

(** *** The checks of [create] and [update] *)

Lemma checkId_unset w model :
  keySet w model = false → ∃ e, checkId model w = (Throw e, w).
Proof.
  unfold keySet, checkId. intros Hk.
  unfold mbind, M_bind, gets, lift, throw. simpl. rewrite Hk. simpl.
  destruct (ToString _ _); by eexists.
Qed.

Lemma checkId_set w model :
  keySet w model = true → checkId model w = (Ok (), w).
Proof.
  unfold keySet, checkId. intros Hk.
  unfold mbind, M_bind, gets. simpl. by rewrite Hk.
Qed.

Lemma create_checked w model :
  keySet w model = true → strictEq (rowOf w model) (VNum (NInt 0)) = true →
  create model w = createBody model w.
Proof.
  intros Hk Hr. unfold create, createBody.
  unfold mbind at 1. unfold M_bind at 1. rewrite checkId_set by done.
  unfold mbind at 1. unfold M_bind at 1. unfold gets at 1.
  unfold rowOf in Hr. simpl. rewrite Hr. simpl. done.
Qed.

Lemma update_checked w model :
  keySet w model = true → truthy (rowOf w model) = true →
  update model w = updateBody model w.
Proof.
  intros Hk Hr. unfold update, updateBody.
  unfold mbind at 1. unfold M_bind at 1. rewrite checkId_set by done.
  unfold mbind at 1. unfold M_bind at 1. unfold gets at 1.
  unfold rowOf in Hr. simpl. rewrite Hr. simpl. done.
Qed.

Lemma create_unchecked w model :
  keySet w model = false ∨ strictEq (rowOf w model) (VNum (NInt 0)) = false →
  ∃ e, create model w = (Throw e, w).
Proof.
  intros Hpre. unfold create. unfold mbind at 1. unfold M_bind at 1.
  destruct (keySet w model) eqn:Hk.
  - destruct Hpre as [|Hr]; [done|]. rewrite checkId_set by done.
    unfold mbind at 1. unfold M_bind at 1. unfold gets at 1.
    unfold rowOf in Hr. simpl. rewrite Hr. simpl.
    unfold mbind, M_bind, lift, throw.
    destruct (ToString _ _); [|by eexists].
    destruct (ToString _ _); by eexists.
  - destruct (checkId_unset w model Hk) as [e ->]. by eexists.
Qed.

Lemma update_unchecked w model :
  keySet w model = false ∨ truthy (rowOf w model) = false →
  ∃ e, update model w = (Throw e, w).
Proof.
  intros Hpre. unfold update. unfold mbind at 1. unfold M_bind at 1.
  destruct (keySet w model) eqn:Hk.
  - destruct Hpre as [|Hr]; [done|]. rewrite checkId_set by done.
    unfold mbind at 1. unfold M_bind at 1. unfold gets at 1.
    unfold rowOf in Hr. simpl. rewrite Hr. simpl.
    unfold mbind, M_bind, lift, throw.
    destruct (ToString _ _); by eexists.
  - destruct (checkId_unset w model Hk) as [e ->]. by eexists.
Qed.

(** C5: a failed create or update leaves the rows, the key index and the
    records as they were. When a check raises, nothing at all has happened;
    when the remote call raises, only the transport has moved on. The index
    is rebuilt on neither path. *)
Theorem failed_call_keeps_store w model :
  (keySet w model = false ∨ strictEq (rowOf w model) (VNum (NInt 0)) = false →
   ∃ e, create model w = (Throw e, w))
  ∧ (keySet w model = false ∨ truthy (rowOf w model) = false →
     ∃ e, update model w = (Throw e, w))
  ∧ (∀ values e t,
       keySet w model = true →
       strictEq (rowOf w model) (VNum (NInt 0)) = true →
       valuesOf (objects w) (this w) model = Ok values →
       createRow (sheets (this w)) (objects w) (TabName (name (this w)))
         (nextRow (this w)) values (remote w) = (Throw e, t) →
       create model w = (Throw e, withRemote t w))
  ∧ (∀ values e t,
       keySet w model = true →
       truthy (rowOf w model) = true →
       valuesOf (objects w) (this w) model = Ok values →
       updateRow (sheets (this w)) (objects w) (TabName (name (this w)))
         (rowOf w model) values (remote w) = (Throw e, t) →
       update model w = (Throw e, withRemote t w)).
Proof.
  split; [apply create_unchecked|]. split; [apply update_unchecked|]. split.
  - intros values e t Hk Hr Hv Hc. rewrite create_checked by done.
    unfold createBody, mbind, M_bind, gets, lift, call. simpl.
    rewrite Hv. by rewrite Hc.
  - intros values e t Hk Hr Hv Hc. rewrite update_checked by done.
    unfold updateBody, mbind, M_bind, gets, lift, call. simpl.
    rewrite Hv. by rewrite Hc.
Qed.

End Store.

Lemma find_falsy_value_witness :
  find (H := plainHost)
    {| objects := {[ 0%nat := [("row", VNum (NInt 2)); ("id", VStr "x");
                               ("count", VNum (NInt 0))] ]};
       this := withIndex {| indexProto := None; indexOwn := {[ "x" := 0%nat ]} |}
                 (storeOf [0%nat]);
       remote := {| sent := []; replies := [] |} |}
    (VNum (NInt 0)) (Some "count")
  = Ok VUndefined.
Proof. apply (find_falsy_value (H := plainHost)). reflexivity. Defined.

Lemma failed_call_keeps_store_witness :
  (∃ e, create (H := plainHost) 1%nat (oneRowWorld 2 [Reply true appended])
        = (Throw e, oneRowWorld 2 [Reply true appended]))
  ∧ (∃ e, update (H := plainHost) 0%nat (emptyStoreWorld [Reply true updated])
          = (Throw e, emptyStoreWorld [Reply true updated]))
  ∧ create (H := plainHost) 0%nat (emptyStoreWorld [Rejected])
    = (Throw TransportError,
       withRemote {| sent := [appendRequest "0" ["x"; "n"]]; replies := [] |}
         (emptyStoreWorld [Rejected]))
  ∧ update (H := plainHost) 1%nat (oneRowWorld 2 [Reply false (VStr "denied")])
    = (Throw (SheetError "denied"),
       withRemote {| sent := [updateRequest "2" ["x"; "changed"]]; replies := [] |}
         (oneRowWorld 2 [Reply false (VStr "denied")])).
Proof.
  split; [|split; [|split]].
  - apply (failed_call_keeps_store (H := plainHost)). right. reflexivity.
  - apply (failed_call_keeps_store (H := plainHost)). right. reflexivity.
  - apply (failed_call_keeps_store (H := plainHost)) with (values := ["x"; "n"]);
      reflexivity.
  - apply (failed_call_keeps_store (H := plainHost))
      with (values := ["x"; "changed"]); reflexivity.
Defined.

(** ** The key index and the linear scan *)

Section KeyIndex.
Context `{Host}.

Lemma numberEq_eq x y : numberEq x y = true → x = y.
Proof.
  destruct x, y; simpl; try done.
  - intros Hz. apply Z.eqb_eq in Hz. by subst.
  - intros Hd. apply andb_prop in Hd as [Hd He]. apply andb_prop in Hd as [Hn Hm].
    apply Bool.eqb_prop in Hn. apply Pos.eqb_eq in Hm, He. by subst.
  - intros Hb. apply Bool.eqb_prop in Hb. by subst.
Qed.

Lemma strictEq_eq a b : strictEq a b = true → a = b.
Proof.
  destruct a, b; simpl; try done;
    repeat match goal with d : date |- _ => destruct d end; try done;
    intros Hx; f_equal;
    first [ by apply Bool.eqb_prop | by apply numberEq_eq
          | by apply String.eqb_eq | by apply Nat.eqb_eq ].
Qed.

Lemma findRow_filter hp key value rs :
  findRow hp key value rs
  = head (filter (λ r, strictEq (field hp r key) value = true) rs).
Proof.
  induction rs as [|r rs IH]; [done|]. simpl. rewrite filter_cons.
  destruct (strictEq (field hp r key) value) eqn:E.
  - by rewrite decide_True.
  - by rewrite decide_False.
Qed.

Lemma findRow_app hp key value rs1 rs2 :
  findRow hp key value (rs1 ++ rs2)
  = match findRow hp key value rs1 with
    | Some r => Some r
    | None => findRow hp key value rs2
    end.
Proof.
  induction rs1 as [|r rs1 IH]; [done|]. simpl.
  by destruct (strictEq (field hp r key) value).
Qed.

(** With distinct keys at most one row matches. *)
Lemma filter_key_unique hp key value rs :
  NoDup ((λ r, field hp r key) <$> rs) →
  (length (filter (λ r, strictEq (field hp r key) value = true) rs) ≤ 1)%nat.
Proof.
  induction rs as [|r rs IH]; [simpl; lia|].
  rewrite fmap_cons, NoDup_cons. intros [Hr Hnd].
  rewrite filter_cons. destruct (decide _) as [Hm|]; [|by apply IH].
  assert (filter (λ r0, strictEq (field hp r0 key) value = true) rs = [])
    as ->; [|simpl; lia].
  destruct (filter _ rs) as [|r' l] eqn:Hf; [done|]. exfalso. apply Hr.
  assert (r' ∈ filter (λ r0, strictEq (field hp r0 key) value = true) rs)
    as Hin by (rewrite Hf; left).
  apply list_elem_of_filter in Hin as [Hm' Hin].
  apply strictEq_eq in Hm, Hm'. apply list_elem_of_fmap. exists r'.
  split; [congruence | done].
Qed.

Lemma findRow_reverse hp key value rs :
  NoDup ((λ r, field hp r key) <$> rs) →
  findRow hp key value (reverse rs) = findRow hp key value rs.
Proof.
  intros Hnd. rewrite !findRow_filter, filter_reverse.
  pose proof (filter_key_unique hp key value rs Hnd) as Hlen.
  destruct (filter _ rs) as [|r [|r' l]]; [done | done | simpl in Hlen; lia].
Qed.

Lemma filter_no_match {A} (f : A → bool) (l : list A) :
  (∀ x, x ∈ l → f x = false) → filter (λ x, f x = true) l = [].
Proof.
  induction l as [|x l IH]; [done|]. intros Hn.
  rewrite filter_cons_False.
  - apply IH. intros y Hy. apply Hn. by right.
  - rewrite Hn; [done | left].
Qed.

Lemma indexRowsFrom_ok rs w w' :
  indexRowsFrom rs w = (Ok (), w') →
  ∃ i, indexFold (objects w) (keyColumn (this w)) rs (index (this w)) = Ok i
       ∧ w' = setIndex i w.
Proof.
  revert w. induction rs as [|r rs IH]; intros w.
  - simpl. unfold mret, M_ret. intros [= <-]. exists (index (this w)).
    split; [done|]. by destruct w as [? [] ?].
  - simpl. unfold mbind, M_bind, gets, lift, setThis. simpl.
    destruct (ToString _ _) as [k|]; [|done]. simpl.
    intros Hr. apply IH in Hr as (i & Hi & ->). simpl in *.
    exists i. split; [done|]. done.
Qed.

Lemma createIndex_ok w w' :
  createIndex w = (Ok (), w') →
  ∃ i, indexFold (objects w) (keyColumn (this w)) (rows (this w)) emptyIndex
       = Ok i
       ∧ w' = setIndex i w.
Proof.
  unfold createIndex, mbind, M_bind, gets, setThis. simpl.
  intros Hr. apply indexRowsFrom_ok in Hr as (i & Hi & ->). simpl in *.
  by exists i.
Qed.

(** Over text keys the index holds, under each key, the last row with it. *)
Lemma indexFold_text hp column rs i :
  textKeys hp column rs →
  ∃ i', indexFold hp column rs i = Ok i'
        ∧ indexProto i' = indexProto i
        ∧ ∀ s, indexOwn i' !! s
               = match findRow hp column (VStr s) (reverse rs) with
                 | Some r => Some r
                 | None => indexOwn i !! s
                 end.
Proof.
  revert i. induction rs as [|r rs IH]; intros i Hkeys.
  - exists i. by repeat split.
  - destruct (Hkeys r) as (k & Hk & Hp); [left|].
    destruct (IH (indexSet k r i)) as (i' & Hi' & Hproto & Hown).
    { intros r' Hr'. apply Hkeys. by right. }
    exists i'. simpl. rewrite Hk. simpl. split; [done|].
    unfold indexSet in *. apply String.eqb_neq in Hp. rewrite Hp in *.
    split; [done|]. intros s. rewrite Hown, reverse_cons, findRow_app.
    destruct (findRow hp column (VStr s) (reverse rs)); [done|].
    simpl. rewrite Hk. simpl.
    destruct (String.eqb k s) eqn:E.
    + apply String.eqb_eq in E. subst. by rewrite lookup_insert_eq.
    + apply String.eqb_neq in E. by rewrite lookup_insert_ne.
Qed.

(** C4, as the code has it. For the key column: when the index is current
    (rebuilding it changes nothing), the rows have distinct text keys other
    than [__proto__], and the value is a non-empty string that names no
    member of [Object.prototype], the lookup through the index gives what
    the linear scan over the key column gives. For another column and a
    truthy value, [find] is the linear scan: the first row whose field
    equals the value, [undefined] when no row matches. *)
Theorem find_agrees_with_linear_scan w :
  (∀ s,
     s ≠ "" → inherited [] s = false →
     createIndex w = (Ok (), w) →
     textKeys (objects w) (keyColumn (this w)) (rows (this w)) →
     NoDup ((λ r, field (objects w) r (keyColumn (this w))) <$> rows (this w)) →
     find w (VStr s) (Some (keyColumn (this w)))
     = Ok (linearScan w (VStr s) (keyColumn (this w))))
  ∧ (∀ value column,
       truthy value = true → column ≠ "" → column ≠ keyColumn (this w) →
       find w value (Some column) = Ok (linearScan w value column)
       ∧ (∀ pre r post,
            rows (this w) = pre ++ r :: post →
            (∀ r', r' ∈ pre →
                   strictEq (field (objects w) r' column) value = false) →
            strictEq (field (objects w) r column) value = true →
            find w value (Some column) = Ok (VRef r))
       ∧ ((∀ r, r ∈ rows (this w) →
                strictEq (field (objects w) r column) value = false) →
          find w value (Some column) = Ok VUndefined)).
Proof.
  split.
  - intros s Hs Hinh Hcur Hkeys Hnd.
    apply createIndex_ok in Hcur as (i & Hi & Hw).
    destruct (indexFold_text (objects w) (keyColumn (this w)) (rows (this w))
                emptyIndex Hkeys) as (i' & Hi' & Hproto & Hown).
    rewrite Hi in Hi'. injection Hi' as <-.
    assert (index (this w) = i) as Hidx by (rewrite Hw at 1; done).
    unfold find, linearScan. simpl. apply String.eqb_neq in Hs as Hs'.
    rewrite Hs'. simpl. rewrite bool_decide_eq_true_2 by done. simpl.
    f_equal. unfold indexGet. rewrite Hidx, Hown, Hproto.
    rewrite findRow_reverse by done. rewrite findRow_filter.
    destruct (head _) as [r|]; [done|]. simpl. rewrite lookup_empty.
    unfold getProp. simpl lookupProp. cbv iota.
    destruct (String.eqb s "__proto__") eqn:E.
    { apply String.eqb_eq in E. subst. done. }
    by rewrite Hinh.
  - intros value column Hv Hc Hkc.
    assert (find w value (Some column) = Ok (linearScan w value column)) as Hf.
    { unfold find, linearScan. rewrite Hv. simpl.
      apply String.eqb_neq in Hc as ->. simpl.
      rewrite bool_decide_eq_false_2 by congruence.
      rewrite findRow_filter.
      assert ((match typeOf value with TNumber => column | _ => column end)
              = column) as -> by by destruct (typeOf value).
      by destruct (head _). }
    split; [done|]. split.
    + intros pre r post Hrows Hpre Hr. rewrite Hf. unfold linearScan.
      rewrite Hrows, filter_app, filter_cons_True by done.
      by rewrite (filter_no_match
                    (λ r0, strictEq (field (objects w) r0 column) value) pre).
    + intros Hnone. rewrite Hf. unfold linearScan.
      by rewrite (filter_no_match
                    (λ r0, strictEq (field (objects w) r0 column) value)
                    (rows (this w))).
Qed.

(** *** What create leaves of the rows *)

Lemma assignByPosition_frame model keys i vals w r w' :
  assignByPosition model keys i vals w = (r, w') →
  this w' = this w ∧ remote w' = remote w.
Proof.
  revert i w. induction vals as [|val vals IH]; intros i w.
  - simpl. unfold mret, M_ret. by intros [= <- <-].
  - simpl. unfold mbind, M_bind, gets, lift. simpl.
    destruct (typeCast _ _ _ _) as [value|e]; [|by intros [= <- <-]].
    unfold setField, setObjects. intros Hr. by apply IH in Hr.
Qed.

Lemma assignByName_frame model kvs w r w' :
  assignByName model kvs w = (r, w') →
  this w' = this w ∧ remote w' = remote w.
Proof.
  revert w. induction kvs as [|[key val] kvs IH]; intros w.
  - simpl. unfold mret, M_ret. by intros [= <- <-].
  - simpl. unfold mbind, M_bind, gets, lift, mret, M_ret. simpl.
    destruct (hasProp _ _ _).
    + destruct (typeCast _ _ _ _) as [value|e]; [|by intros [= <- <-]].
      unfold setField, setObjects. intros Hr. by apply IH in Hr.
    + intros Hr. by apply IH in Hr.
Qed.

Lemma assign_frame model values w r w' :
  assign model values w = (r, w') → this w' = this w ∧ remote w' = remote w.
Proof.
  unfold assign, mbind, M_bind, gets, mret, M_ret. simpl.
  destruct (truthy values); [|by intros [= <- <-]].
  destruct values;
    match goal with
    | |- context [assignByPosition ?m ?k ?i ?v ?w] =>
        destruct (assignByPosition m k i v w) as [[]] eqn:Hassign;
        apply assignByPosition_frame in Hassign
    | |- context [assignByName ?m ?k ?w] =>
        destruct (assignByName m k w) as [[]] eqn:Hassign;
        apply assignByName_frame in Hassign
    end; by intros [= <- <-].
Qed.

(** A successful [create] leaves the rows list as it was, and the index is
    the one of these rows: the created record is in the index only if it
    was a row already. On a store without rows the index stays empty. *)
Lemma create_keeps_rows w model m w' :
  create model w = (Ok m, w') →
  rows (this w') = rows (this w)
  ∧ indexFold (objects w') (keyColumn (this w)) (rows (this w)) emptyIndex
    = Ok (index (this w'))
  ∧ (rows (this w) = [] → index (this w') = emptyIndex).
Proof.
  intros Hc.
  assert (rows (this w') = rows (this w)
          ∧ indexFold (objects w') (keyColumn (this w)) (rows (this w))
              emptyIndex = Ok (index (this w'))) as [Hrows Hfold].
  { destruct (keySet w model) eqn:Hk.
    2:{ destruct (create_unchecked w model) as [e He]; [by left|]. congruence. }
    destruct (strictEq (rowOf w model) (VNum (NInt 0))) eqn:Hr.
    2:{ destruct (create_unchecked w model) as [e He]; [by right|]. congruence. }
    rewrite create_checked in Hc by done.
    unfold createBody, mbind, M_bind, gets, lift, call, mret, M_ret in Hc.
    simpl in Hc.
    destruct (valuesOf _ _ _) as [values|]; [|done].
    destruct (createRow _ _ _ _ _ _) as [[result|] t]; [|done].
    destruct (assign model result _) as [[m1|] w1] eqn:Hassign; [|done].
    apply assign_frame in Hassign as [Hthis _]. simpl in Hthis.
    destruct (createIndex w1) as [[[]|] w2] eqn:Hindex; [|done].
    injection Hc as <- <-.
    apply createIndex_ok in Hindex as (i & Hi & ->). simpl.
    rewrite Hthis in Hi. by rewrite Hthis. }
  split; [done|]. split; [done|].
  intros Hnil. rewrite Hnil in Hfold. simpl in Hfold. congruence.
Qed.

End KeyIndex.

Lemma find_agrees_with_linear_scan_witness :
  find (H := plainHost) (oneRowWorld 2 []) (VStr "x") (Some "id")
  = Ok (linearScan (oneRowWorld 2 []) (VStr "x") "id")
  ∧ find (H := plainHost) (oneRowWorld 2 []) (VStr "n") (Some "name")
    = Ok (linearScan (oneRowWorld 2 []) (VStr "n") "name").
Proof.
  destruct (find_agrees_with_linear_scan (H := plainHost) (oneRowWorld 2 []))
    as [Hkey Hother].
  split.
  - apply (Hkey "x").
    + discriminate.
    + reflexivity.
    + reflexivity.
    + intros r Hr. apply list_elem_of_singleton in Hr as ->.
      exists "x". split; [reflexivity | discriminate].
    + apply NoDup_singleton.
  - apply (Hother (VStr "n") "name"); [reflexivity | discriminate..].
Defined.

(** C4 as stated fails in these ways, each on a store whose index is
    current. With a key held by two rows the index gives the last of them
    and the scan the first; a number is found through the index under its
    text, and by the scan not at all; a zero held by a row is not found by
    [find], and is by the scan; the name of a member of [Object.prototype]
    finds that member in the index; and with a row of key [__proto__] for
    its prototype, the index answers with the fields of that row. *)
Lemma find_differs_from_linear_scan :
  let dup := twoRowsWorld "k" "k" (ownIndex {[ "k" := 1%nat ]}) in
  let num := twoRowsWorld "1" "2" (ownIndex {[ "1" := 0%nat; "2" := 1%nat ]}) in
  let proto := twoRowsWorld "__proto__" "2"
                 {| indexProto := Some 0%nat; indexOwn := {[ "2" := 1%nat ]} |} in
  (createIndex (H := plainHost) dup = (Ok (), dup)
   ∧ find (H := plainHost) dup (VStr "k") (Some "id") = Ok (VRef 1%nat)
   ∧ linearScan dup (VStr "k") "id" = VRef 0%nat)
  ∧ (createIndex (H := plainHost) num = (Ok (), num)
     ∧ find (H := plainHost) num (VNum (NInt 1)) (Some "id") = Ok (VRef 0%nat)
     ∧ linearScan num (VNum (NInt 1)) "id" = VUndefined)
  ∧ (createIndex (H := plainHost) countWorld = (Ok (), countWorld)
     ∧ find (H := plainHost) countWorld (VNum (NInt 0)) (Some "count")
       = Ok VUndefined
     ∧ linearScan countWorld (VNum (NInt 0)) "count" = VRef 0%nat)
  ∧ (find (H := plainHost) num (VStr "toString") (Some "id")
     = Ok (VFun "toString")
     ∧ linearScan num (VStr "toString") "id" = VUndefined)
  ∧ (createIndex (H := plainHost) proto = (Ok (), proto)
     ∧ find (H := plainHost) proto (VStr "name") (Some "id") = Ok (VStr "a")
     ∧ linearScan proto (VStr "name") "id" = VUndefined).
Proof. repeat split; vm_compute; reflexivity. Qed.

(** *** The scenarios of create and update *)

(** C1 at its scenario: on the empty store, [create] of
    [{row: 0, id: "x", name: "n"}] sends the append for position 0 with the
    values [["x"; "n"]] and assigns the response to the record; the index
    is rebuilt from the rows, which the record is not among, and stays
    empty: the key "x" is not found. *)
Theorem create_on_empty_store_leaves_index_empty :
  let echo := VObj [("name", VStr "N");
                    ("updates", VObj [("updatedRanges", VStr "people!A1:B1")])] in
  let after :=
    {| objects := {[ 0%nat := person 0 "x" "N" ]};
       this := storeOf [];
       remote := {| sent := [appendRequest "0" ["x"; "n"]]; replies := [] |} |} in
  create (H := plainHost) 0%nat (emptyStoreWorld [Reply true echo])
  = (Ok 0%nat, after)
  ∧ index (this after) = emptyIndex
  ∧ find (H := plainHost) after (VStr "x") (Some "id") = Ok VUndefined
  ∧ find (H := plainHost) after (VStr "x") None = Ok VUndefined.
Proof. repeat split; vm_compute; reflexivity. Qed.

(** C2 at its scenario: the store holds one row, at position 2 of the
    sheet; [update] of [{row: 2, id: "x", name: "changed"}] sends the
    update for row 2 with the values [["x"; "changed"]], then reads
    [rows[2]] of a list of one and raises a TypeError: the stored row and
    the index are as before. On a store of three rows the same update, of
    the row with key "a" at position 2, assigns the response to [rows[2]],
    the row with key "c" at position 4, and returns that row. *)
Theorem update_reads_rows_at_sheet_position :
  (update (H := plainHost) 1%nat (oneRowWorld 2 [Reply true updated])
   = (Throw TypeError,
      withRemote {| sent := [updateRequest "2" ["x"; "changed"]]; replies := [] |}
        (oneRowWorld 2 [Reply true updated]))
   ∧ rows (this (oneRowWorld 2 [Reply true updated])) !! 2%nat = None)
  ∧ (let echo := VObj [("name", VStr "changed")] in
     ∃ after,
       update (H := plainHost) 3%nat (threeRowsWorld [Reply true echo])
       = (Ok (VRef 2%nat), after)
       ∧ sent (remote after) = [updateRequest "2" ["a"; "changed"]]
       ∧ objects after !! 0%nat = Some (person 2 "a" "n")
       ∧ objects after !! 2%nat = Some (person 4 "c" "changed")).
Proof.
  split; [repeat split; vm_compute; reflexivity|].
  eexists. split; [vm_compute; reflexivity|]. repeat split.
Qed.

(** C8 at a negative row: the check of [update] lets [row = -1] through
    and the update request is sent for row -1; the checks of [create] and
    the check of [update] on a zero row raise as claimed. *)
Theorem update_check_passes_negative_row :
  update (H := plainHost) 1%nat (oneRowWorld (-1) [Reply true updated])
  = (Throw TypeError,
     withRemote {| sent := [updateRequest "-1" ["x"; "changed"]]; replies := [] |}
       (oneRowWorld (-1) [Reply true updated]))
  ∧ update (H := plainHost) 1%nat (oneRowWorld 0 [Reply true updated])
    = (Throw (SheetError (dq +:+ "x" +:+ dq +:+ " row must be > 0 to update")),
       oneRowWorld 0 [Reply true updated])
  ∧ create (H := plainHost) 1%nat (oneRowWorld (-1) [Reply true appended])
    = (Throw (SheetError (dq +:+ "x" +:+ dq
                            +:+ " row must be 0, not -1 to create")),
       oneRowWorld (-1) [Reply true appended]).
Proof. repeat split; vm_compute; reflexivity. Qed.

(** ** The text of numbers and dates *)

Section Digits.

Lemma digitVal_digitChar q : 0 <= q <= 9 → digitVal (digitChar q) = Some q.
Proof.
  intros Hq.
  assert (q = 0 ∨ q = 1 ∨ q = 2 ∨ q = 3 ∨ q = 4 ∨ q = 5 ∨ q = 6 ∨ q = 7
          ∨ q = 8 ∨ q = 9) as Hc by lia.
  repeat destruct Hc as [->|Hc]; try reflexivity. by subst.
Qed.

Lemma isDigit_code c :
  isDigit c = true ↔ 48 <= Z.of_nat (nat_of_ascii c) <= 57.
Proof.
  unfold isDigit, digitVal.
  destruct (Z.leb_spec 48 (Z.of_nat (nat_of_ascii c)));
    destruct (Z.leb_spec (Z.of_nat (nat_of_ascii c)) 57); simpl;
    split; (done || lia).
Qed.

Lemma isDigit_digitChar q : isDigit (digitChar q) = true.
Proof.
  assert (digitChar q = digitChar (Z.min (Z.max q 0) 9)) as ->.
  { unfold digitChar. do 2 f_equal. lia. }
  unfold isDigit. by rewrite digitVal_digitChar by lia.
Qed.

(** A digit is none of the other characters the parsers look for. *)
Lemma digit_eqb c x : isDigit c = true → isDigit x = false → Ascii.eqb c x = false.
Proof.
  intros Hc Hx. destruct (Ascii.eqb_spec c x) as [->|]; [congruence | done].
Qed.

Lemma readDigits_pad k n acc rest :
  0 <= n < 10 ^ Z.of_nat k →
  readDigits k acc (padDigits k n ++ rest) = Some (acc * 10 ^ Z.of_nat k + n, rest).
Proof.
  revert n acc. induction k as [|k IH]; intros n acc Hn.
  - simpl in *. f_equal. f_equal. lia.
  - rewrite Nat2Z.inj_succ, Z.pow_succ_r in Hn by lia.
    assert (0 < 10 ^ Z.of_nat k) by (apply Z.pow_pos_nonneg; lia).
    cbn [padDigits readDigits app].
    rewrite digitVal_digitChar.
    + rewrite IH by (apply Z.mod_pos_bound; lia). f_equal. f_equal.
      rewrite Nat2Z.inj_succ, Z.pow_succ_r by lia.
      pose proof (Z.div_mod n (10 ^ Z.of_nat k)). lia.
    + split; [apply Z.div_pos; lia|].
      assert (n / 10 ^ Z.of_nat k < 10); [|lia].
      apply Z.div_lt_upper_bound; lia.
Qed.

Lemma expect_cons c l : expect c (c :: l) = Some l.
Proof. unfold expect. by rewrite Ascii.eqb_refl. Qed.

End Digits.

Section Calendar.

Lemma yearFromDay_spec d :
  DayFromYear (yearFromDay d) <= d < DayFromYear (yearFromDay d + 1).
Proof.
  unfold yearFromDay, DayFromYear.
  repeat match goal with |- context [Z.leb ?a ?b] => destruct (Z.leb_spec a b) end;
  repeat match goal with |- context [Z.ltb ?a ?b] => destruct (Z.ltb_spec a b) end;
  Z.div_mod_to_equations; lia.
Qed.

Lemma DayFromYear_succ y : DayFromYear (y + 1) = DayFromYear y + DaysInYear y.
Proof.
  unfold DayFromYear, DaysInYear, InLeapYear.
  destruct (Z.eqb_spec (y mod 4) 0); destruct (Z.eqb_spec (y mod 100) 0);
    destruct (Z.eqb_spec (y mod 400) 0); simpl;
    Z.div_mod_to_equations; lia.
Qed.

Lemma monthOfDay_spec (leap : bool) dw :
  0 <= dw < (if leap then 366 else 365) →
  0 <= monthOfDay leap dw <= 11
  ∧ daysBeforeMonth leap (monthOfDay leap dw) <= dw
    < daysBeforeMonth leap (monthOfDay leap dw + 1).
Proof.
  intros Hdw. unfold monthOfDay.
  repeat match goal with
         | |- context [Z.ltb ?a ?b] => destruct (Z.ltb_spec a b)
         end; destruct leap; simpl in *; lia.
Qed.

Lemma year_range t :
  - maxTime <= t <= maxTime → -271821 <= YearFromTime t <= 275760.
Proof.
  intros Ht. unfold YearFromTime.
  pose proof (yearFromDay_spec (Day t)) as Hy.
  assert (-100000000 <= Day t <= 100000000) as Hd.
  { unfold Day, msPerDay, maxTime in *. Z.div_mod_to_equations. lia. }
  unfold DayFromYear in Hy. Z.div_mod_to_equations. lia.
Qed.

End Calendar.

Section IsoText.

Lemma readYear_text y rest :
  -999999 <= y <= 999999 →
  readYear (yearText y ++ rest)
  = Some ((y <? 0), Z.abs y, rest).
Proof.
  intros Hy. unfold yearText.
  destruct (Z.leb_spec 0 y); destruct (Z.leb_spec y 9999); simpl andb; cbv iota.
  - assert (∃ c l, padDigits 4 y ++ rest = c :: l ∧ isDigit c = true)
      as (c & l & Heq & Hc).
    { eexists _, _. split; [reflexivity | apply isDigit_digitChar]. }
    rewrite Heq. unfold readYear. rewrite !digit_eqb by done. rewrite <- Heq.
    rewrite readDigits_pad by (simpl; lia). simpl.
    destruct (Z.ltb_spec y 0); [lia|]. do 3 f_equal. lia.
  - destruct (Z.ltb_spec y 0); [lia|]. unfold readYear.
    rewrite <- app_comm_cons. cbv beta iota.
    rewrite Ascii.eqb_refl. rewrite readDigits_pad by (simpl; lia). simpl.
    done.
  - destruct (Z.ltb_spec y 0); [|lia]. unfold readYear.
    rewrite <- app_comm_cons. cbv beta iota.
    change (Ascii.eqb "-" "+") with false. cbv iota. rewrite Ascii.eqb_refl.
    rewrite readDigits_pad by (simpl; lia). simpl. done.
  - lia.
Qed.

Lemma time_fields tw :
  0 <= tw < msPerDay →
  0 <= tw / 3600000 <= 23 ∧ 0 <= tw / 60000 mod 60 <= 59
  ∧ 0 <= tw / 1000 mod 60 <= 59 ∧ 0 <= tw mod 1000 <= 999
  ∧ MakeTime (tw / 3600000) (tw / 60000 mod 60) (tw / 1000 mod 60) (tw mod 1000)
    = tw.
Proof.
  unfold msPerDay, MakeTime. intros Htw. Z.div_mod_to_equations. lia.
Qed.

Lemma iso_roundtrip t :
  - maxTime <= t <= maxTime →
  ∃ f, readIso (isoText t) = Some f ∧ isoTime f = Some t.
Proof.
  intros Ht.
  pose proof (year_range t Ht) as Hy.
  pose proof (yearFromDay_spec (Day t)) as Hbr.
  rewrite DayFromYear_succ in Hbr. fold (YearFromTime t) in Hbr.
  assert (0 <= DayWithinYear t
          < if InLeapYear (YearFromTime t) then 366 else 365) as Hdw.
  { unfold DayWithinYear, DaysInYear in *. lia. }
  pose proof (monthOfDay_spec _ _ Hdw) as (Hm & Hmb).
  fold (MonthFromTime t) in Hm, Hmb.
  assert (0 <= TimeWithinDay t < msPerDay) as Htw.
  { unfold TimeWithinDay. apply Z.mod_pos_bound. done. }
  pose proof (time_fields _ Htw) as (Hh & Hmi & Hs & Hms & Hmk).
  fold (HourFromTime t) in Hh, Hmk. fold (MinFromTime t) in Hmi, Hmk.
  fold (SecFromTime t) in Hs, Hmk. fold (msFromTime t) in Hms, Hmk.
  assert (1 <= DateFromTime t
          <= DaysInMonth (InLeapYear (YearFromTime t)) (MonthFromTime t)) as Hd.
  { unfold DateFromTime, DaysInMonth. lia. }
  assert (DaysInMonth (InLeapYear (YearFromTime t)) (MonthFromTime t) <= 31)
    as Hd31.
  { unfold DaysInMonth.
    assert (MonthFromTime t = 0 ∨ MonthFromTime t = 1 ∨ MonthFromTime t = 2
            ∨ MonthFromTime t = 3 ∨ MonthFromTime t = 4 ∨ MonthFromTime t = 5
            ∨ MonthFromTime t = 6 ∨ MonthFromTime t = 7 ∨ MonthFromTime t = 8
            ∨ MonthFromTime t = 9 ∨ MonthFromTime t = 10 ∨ MonthFromTime t = 11)
      as Hc by lia.
    destruct (InLeapYear (YearFromTime t));
      repeat destruct Hc as [->|Hc]; try rewrite Hc; simpl; lia. }
  eexists. split.
  - unfold readIso, isoText.
    rewrite readYear_text by lia. cbn [mbind option_bind].
    rewrite expect_cons. cbn [mbind option_bind].
    rewrite readDigits_pad by (simpl; lia). cbn [mbind option_bind].
    rewrite expect_cons. cbn [mbind option_bind].
    rewrite readDigits_pad by (simpl; lia). cbn [mbind option_bind].
    rewrite expect_cons. cbn [mbind option_bind].
    rewrite readDigits_pad by (simpl; lia). cbn [mbind option_bind].
    rewrite expect_cons. cbn [mbind option_bind].
    rewrite readDigits_pad by (simpl; lia). cbn [mbind option_bind].
    rewrite expect_cons. cbn [mbind option_bind].
    rewrite readDigits_pad by (simpl; lia). cbn [mbind option_bind].
    rewrite expect_cons. cbn [mbind option_bind].
    rewrite readDigits_pad by (simpl; lia). cbn [mbind option_bind].
    rewrite expect_cons. cbn [mbind option_bind].
    reflexivity.
  - unfold isoTime, isoLegal. cbn [isoNeg isoYear isoMonth isoDay isoHour isoMin
                                   isoSec isoMs].
    assert ((if YearFromTime t <? 0 then - Z.abs (YearFromTime t)
             else Z.abs (YearFromTime t)) = YearFromTime t) as ->.
    { destruct (Z.ltb_spec (YearFromTime t) 0); lia. }
    replace (0 * 10 ^ Z.of_nat 2 + (MonthFromTime t + 1) - 1)
      with (MonthFromTime t) by lia.
    assert (((YearFromTime t <? 0) && (Z.abs (YearFromTime t) =? 0)) = false)
      as ->.
    { destruct (Z.ltb_spec (YearFromTime t) 0); [|done].
      destruct (Z.eqb_spec (Z.abs (YearFromTime t)) 0); [lia | done]. }
    repeat match goal with
           | |- context [Z.leb ?a ?b] =>
               destruct (Z.leb_spec a b); [|simpl in *; lia]
           end.
    simpl andb. cbv iota.
    unfold TimeClip.
    match goal with
    | |- context [MakeDate ?a ?b] => replace (MakeDate a b) with t
    end.
    + destruct (Z.leb_spec (Z.abs t) maxTime); [done | lia].
    + unfold MakeDate, MakeDay. simpl Z.of_nat. rewrite !Z.mul_0_l, !Z.add_0_l.
      rewrite Hmk. unfold DateFromTime, DayWithinYear, TimeWithinDay, Day.
      pose proof (Z.div_mod t msPerDay). unfold msPerDay in *. lia.
Qed.

End IsoText.

Section NumberText.

Lemma text_str l : text (str l) = l.
Proof. apply list_ascii_of_string_of_list_ascii. Qed.

Lemma uintText_digits d : forallb isDigit (uintText d) = true.
Proof. unfold uintText. induction d; simpl; done. Qed.

Lemma digitsValue_acc d p :
  digitsValue (Z.pos p) (uintText d) = Z.pos (Pos.of_uint_acc d p).
Proof.
  unfold uintText. revert p.
  induction d as [|d IH|d IH|d IH|d IH|d IH|d IH|d IH|d IH|d IH|d IH];
    intros p; [done|..]; cbn [NilEmpty.string_of_uint text list_ascii_of_string
                               digitsValue Pos.of_uint_acc];
    rewrite <- IH; f_equal.
  all: vm_compute digitVal; cbn [default]; unfold id; lia.
Qed.

Lemma digitsValue_uint d : digitsValue 0 (uintText d) = Z.of_N (Pos.of_uint d).
Proof.
  induction d as [|d IH|d IH|d IH|d IH|d IH|d IH|d IH|d IH|d IH|d IH];
    [done|apply IH|..];
    cbn [Pos.of_uint]; rewrite N2Z.inj_pos, <- digitsValue_acc; done.
Qed.

Lemma digitsOf_value n : digitsValue 0 (digitsOf n) = Z.of_N n.
Proof.
  unfold digitsOf. fold (uintText (N.to_uint n)).
  rewrite digitsValue_uint. f_equal. apply DecimalN.Unsigned.of_to.
Qed.

Lemma digitsOf_digits n : forallb isDigit (digitsOf n) = true.
Proof. apply uintText_digits. Qed.

(** The digits of a positive number start with a digit other than zero. *)
Lemma digitsOf_pos p :
  ∃ c l, digitsOf (Npos p) = c :: l ∧ isDigit c = true
         ∧ Ascii.eqb c "0" = false ∧ forallb isDigit l = true.
Proof.
  pose proof (digitsOf_digits (Npos p)) as Hd. unfold digitsOf in *.
  simpl N.to_uint in *.
  pose proof (DecimalPos.Unsigned.to_of (Pos.to_uint p)) as Hn.
  rewrite DecimalPos.Unsigned.of_to in Hn. simpl N.to_uint in Hn.
  pose proof (DecimalPos.Unsigned.to_uint_nonzero p) as Hz.
  rewrite unorm_nzhead in Hn.
  2:{ intros Hnil. apply Hz. rewrite Hn. by apply unorm_0. }
  pose proof (nzhead_nonzero (Pos.to_uint p)) as Hh. rewrite <- Hn in Hh.
  pose proof (DecimalPos.Unsigned.to_uint_nonnil p) as Hnn.
  destruct (Pos.to_uint p) as [|d|d|d|d|d|d|d|d|d|d];
    [done | by destruct (Hh d) | ..];
    eexists _, _; (split; [reflexivity|]);
    simpl in Hd; (split; [done|]); (split; [done|]); exact Hd.
Qed.

Lemma digitsOf_nonempty n : digitsOf n ≠ [].
Proof.
  destruct n as [|p]; [done|].
  destruct (digitsOf_pos p) as (c & l & -> & _). done.
Qed.

Lemma spanDigits_app ds rest :
  forallb isDigit ds = true →
  match rest with [] => True | c :: _ => isDigit c = false end →
  spanDigits (ds ++ rest) = (ds, rest).
Proof.
  intros Hds Hrest. induction ds as [|d ds IH]; simpl.
  - destruct rest as [|c rest]; [done|]. simpl. by rewrite Hrest.
  - simpl in Hds. apply andb_prop in Hds as [Hd Hds]. rewrite Hd.
    by rewrite IH.
Qed.

Lemma spanDigits_all ds : forallb isDigit ds = true → spanDigits ds = (ds, []).
Proof.
  intros Hds. rewrite <- (app_nil_r ds) at 1. by apply spanDigits_app.
Qed.

Lemma digitsValue_app acc a b :
  digitsValue acc (a ++ b) = digitsValue (digitsValue acc a) b.
Proof. revert acc. induction a as [|c a IH]; intros acc; [done|]. apply IH. Qed.

Lemma digitsValue_zeros acc j :
  digitsValue acc (replicate j "0"%char) = acc * 10 ^ Z.of_nat j.
Proof.
  revert acc. induction j as [|j IH]; intros acc.
  - simpl. lia.
  - cbn [replicate digitsValue]. rewrite IH.
    change (default 0 (digitVal "0")) with 0.
    rewrite Nat2Z.inj_succ, Z.pow_succ_r by lia. lia.
Qed.

Lemma dropZeros_spec l : ∃ j, l = replicate j "0"%char ++ dropZeros l.
Proof.
  induction l as [|c l [j IH]]; [by exists 0%nat|]. simpl.
  destruct (Ascii.eqb_spec c "0") as [->|].
  - exists (S j). simpl. by rewrite <- IH.
  - by exists 0%nat.
Qed.

Lemma dropZeros_snoc l c :
  Ascii.eqb c "0" = false → ∃ l', dropZeros (l ++ [c]) = l' ++ [c].
Proof.
  intros Hc. induction l as [|d l [l' IH]]; simpl.
  - rewrite Hc. by exists [].
  - destruct (Ascii.eqb d "0"); [by exists l'|]. by exists (d :: l).
Qed.

(** A digit sequence that starts with a digit other than zero is its
    significant digits followed by zeros. *)
Lemma dropZerosEnd_spec c l :
  Ascii.eqb c "0" = false →
  ∃ l' j, dropZerosEnd (c :: l) = c :: l'
          ∧ c :: l = (c :: l') ++ replicate j "0"%char.
Proof.
  intros Hc. unfold dropZerosEnd.
  destruct (dropZeros_spec (reverse (c :: l))) as [j Hj].
  rewrite reverse_cons in Hj |- *.
  destruct (dropZeros_snoc (reverse l) c Hc) as [m Hm].
  rewrite Hm in Hj |- *. rewrite reverse_snoc.
  exists (reverse m), j. split; [done|].
  apply (f_equal reverse) in Hj.
  rewrite !reverse_app, !reverse_singleton, reverse_involutive,
    reverse_replicate in Hj.
  simpl in Hj. done.
Qed.

End NumberText.

Section NumberParse.

Lemma digit_not_space c : isDigit c = true → isSpace c = false.
Proof.
  rewrite isDigit_code. unfold isSpace. intros Hc.
  destruct (Z.leb_spec 9 (Z.of_nat (nat_of_ascii c)));
    destruct (Z.leb_spec (Z.of_nat (nat_of_ascii c)) 13);
    destruct (Z.eqb_spec (Z.of_nat (nat_of_ascii c)) 32); simpl; lia.
Qed.

Lemma readSign_digit c l : isDigit c = true → readSign (c :: l) = (false, c :: l).
Proof. intros Hc. unfold readSign. by rewrite !digit_eqb. Qed.

Lemma readSign_text neg c l :
  isDigit c = true → readSign (signText neg ++ c :: l) = (neg, c :: l).
Proof. intros Hc. destruct neg; [done|]. by apply readSign_digit. Qed.

Lemma skipSpaces_text neg c l :
  isDigit c = true →
  skipSpaces (signText neg ++ c :: l) = signText neg ++ c :: l.
Proof.
  intros Hc. destruct neg; [done|]. simpl. by rewrite digit_not_space.
Qed.

Lemma startsWith_digit c l :
  isDigit c = true → startsWith (text "Infinity") (c :: l) = false.
Proof.
  intros Hc. unfold startsWith. apply bool_decide_eq_false.
  simpl. intros [= -> _]. done.
Qed.

Lemma readExponent_text ex : readExponent (exponentText ex) = ex.
Proof.
  unfold exponentText, readExponent.
  change (Ascii.eqb "e" "e" || Ascii.eqb "e" "E") with true. cbv iota.
  pose proof (digitsOf_digits (Z.to_N (Z.abs ex))) as Hd.
  pose proof (digitsOf_nonempty (Z.to_N (Z.abs ex))) as Hn.
  pose proof (digitsOf_value (Z.to_N (Z.abs ex))) as Hv.
  destruct (Z.ltb_spec ex 0).
  - change (readSign ("-"%char :: digitsOf (Z.to_N (Z.abs ex))))
      with (true, digitsOf (Z.to_N (Z.abs ex))).
    cbv iota beta. rewrite spanDigits_all by done.
    destruct (digitsOf _); [done|]. rewrite Hv. lia.
  - change (readSign ("+"%char :: digitsOf (Z.to_N (Z.abs ex))))
      with (false, digitsOf (Z.to_N (Z.abs ex))).
    cbv iota beta. rewrite spanDigits_all by done.
    destruct (digitsOf _); [done|]. rewrite Hv. lia.
Qed.

Lemma mkNumber_int neg m e :
  0 < m → 0 <= e →
  mkNumber neg m e = NInt ((if neg then -1 else 1) * (m * 10 ^ e)).
Proof.
  intros Hm He. unfold mkNumber.
  destruct (Z.leb_spec m 0); [lia|]. by destruct (Z.leb_spec 0 e); [|lia].
Qed.

Lemma mkNumber_dec neg m e :
  wfNumber (NDec neg m e) = true →
  mkNumber neg (Z.pos m) (- Z.pos e) = NDec neg m e.
Proof.
  simpl. intros Hwf. unfold mkNumber.
  change (Z.pos m <=? 0) with false. change (0 <=? - Z.pos e) with false.
  cbv iota. rewrite Z.opp_involutive, Z2Nat.inj_pos.
  destruct (Pos2Nat.is_succ e) as [f Hf]. rewrite Hf. simpl.
  apply negb_true_iff in Hwf. rewrite Hwf. f_equal.
  rewrite Pos.of_nat_succ, <- Hf. apply Pos2Nat.id.
Qed.

Lemma parseFloat_shape neg c ip fp tail ex :
  isDigit c = true → forallb isDigit ip = true → forallb isDigit fp = true →
  (tail = [] ∧ ex = 0) ∨ tail = exponentText ex →
  parseFloatText (signText neg ++ (c :: ip) ++ fractionText fp ++ tail)
  = mkNumber neg (digitsValue 0 ((c :: ip) ++ fp)) (ex - Z.of_nat (length fp)).
Proof.
  intros Hc Hip Hfp Htail. unfold parseFloatText.
  rewrite <- app_comm_cons, skipSpaces_text, readSign_text by done.
  rewrite startsWith_digit by done.
  assert (readExponent tail = ex) as Hex.
  { destruct Htail as [[-> ->]| ->]; [done | apply readExponent_text]. }
  assert (match tail with [] => True | x :: _ => isDigit x = false end) as Ht.
  { destruct Htail as [[-> ->]| ->]; done. }
  assert (match tail with [] => True | x :: _ => Ascii.eqb x "." = false end)
    as Ht'.
  { destruct Htail as [[-> ->]| ->]; done. }
  rewrite app_comm_cons, spanDigits_app.
  2:{ simpl. by rewrite Hc. }
  2:{ destruct fp; [done | done]. }
  destruct fp as [|f fp].
  - rewrite app_nil_r. change (fractionText [] ++ tail) with tail.
    destruct tail as [|x tail].
    + by rewrite Hex, ?app_nil_r.
    + by rewrite Ht', Hex, ?app_nil_r.
  - simpl fractionText. rewrite <- app_comm_cons.
    change (Ascii.eqb "." ".") with true. cbv iota.
    rewrite spanDigits_app by done. cbv iota beta.
    rewrite Hex. done.
Qed.

End NumberParse.

Section NumberRoundTrip.

Lemma isInt_digits neg c l :
  isDigit c = true → Ascii.eqb c "0" = false → forallb isDigit l = true →
  isIntText (signText neg ++ c :: l) = true.
Proof.
  intros Hc Hz Hl. unfold isIntText. rewrite readSign_text by done. simpl.
  rewrite Hc, Hz, Hl. apply orb_true_r.
Qed.

Lemma isInt_other neg c l :
  isDigit c = true → forallb isDigit l = false →
  isIntText (signText neg ++ c :: l) = false.
Proof.
  intros Hc Hl. unfold isIntText. rewrite readSign_text by done. simpl.
  rewrite Hl, andb_false_r, orb_false_r. apply bool_decide_eq_false.
  destruct neg; simpl; [done|]. intros [= -> ->]. done.
Qed.

Lemma parseInt_digits neg c l :
  isDigit c = true → forallb isDigit l = true →
  parseIntText (signText neg ++ c :: l) = mkNumber neg (digitsValue 0 (c :: l)) 0.
Proof.
  intros Hc Hl. unfold parseIntText.
  rewrite skipSpaces_text, readSign_text by done.
  rewrite spanDigits_all; [done|]. simpl. by rewrite Hc.
Qed.

Lemma digits_with_point a b :
  forallb isDigit (a ++ "."%char :: b) = false.
Proof. rewrite forallb_app. simpl. apply andb_false_r. Qed.

(** The exponential form of [Number::toString]. *)
Lemma exponential_text neg c l n :
  isDigit c = true → forallb isDigit l = true →
  let t := signText neg
             ++ match l with
                | [] => c :: exponentText (n - 1)
                | _ => c :: "."%char :: l ++ exponentText (n - 1)
                end in
  numberOfText t
  = mkNumber neg (digitsValue 0 (c :: l)) (n - 1 - Z.of_nat (length l)).
Proof.
  intros Hc Hl t. unfold numberOfText, t.
  destruct l as [|d l].
  - rewrite isInt_other by done.
    pose proof (parseFloat_shape neg c [] [] (exponentText (n - 1)) (n - 1)
                  Hc eq_refl eq_refl (or_intror eq_refl)) as Hs.
    cbn [app fractionText] in Hs |- *. by rewrite Hs.
  - rewrite isInt_other by done.
    pose proof (parseFloat_shape neg c [] (d :: l) (exponentText (n - 1)) (n - 1)
                  Hc eq_refl Hl (or_intror eq_refl)) as Hs.
    cbn [app fractionText] in Hs |- *. by rewrite Hs.
Qed.

Lemma take_drop_digits (ds : chars) i :
  forallb isDigit ds = true →
  forallb isDigit (take i ds) = true ∧ forallb isDigit (drop i ds) = true.
Proof.
  intros Hds. rewrite <- (take_drop i ds), forallb_app in Hds.
  by apply andb_prop in Hds.
Qed.

Theorem number_text_round_trip x :
  wfNumber x = true → numberOfText (numberText x) = x.
Proof.
  intros Hwf. destruct x as [z|neg m e| |neg].
  - (* integers *)
    destruct z as [|p|p]; [done|..].
    + destruct (digitsOf_pos p) as (c & l & Hds & Hc & Hz & Hl).
      destruct (dropZerosEnd_spec c l Hz) as (l' & j & Hdrop & Hsplit).
      pose proof (digitsOf_value (Npos p)) as Hv. simpl Z.of_N in Hv.
      assert (forallb isDigit l' = true) as Hl'.
      { assert (forallb isDigit (c :: l) = true) as Hall by (simpl; by rewrite Hc).
        rewrite Hsplit, forallb_app in Hall. simpl in Hall.
        apply andb_prop in Hall as [Hall _]. by apply andb_prop in Hall as [_ ?]. }
      unfold numberText. change (Z.to_N (Z.abs (Z.pos p))) with (N.pos p).
      rewrite Hds, Hdrop.
      change (Z.pos p <? 0) with false. unfold renderDigits.
      assert (Z.of_nat (length (c :: l)) = Z.of_nat (length (c :: l')) + Z.of_nat j)
        as Hlen.
      { rewrite Hsplit at 1. rewrite length_app, length_replicate. lia. }
      destruct (Z.leb_spec (Z.of_nat (length (c :: l'))) (Z.of_nat (length (c :: l))));
        [|lia].
      destruct (Z.leb_spec (Z.of_nat (length (c :: l))) 21); simpl andb; cbv iota.
      * replace (Z.to_nat (Z.of_nat (length (c :: l)) - Z.of_nat (length (c :: l'))))
          with j by lia.
        rewrite <- Hsplit. unfold numberOfText.
        rewrite isInt_digits, parseInt_digits by done.
        rewrite <- Hds, Hv. rewrite mkNumber_int by lia. f_equal. lia.
      * destruct (Z.ltb_spec 0 (Z.of_nat (length (c :: l)))); [|simpl in *; lia].
        simpl andb. cbv iota.
        destruct (Z.ltb_spec (-6) (Z.of_nat (length (c :: l))));
          destruct (Z.leb_spec (Z.of_nat (length (c :: l))) 0); try lia.
        simpl andb. cbv iota.
        pose proof (exponential_text false c l' (Z.of_nat (length (c :: l))) Hc Hl')
          as Hexp.
        cbv zeta in Hexp.
        assert (numberOfText
                  (signText false ++
                   match l' with
                   | [] => c :: exponentText (Z.of_nat (length (c :: l)) - 1)
                   | _ :: _ => c :: "."%char :: l'
                                 ++ exponentText (Z.of_nat (length (c :: l)) - 1)
                   end) = NInt (Z.pos p)) as Hgoal.
        { rewrite Hexp. rewrite mkNumber_int.
          - f_equal. rewrite <- Hv, Hds, Hsplit, digitsValue_app, digitsValue_zeros.
            simpl length in *. rewrite ?length_app, ?length_replicate.
            rewrite Z.mul_1_l. do 2 f_equal. lia.
          - assert (0 < digitsValue 0 ((c :: l') ++ replicate j "0"%char)) as Hp.
            { rewrite <- Hsplit, <- Hds, Hv. lia. }
            rewrite digitsValue_app, digitsValue_zeros in Hp.
            assert (0 < 10 ^ Z.of_nat j) by (apply Z.pow_pos_nonneg; lia). nia.
          - simpl length in *. lia. }
        destruct l'; exact Hgoal.
    + (* negative integers *)
      destruct (digitsOf_pos p) as (c & l & Hds & Hc & Hz & Hl).
      destruct (dropZerosEnd_spec c l Hz) as (l' & j & Hdrop & Hsplit).
      pose proof (digitsOf_value (Npos p)) as Hv. simpl Z.of_N in Hv.
      assert (forallb isDigit l' = true) as Hl'.
      { assert (forallb isDigit (c :: l) = true) as Hall by (simpl; by rewrite Hc).
        rewrite Hsplit, forallb_app in Hall. simpl in Hall.
        apply andb_prop in Hall as [Hall _]. by apply andb_prop in Hall as [_ ?]. }
      unfold numberText. change (Z.to_N (Z.abs (Z.neg p))) with (N.pos p).
      rewrite Hds, Hdrop.
      change (Z.neg p <? 0) with true. unfold renderDigits.
      assert (Z.of_nat (length (c :: l)) = Z.of_nat (length (c :: l')) + Z.of_nat j)
        as Hlen.
      { rewrite Hsplit at 1. rewrite length_app, length_replicate. lia. }
      destruct (Z.leb_spec (Z.of_nat (length (c :: l'))) (Z.of_nat (length (c :: l))));
        [|lia].
      destruct (Z.leb_spec (Z.of_nat (length (c :: l))) 21); simpl andb; cbv iota.
      * replace (Z.to_nat (Z.of_nat (length (c :: l)) - Z.of_nat (length (c :: l'))))
          with j by lia.
        rewrite <- Hsplit. unfold numberOfText.
        rewrite isInt_digits, parseInt_digits by done.
        rewrite <- Hds, Hv. rewrite mkNumber_int by lia. f_equal. lia.
      * destruct (Z.ltb_spec 0 (Z.of_nat (length (c :: l)))); [|simpl in *; lia].
        simpl andb. cbv iota.
        destruct (Z.ltb_spec (-6) (Z.of_nat (length (c :: l))));
          destruct (Z.leb_spec (Z.of_nat (length (c :: l))) 0); try lia.
        simpl andb. cbv iota.
        pose proof (exponential_text true c l' (Z.of_nat (length (c :: l))) Hc Hl')
          as Hexp.
        cbv zeta in Hexp.
        assert (numberOfText
                  (signText true ++
                   match l' with
                   | [] => c :: exponentText (Z.of_nat (length (c :: l)) - 1)
                   | _ :: _ => c :: "."%char :: l'
                                 ++ exponentText (Z.of_nat (length (c :: l)) - 1)
                   end) = NInt (Z.neg p)) as Hgoal.
        { rewrite Hexp. rewrite mkNumber_int.
          - f_equal. change (Z.neg p) with (- Z.pos p).
            rewrite <- Hv, Hds, Hsplit, digitsValue_app, digitsValue_zeros.
            simpl length in *. rewrite ?length_app, ?length_replicate.
            match goal with
            | |- -1 * (?a * 10 ^ ?e1) = - (?a * 10 ^ ?e2) =>
                replace e1 with e2 by lia; lia
            end.
          - assert (0 < digitsValue 0 ((c :: l') ++ replicate j "0"%char)) as Hp.
            { rewrite <- Hsplit, <- Hds, Hv. lia. }
            rewrite digitsValue_app, digitsValue_zeros in Hp.
            assert (0 < 10 ^ Z.of_nat j) by (apply Z.pow_pos_nonneg; lia). nia.
          - simpl length in *. lia. }
        destruct l'; exact Hgoal.
  - (* non-integers *)
    destruct (digitsOf_pos m) as (c & l & Hds & Hc & Hz & Hl).
    pose proof (digitsOf_value (Npos m)) as Hv. simpl Z.of_N in Hv.
    assert (forallb isDigit (c :: l) = true) as Hall by (simpl; by rewrite Hc).
    unfold numberText. rewrite Hds. unfold renderDigits.
    set (n := Z.of_nat (length (c :: l)) - Z.pos e).
    assert (n < Z.of_nat (length (c :: l))) as Hn by lia.
    destruct (Z.leb_spec (Z.of_nat (length (c :: l))) n); [lia|].
    simpl andb. cbv iota.
    rewrite <- (mkNumber_dec neg m e Hwf), <- Hv, Hds.
    destruct (Z.ltb_spec 0 n); destruct (Z.leb_spec n 21); simpl andb; cbv iota.
    + (* digits, point, digits *)
      destruct (Z.to_nat n) as [|i] eqn:Hi; [lia|].
      destruct (take_drop_digits l i Hl) as [Htake Hdrop].
      assert (drop i l ≠ []) as Hne.
      { intros Hnil. apply (f_equal length) in Hnil.
        rewrite length_drop in Hnil. simpl in *. lia. }
      unfold numberOfText. cbn [take drop].
      rewrite <- app_comm_cons, isInt_other by (done || apply digits_with_point).
      pose proof (parseFloat_shape neg c (take i l) (drop i l) [] 0 Hc Htake Hdrop)
        as Hshape.
      rewrite app_nil_r in Hshape. unfold fractionText in Hshape.
      destruct (drop i l) as [|d dl] eqn:Hd; [done|].
      rewrite <- app_comm_cons in Hshape. rewrite Hshape by by left.
      rewrite <- Hd, <- app_comm_cons, take_drop. f_equal.
      rewrite length_drop. simpl length in *. lia.
    + (* exponential, large *)
      pose proof (exponential_text neg c l n Hc Hl) as Hexp. cbv zeta in Hexp.
      replace (n - 1 - Z.of_nat (length l)) with (- Z.pos e) in Hexp
        by (simpl length in *; lia).
      destruct (Z.ltb_spec (-6) n); destruct (Z.leb_spec n 0); try lia;
        simpl andb; cbv iota.
      destruct l; exact Hexp.
    + destruct (Z.ltb_spec (-6) n); destruct (Z.leb_spec n 0); try lia;
        simpl andb; cbv iota.
      * (* zero, point, zeros, digits *)
        unfold numberOfText.
        rewrite isInt_other by done.
        pose proof (parseFloat_shape neg "0" []
                      (replicate (Z.to_nat (- n)) "0"%char ++ c :: l) [] 0) as Hshape.
        rewrite app_nil_r in Hshape. unfold fractionText in Hshape.
        destruct (replicate (Z.to_nat (- n)) "0"%char ++ c :: l) as [|d dl] eqn:Hd.
        { by destruct (replicate _ _). }
        cbn [app] in Hshape.
        rewrite Hshape; [|done|done| |by left].
        2:{ rewrite <- Hd, forallb_app, Hall, andb_true_r.
            clear. induction (Z.to_nat (- n)); [done|]. done. }
        rewrite <- Hd. cbn [app]. cbn [digitsValue].
        change (0 * 10 + default 0 (digitVal "0")) with 0.
        rewrite digitsValue_app, digitsValue_zeros, Z.mul_0_l. f_equal.
        rewrite length_app, length_replicate. simpl length in *. lia.
      * (* exponential, small *)
        pose proof (exponential_text neg c l n Hc Hl) as Hexp. cbv zeta in Hexp.
        replace (n - 1 - Z.of_nat (length l)) with (- Z.pos e) in Hexp
          by (simpl length in *; lia).
        destruct l; exact Hexp.
    + lia.
  - done.
  - by destruct neg.
Qed.

End NumberRoundTrip.

(** ** The round trip of the codec *)

Section CodecRoundTrip.
Context `{Host}.

Lemma str_nonempty l : l ≠ [] → String.eqb (str l) "" = false.
Proof. destruct l; [done|]. intros _. done. Qed.

Lemma numberText_nonempty x : wfNumber x = true → numberText x ≠ [].
Proof.
  intros Hwf Hnil. pose proof (number_text_round_trip x Hwf) as Hx.
  rewrite Hnil in Hx. by subst x.
Qed.

Lemma isoText_nonempty t : isoText t ≠ [].
Proof.
  unfold isoText, yearText. destruct (_ && _); simpl; done.
Qed.

(** C3, as the code has it: the values of [encodable] come back from
    the cell text unchanged. *)
Theorem codec_round_trip hp this key v :
  encodable (getProp rowModelPrototype this key) v = true →
  decodeEncoded hp this key v = Ok v.
Proof.
  unfold encodable, decodeEncoded. set (cur := getProp rowModelPrototype this key).
  destruct v as [| |b|n|s|[|[t|]]| | | |]; try done.
  - (* booleans *)
    intros Hcur. apply bool_decide_eq_true in Hcur.
    unfold typeCast. fold cur. rewrite Hcur. by destruct b.
  - (* numbers *)
    intros Hn. apply andb_prop in Hn as [Hwf Hcur].
    apply bool_decide_eq_true in Hcur.
    pose proof (number_text_round_trip n Hwf) as Hrt.
    pose proof (numberText_nonempty n Hwf) as Hne.
    unfold numberOfText in Hrt.
    simpl. unfold typeCast. fold cur. rewrite Hcur. simpl.
    unfold numberToString. rewrite str_nonempty by done. simpl.
    unfold isInt, parseInt, parseFloat. rewrite text_str.
    by destruct (isIntText (numberText n)); simpl; rewrite Hrt.
  - (* strings *)
    intros Hs. apply andb_prop in Hs as [Hs Hcur].
    apply bool_decide_eq_true in Hcur.
    simpl. unfold typeCast. fold cur. rewrite Hcur. simpl. by rewrite Hs.
  - (* dates *)
    intros Ht. apply andb_prop in Ht as [Ht Hcur].
    apply Z.leb_le in Ht.
    destruct (iso_roundtrip t) as (f & Hread & Htime); [lia|].
    simpl. unfold typeCast. fold cur. unfold toISOString. cbn [truthy].
    rewrite str_nonempty by apply isoText_nonempty. simpl.
    destruct cur; try done. simpl.
    unfold dateParse. by rewrite text_str, Hread, Htime.
Qed.

End CodecRoundTrip.

Lemma codec_round_trip_witness :
  decodeEncoded (H := plainHost) ∅
    [("row", VNum (NInt 0)); ("id", VStr ""); ("price", VNum (NInt 0));
     ("due", VDate NoDate)]
    "price" (VNum (NDec true 1995 2))
  = Ok (VNum (NDec true 1995 2))
  ∧ decodeEncoded (H := plainHost) ∅
      [("row", VNum (NInt 0)); ("id", VStr ""); ("price", VNum (NInt 0));
       ("due", VDate NoDate)]
      "due" (VDate (DateObj (Some 1604386800123)))
    = Ok (VDate (DateObj (Some 1604386800123))).
Proof.
  split; apply (codec_round_trip (H := plainHost)); reflexivity.
Defined.

(** C3 as stated fails on three values of supported types: the empty
    string decodes to [undefined]; [noDate] is encoded as NIL, which is no
    date text; and an invalid Date cannot be encoded. *)
Lemma codec_loses_empty_string :
  let this := [("row", VNum (NInt 0)); ("id", VStr "x"); ("name", VStr "n");
               ("due", VDate (DateObj (Some 0)))] in
  (typeOf (getProp rowModelPrototype this "name") = typeOf (VStr "")
   ∧ decodeEncoded (H := plainHost) ∅ this "name" (VStr "") = Ok VUndefined)
  ∧ (instanceOfDate (getProp rowModelPrototype this "due") = true
     ∧ decodeEncoded (H := plainHost) ∅ this "due" (VDate NoDate)
       = Ok (VDate (DateObj None)))
  ∧ decodeEncoded (H := plainHost) ∅ this "due" (VDate (DateObj None))
    = Throw RangeError.
Proof. repeat split. Qed.

(** * Further properties *)

(** ** More on own properties *)



Lemma keysOf_upsert k v own :
  keysOf (upsert k v own)
  = if bool_decide (k ∈ keysOf own) then keysOf own else keysOf own ++ [k].
Proof.
  unfold keysOf. induction own as [|[k0 v0] own IH]; [done|].
  cbn [upsert]. destruct (String.eqb k k0) eqn:E; rewrite !fmap_cons; cbn [fst].
  - apply String.eqb_eq in E. subst k0.
    rewrite bool_decide_eq_true_2 by (by apply elem_of_cons; left). done.
  - apply String.eqb_neq in E. rewrite IH.
    destruct (bool_decide (k ∈ own.*1)) eqn:Hin.
    + apply bool_decide_eq_true in Hin.
      rewrite bool_decide_eq_true_2 by (by apply elem_of_cons; right). done.
    + apply bool_decide_eq_false in Hin.
      rewrite bool_decide_eq_false_2; [done|].
      intros [?|?]%elem_of_cons; done.
Qed.

Lemma keysOf_setProp k v own :
  (keysOf (setProp k v own) = keysOf own)
  ∨ ((k ∉ keysOf own) ∧ keysOf (setProp k v own) = keysOf own ++ [k]).
Proof.
  unfold setProp. destruct (String.eqb k "__proto__"); [by left|].
  rewrite keysOf_upsert. destruct (bool_decide (k ∈ keysOf own)) eqn:Hin.
  - by left.
  - apply bool_decide_eq_false in Hin. by right.
Qed.

Lemma keysOf_setProp_nodup k v own :
  NoDup (keysOf own) → NoDup (keysOf (setProp k v own)).
Proof.
  intros Hnd. destruct (keysOf_setProp k v own) as [->|[Hnin ->]]; [done|].
  apply NoDup_app. split_and!; [done| |apply NoDup_singleton].
  intros x Hx ->%list_elem_of_singleton. done.
Qed.

Lemma keysOf_setProp_head k v own :
  own ≠ [] → head (keysOf (setProp k v own)) = head (keysOf own).
Proof.
  intros Hne. destruct (keysOf_setProp k v own) as [->|[_ ->]]; [done|].
  destruct own; done.
Qed.

(** ** The records of a loaded tab *)

Section LoadedRows.

Lemma headerOf_cells names cells :
  Forall (λ s, s ≠ "") names →
  (∀ c, head cells = Some c → cellText c = None) →
  headerOf ((cell <$> names) ++ cells) = names.
Proof.
  intros Hnames Hcells. induction Hnames as [|s names Hs _ IH].
  - destruct cells as [|c cells]; [done|]. simpl. by rewrite (Hcells c).
  - rewrite fmap_cons, <- app_comm_cons. cbn [headerOf].
    unfold cellText at 1. cbn [formattedValue cell].
    apply String.eqb_neq in Hs. by rewrite Hs, IH.
Qed.


Lemma fillRow_keys header i r row :
  row ≠ [] → NoDup (keysOf row) →
  fillRow header i r row ≠ []
  ∧ NoDup (keysOf (fillRow header i r row))
  ∧ head (keysOf (fillRow header i r row)) = head (keysOf row)
  ∧ (length (keysOf row) ≤ length (keysOf (fillRow header i r row)))%nat.
Proof.
  revert i row. induction header as [|col header IH]; intros i row Hne Hnd.
  - done.
  - rewrite fillRow_cons. destruct (cellAt r i) as [s|]; [|by apply IH].
    destruct (IH (S i) (setProp col (VStr s) row)) as (H1 & H2 & H3 & H4).
    + intros Hnil. pose proof (keysOf_setProp_length col (VStr s) row) as Hlen.
      rewrite Hnil in Hlen. destruct row; [done|]. simpl in Hlen. lia.
    + by apply keysOf_setProp_nodup.
    + split_and!; [done|done| |].
      * by rewrite H3, keysOf_setProp_head.
      * pose proof (keysOf_setProp_length col (VStr s) row). lia.
Qed.

Lemma indexRows_accepted tab keyName header rowIndex rest rows out row :
  indexRows tab keyName header rowIndex rest rows = Ok out → row ∈ out →
  row ∈ rows
  ∨ ∃ k r, rest !! k = Some r
           ∧ row = recordOf header (rowIndex + k) r
           ∧ length (keysOf row) ≠ 1%nat
           ∧ truthy (getProp [] row keyName) = true.
Proof.
  revert rowIndex rows. induction rest as [|r rest IH]; intros rowIndex rows.
  - simpl. intros [= <-] Hin. by left.
  - rewrite indexRows_cons. cbv zeta.
    destruct (Nat.eqb _ 1) eqn:Hone; [intros [= <-] Hin; by left|].
    destruct (negb _) eqn:Hkey; [done|].
    intros Hrest Hin.
    destruct (IH _ _ Hrest Hin) as [Hrows|(k & r' & Hk & Hrow & Hlen & Ht)].
    + apply elem_of_app in Hrows as [Hrows|Hnew]; [by left|].
      apply list_elem_of_singleton in Hnew. subst row. right.
      exists 0%nat, r. rewrite Nat.add_0_r. split_and!; [done|done| |].
      * by apply Nat.eqb_neq.
      * by apply negb_false_iff.
    + right. exists (S k), r'. split_and!; [done| |done|done].
      by replace (rowIndex + S k)%nat with (S rowIndex + k)%nat by lia.
Qed.

Lemma indexRows_error tab keyName header rowIndex rest rows e :
  indexRows tab keyName header rowIndex rest rows = Throw e →
  ∃ k r, rest !! k = Some r
         ∧ e = SheetError (noKeyMessage tab (rowIndex + k) keyName)
         ∧ length (keysOf (recordOf header (rowIndex + k) r)) ≠ 1%nat
         ∧ truthy (getProp [] (recordOf header (rowIndex + k) r) keyName) = false.
Proof.
  revert rowIndex rows. induction rest as [|r rest IH]; intros rowIndex rows.
  - done.
  - rewrite indexRows_cons. cbv zeta.
    destruct (Nat.eqb _ 1) eqn:Hone; [done|].
    destruct (negb _) eqn:Hkey.
    + intros [= <-]. exists 0%nat, r. rewrite Nat.add_0_r.
      split_and!; [done|done| |by apply negb_true_iff].
      by apply Nat.eqb_neq.
    + intros Hrest. destruct (IH _ _ Hrest) as (k & r' & Hk & He & Hlen & Ht).
      exists (S k), r'.
      replace (rowIndex + S k)%nat with (S rowIndex + k)%nat by lia. done.
Qed.

Lemma fillRow_trim header i n r row :
  (i + length header ≤ n)%nat →
  fillRow header i (trimRow n r) row = fillRow header i r row.
Proof.
  revert i row. induction header as [|col header IH]; intros i row Hn; [done|].
  simpl in Hn. rewrite !fillRow_cons.
  assert (cellAt (trimRow n r) i = cellAt r i) as ->.
  { unfold cellAt, trimRow. simpl. rewrite lookup_take_lt by lia. done. }
  apply IH. lia.
Qed.

Lemma indexRows_trim tab keyName header rowIndex rest rows :
  indexRows tab keyName header rowIndex (trimRow (length header) <$> rest) rows
  = indexRows tab keyName header rowIndex rest rows.
Proof.
  revert rowIndex rows. induction rest as [|r rest IH]; intros rowIndex rows; [done|].
  rewrite fmap_cons, !indexRows_cons. cbv zeta.
  unfold recordOf. rewrite fillRow_trim by lia.
  destruct (Nat.eqb _ 1); [done|]. destruct (negb _); [done|]. apply IH.
Qed.

(** X1: the header of a loaded tab is the texts of the first grid row up to
    its first cell without text. When that row is the cells of [names],
    none of them empty, followed by nothing or by a cell without text, the
    header is [names], whatever comes after that cell. *)
Theorem header_stops_at_first_empty_cell title names cells grid more keyName t :
  Forall (λ s, s ≠ "") names →
  (∀ c, head cells = Some c → cellText c = None) →
  loadTabTable (tabOf title (gridRow ((cell <$> names) ++ cells) :: grid) more)
    keyName = Ok t →
  tableHeader t = names.
Proof.
  intros Hnames Hcells. unfold loadTabTable, tabOf. simpl.
  rewrite headerOf_cells by done.
  destruct (indexRows _ _ _ _ _ _); [|done]. simpl. by intros [= <-].
Qed.

Lemma loaded_row tab keyName t row :
  loadTabTable tab keyName = Ok t → row ∈ tableRows t →
  ∃ k r, row = recordOf (tableHeader t) k r
         ∧ length (keysOf row) ≠ 1%nat
         ∧ truthy (getProp [] row keyName) = true.
Proof.
  unfold loadTabTable. destruct (data tab) as [|d ?]; [done|].
  destruct (rowData d) as [|first rest].
  { intros [= <-] Hin. simpl in Hin. by apply elem_of_nil in Hin. }
  destruct (indexRows _ _ _ _ _ _) as [rows|] eqn:Hrows; [|done].
  simpl. intros [= <-] Hin. simpl in Hin |- *.
  destruct (indexRows_accepted _ _ _ _ _ _ _ _ Hrows Hin)
    as [Hnil|(k & r & _ & Hrow & Hlen & Hkey)]; [by apply elem_of_nil in Hnil|].
  by exists (1 + k)%nat, r.
Qed.

Lemma recordOf_keys header rowIndex r :
  NoDup (keysOf (recordOf header rowIndex r))
  ∧ head (keysOf (recordOf header rowIndex r)) = Some rowPosition
  ∧ (1 ≤ length (keysOf (recordOf header rowIndex r)))%nat.
Proof.
  unfold recordOf.
  destruct (fillRow_keys header 0 r
              [(rowPosition, VNum (NInt (Z.of_nat rowIndex + 1)))])
    as (_ & Hnd & Hhead & Hlen); [done|apply NoDup_singleton|].
  done.
Qed.

(** X2: every record of a loaded tab has a truthy value under the key
    name, and at least one field beside its position. *)
Theorem loaded_rows_have_key tab keyName t row :
  loadTabTable tab keyName = Ok t → row ∈ tableRows t →
  truthy (getProp [] row keyName) = true ∧ (2 ≤ length (keysOf row))%nat.
Proof.
  intros Hload Hin.
  destruct (loaded_row _ _ _ _ Hload Hin) as (k & r & -> & Hlen & Hkey).
  split; [done|].
  destruct (recordOf_keys (tableHeader t) k r) as (_ & _ & Hone). lia.
Qed.


(** X4: on a tab with data, [loadTabTable] raises nothing but the error
    of the missing key, and only for a grid row that is not blank and whose
    record has no truthy key; the message names the sheet row [k + 2] of
    the data row [k]. *)
Theorem load_error_names_keyless_row title first rest more keyName e :
  loadTabTable (tabOf title (first :: rest) more) keyName = Throw e →
  ∃ k r, rest !! k = Some r
         ∧ e = SheetError
                 ("Tab " +:+ title +:+ " row "
                    +:+ numberToString (NInt (Z.of_nat k + 2))
                    +:+ " has no key column '" +:+ keyName +:+ "'")
         ∧ ¬ blankRow (headerOf (values first)) r
         ∧ truthy (getProp [] (recordOf (headerOf (values first)) (S k) r) keyName)
           = false.
Proof.
  unfold loadTabTable, tabOf. simpl.
  destruct (indexRows _ _ _ _ _ _) as [rows|e'] eqn:Hrows; [done|].
  simpl. intros [= ->].
  apply indexRows_error in Hrows as (k & r & Hk & -> & Hlen & Hkey).
  exists k, r. split_and!; [done| | |done].
  - unfold noKeyMessage. cbn [tabName SheetSDK.title].
    by replace (Z.of_nat (1 + k) + 1) with (Z.of_nat k + 2) by lia.
  - intros Hblank. by apply (recordOf_blank _ (1 + k)) in Hblank.
Qed.

(** X5: the cells to the right of the header are not read: with every
    data row cut to the width of the header, [loadTabTable] gives the same
    table, or the same error. *)
Theorem cells_beyond_header_ignored title first rest more keyName :
  loadTabTable
    (tabOf title
       (first :: (trimRow (length (headerOf (values first))) <$> rest)) more)
    keyName
  = loadTabTable (tabOf title (first :: rest) more) keyName.
Proof.
  unfold loadTabTable, tabOf. simpl. rewrite indexRows_trim.
  by rewrite (indexRows_title _
                {| title := title; data := {| rowData := first :: rest |} :: more |}).
Qed.

End LoadedRows.

Lemma header_stops_at_first_empty_cell_witness :
  tableHeader {| tableHeader := ["id"; "name"]; tableRows := [] |}
  = ["id"; "name"].
Proof.
  apply (header_stops_at_first_empty_cell "t" ["id"; "name"]
           [cell ""; cell "ignored"] [] [] "id").
  - repeat constructor; done.
  - by intros c [= <-].
  - reflexivity.
Defined.

Lemma loaded_rows_have_key_witness :
  truthy (getProp [] [("row", VNum (NInt 2)); ("id", VStr "1");
                      ("name", VStr "Alice")] "id") = true
  ∧ (2 ≤ length (keysOf [("row", VNum (NInt 2)); ("id", VStr "1");
                          ("name", VStr "Alice")]))%nat.
Proof.
  apply (loaded_rows_have_key peopleTab "id"
           {| tableHeader := ["id"; "name"];
              tableRows := [[("row", VNum (NInt 2)); ("id", VStr "1");
                             ("name", VStr "Alice")]] |}).
  - reflexivity.
  - simpl. by apply list_elem_of_singleton.
Defined.


Lemma load_error_names_keyless_row_witness :
  ∃ k r, [gridRow [cell "1"; cell "Alice"]; gridRow [noCell; cell "Bob"]] !! k
         = Some r
         ∧ SheetError "Tab people row 3 has no key column 'id'"
           = SheetError
               ("Tab " +:+ "people" +:+ " row "
                  +:+ numberToString (NInt (Z.of_nat k + 2))
                  +:+ " has no key column '" +:+ "id" +:+ "'")
         ∧ ¬ blankRow (headerOf (values (gridRow [cell "id"; cell "name"]))) r
         ∧ truthy (getProp []
                     (recordOf (headerOf (values (gridRow [cell "id"; cell "name"])))
                        (S k) r) "id")
           = false.
Proof.
  apply (load_error_names_keyless_row "people" (gridRow [cell "id"; cell "name"])
           [gridRow [cell "1"; cell "Alice"]; gridRow [noCell; cell "Bob"]] []).
  reflexivity.
Defined.

(** ** The codec on a record *)

Lemma upsert_same k v own : lookupProp k own = Some v → upsert k v own = own.
Proof.
  induction own as [|[k0 v0] own IH]; simpl; [done|].
  destruct (String.eqb k k0) eqn:E.
  - apply String.eqb_eq in E. by intros [= ->]; subst.
  - intros Hl. by rewrite IH.
Qed.

Lemma setProp_same k v own : lookupProp k own = Some v → setProp k v own = own.
Proof.
  intros Hl. unfold setProp. destruct (String.eqb k "__proto__"); [done|].
  by apply upsert_same.
Qed.

Lemma upsert_new k v own : lookupProp k own = None → upsert k v own = own ++ [(k, v)].
Proof.
  induction own as [|[k0 v0] own IH]; simpl; [done|].
  destruct (String.eqb k k0); [done|]. intros Hl. by rewrite IH.
Qed.

Lemma lookupProp_keys k own : is_Some (lookupProp k own) ↔ k ∈ keysOf own.
Proof.
  unfold keysOf. induction own as [|[k0 v0] own IH]; simpl.
  - split; [by intros []|]. by intros ?%elem_of_nil.
  - destruct (String.eqb k k0) eqn:E.
    + apply String.eqb_eq in E. subst. split; [|done]. intros _. by apply elem_of_cons; left.
    + apply String.eqb_neq in E. rewrite IH. split.
      * intros Hin. by apply elem_of_cons; right.
      * by intros [?|?]%elem_of_cons.
Qed.

Lemma world_eta w :
  {| objects := objects w; this := this w; remote := remote w |} = w.
Proof. by destruct w. Qed.

Section RecordCodec.
Context `{Host}.

Lemma encodable_text hp this key v :
  encodable (getProp rowModelPrototype this key) v = true →
  ∃ s, stringer hp v = Ok s ∧ typeCast hp this key (VStr s) = Ok v.
Proof.
  intros He.
  assert (decodeEncoded hp this key v = Ok v) as Hd.
  { revert He. unfold encodable, decodeEncoded.
    set (cur := getProp rowModelPrototype this key).
    destruct v as [| |b|n|s|[|[t|]]| | | |]; try done.
    - intros Hcur. apply bool_decide_eq_true in Hcur.
      unfold typeCast. fold cur. rewrite Hcur. by destruct b.
    - intros Hn. apply andb_prop in Hn as [Hwf Hcur].
      apply bool_decide_eq_true in Hcur.
      pose proof (number_text_round_trip n Hwf) as Hrt.
      pose proof (numberText_nonempty n Hwf) as Hne.
      unfold numberOfText in Hrt.
      simpl. unfold typeCast. fold cur. rewrite Hcur. simpl.
      unfold numberToString. rewrite str_nonempty by done. simpl.
      unfold isInt, parseInt, parseFloat. rewrite text_str.
      by destruct (isIntText (numberText n)); simpl; rewrite Hrt.
    - intros Hs. apply andb_prop in Hs as [Hs Hcur].
      apply bool_decide_eq_true in Hcur.
      simpl. unfold typeCast. fold cur. rewrite Hcur. simpl. by rewrite Hs.
    - intros Ht. apply andb_prop in Ht as [Ht Hcur].
      apply Z.leb_le in Ht.
      destruct (iso_roundtrip t) as (f & Hread & Htime); [lia|].
      simpl. unfold typeCast. fold cur. unfold toISOString. cbn [truthy].
      rewrite str_nonempty by apply isoText_nonempty. cbn [negb].
      destruct cur; try done.
      cbn [typeOf instanceOfDate newDate mbind result_bind].
      unfold dateParse. by rewrite text_str, Hread, Htime. }
  unfold decodeEncoded in Hd. destruct (stringer hp v) as [s|e]; [|done].
  by exists s.
Qed.

Lemma encodable_own this key :
  encodable (getProp rowModelPrototype this key)
    (getProp rowModelPrototype this key) = true →
  lookupProp key this = Some (getProp rowModelPrototype this key).
Proof.
  unfold getProp. destruct (lookupProp key this); [done|].
  destruct (String.eqb key "__proto__"); [done|].
  by destruct (inherited _ _).
Qed.

Lemma setField_same model k v w this :
  objects w !! model = Some this → lookupProp k this = Some v →
  setField model k v w = (Ok (), w).
Proof.
  intros Hm Hl. unfold setField, setObjects, propsAt. rewrite Hm. simpl.
  rewrite setProp_same by done. rewrite insert_id by done.
  by rewrite world_eta.
Qed.

Lemma assignByPosition_same model this keys ks i w vs :
  objects w !! model = Some this →
  (∀ j k, ks !! j = Some k → keys !! (i + j)%nat = Some k) →
  (∀ k, k ∈ ks →
        encodable (getProp rowModelPrototype this k)
          (getProp rowModelPrototype this k) = true) →
  mapM (λ key, stringer (objects w) (getProp rowModelPrototype this key)) ks
  = Ok vs →
  assignByPosition model keys i (VStr <$> vs) w = (Ok (), w).
Proof.
  intros Hm. revert i vs. induction ks as [|k ks IH]; intros i vs Hkeys Henc.
  - simpl. by intros [= <-].
  - simpl. destruct (stringer _ _) as [s|] eqn:Hs; [|done]. simpl.
    destruct (mapM _ ks) as [rest|] eqn:Hrest; [|done]. simpl.
    intros [= <-]. rewrite fmap_cons. cbn [assignByPosition].
    pose proof (Hkeys 0%nat k eq_refl) as Hk0. rewrite Nat.add_0_r in Hk0.
    rewrite Hk0. simpl.
    unfold mbind at 1. unfold M_bind, gets, lift at 1. simpl.
    unfold propsAt at 1. rewrite Hm. simpl.
    destruct (encodable_text (objects w) this k (getProp rowModelPrototype this k))
      as (s' & Hs' & Hcast); [apply Henc; by apply elem_of_cons; left|].
    rewrite Hs in Hs'. injection Hs' as <-. rewrite Hcast.
    unfold mbind, M_bind.
    rewrite (setField_same model k _ w this); [|done|].
    2:{ apply encodable_own, Henc. by apply elem_of_cons; left. }
    apply IH.
    + intros j k' Hj. replace (S i + j)%nat with (i + S j)%nat by lia.
      by apply Hkeys.
    + intros k' Hk'. apply Henc. by apply elem_of_cons; right.
    + done.
Qed.

(** X8: a record whose header fields are values of [encodable] is
    unchanged by the assignment, by position, of its own [values()]: the
    values are written without raising, and assigning them leaves the
    world as it is. *)
Theorem assign_values_round_trip w model this :
  objects w !! model = Some this →
  (∀ k, k ∈ header this →
        encodable (getProp rowModelPrototype this k)
          (getProp rowModelPrototype this k) = true) →
  ∃ vs, modelValues (objects w) this = Ok vs
        ∧ assign model (VArr (VStr <$> vs)) w = (Ok model, w).
Proof.
  intros Hm Henc.
  assert (∃ vs, modelValues (objects w) this = Ok vs) as [vs Hvs].
  { unfold modelValues. revert Henc. generalize (header this) as ks.
    induction ks as [|k ks IH]; intros Henc; [by exists []|].
    destruct (encodable_text (objects w) this k (getProp rowModelPrototype this k))
      as (s & Hs & _); [apply Henc; by apply elem_of_cons; left|].
    destruct IH as [rest Hrest].
    { intros k' Hk'. apply Henc. by apply elem_of_cons; right. }
    exists (s :: rest). simpl. rewrite Hs. simpl. by rewrite Hrest. }
  exists vs. split; [done|].
  unfold assign. simpl. unfold mbind, M_bind, gets. simpl.
  unfold propsAt. rewrite Hm. simpl.
  rewrite (assignByPosition_same model this (header this) (header this) 0 w vs);
    done.
Qed.

End RecordCodec.

Section RecordAssign.
Context `{Host}.

Lemma propsAt_insert hp model p : propsAt (<[model := p]> hp) model = p.
Proof. unfold propsAt. by rewrite lookup_insert_eq. Qed.

Lemma propsAt_insert_ne hp model l p :
  l ≠ model → propsAt (<[model := p]> hp) l = propsAt hp l.
Proof. intros Hne. unfold propsAt. by rewrite lookup_insert_ne. Qed.

Lemma assignByPosition_heap model keys i vals w r w' l :
  assignByPosition model keys i vals w = (r, w') → l ≠ model →
  objects w' !! l = objects w !! l.
Proof.
  intros Ha Hne. revert i w Ha. induction vals as [|val vals IH]; intros i w.
  - simpl. unfold mret, M_ret. by intros [= <- <-].
  - simpl. unfold mbind, M_bind, gets, lift. simpl.
    destruct (typeCast _ _ _ _) as [value|e]; [|by intros [= <- <-]].
    unfold setField, setObjects. intros Hr. apply IH in Hr. simpl in Hr.
    by rewrite Hr, lookup_insert_ne.
Qed.

Lemma assignByName_heap model kvs w r w' l :
  assignByName model kvs w = (r, w') → l ≠ model →
  objects w' !! l = objects w !! l.
Proof.
  intros Ha Hne. revert w Ha. induction kvs as [|[key val] kvs IH]; intros w.
  - simpl. unfold mret, M_ret. by intros [= <- <-].
  - simpl. unfold mbind, M_bind, gets, lift, mret, M_ret. simpl.
    destruct (hasProp _ _ _).
    + destruct (typeCast _ _ _ _) as [value|e]; [|by intros [= <- <-]].
      unfold setField, setObjects. intros Hr. apply IH in Hr. simpl in Hr.
      by rewrite Hr, lookup_insert_ne.
    + intros Hr. by apply IH in Hr.
Qed.

Lemma assign_heap model values w r w' l :
  assign model values w = (r, w') → l ≠ model →
  objects w' !! l = objects w !! l.
Proof.
  unfold assign, mbind, M_bind, gets, mret, M_ret. simpl.
  destruct (truthy values); [|by intros [= <- <-]].
  intros Ha Hne. revert Ha.
  destruct values;
    match goal with
    | |- context [assignByPosition ?m ?k ?i ?v ?w] =>
        destruct (assignByPosition m k i v w) as [[]] eqn:Hassign;
        (apply (assignByPosition_heap _ _ _ _ _ _ _ l) in Hassign; [|done])
    | |- context [assignByName ?m ?k ?w] =>
        destruct (assignByName m k w) as [[]] eqn:Hassign;
        (apply (assignByName_heap _ _ _ _ _ l) in Hassign; [|done])
    end; by intros [= <- <-].
Qed.

(** X9: [assign] changes nothing but the record it is called on: the
    store and the transport are as before, and so is every other object,
    whether the assignment completes or raises. With a falsy argument
    nothing changes at all and the record is returned. *)
Theorem assign_changes_only_the_record model values w r w' :
  assign model values w = (r, w') →
  this w' = this w ∧ remote w' = remote w
  ∧ (∀ l, l ≠ model → objects w' !! l = objects w !! l)
  ∧ (truthy values = false → w' = w ∧ r = Ok model).
Proof.
  intros Ha. destruct (assign_frame _ _ _ _ _ Ha) as [Hthis Hremote].
  split_and!; [done|done| |].
  - intros l Hne. by eapply assign_heap.
  - intros Hv. revert Ha. unfold assign, mbind, M_bind, mret, M_ret.
    rewrite Hv. by intros [= <- <-].
Qed.



Lemma keysOf_setProp_mono k v own k' :
  k' ∈ keysOf own → k' ∈ keysOf (setProp k v own).
Proof.
  intros Hin. destruct (keysOf_setProp k v own) as [->|[_ ->]]; [done|].
  apply elem_of_app. by left.
Qed.

Lemma keysOf_setProp_in k v own :
  k ≠ "__proto__" → k ∈ keysOf (setProp k v own).
Proof.
  intros Hne. apply lookupProp_keys. rewrite lookupProp_setProp_eq; done.
Qed.

Lemma assignByPosition_grows model keys i vals w w' k :
  assignByPosition model keys i vals w = (Ok (), w') →
  k ∈ keysOf (propsAt (objects w) model)
  ∨ (k ≠ "__proto__"
     ∧ ∃ j, (i ≤ j < i + length vals)%nat ∧ default "undefined" (keys !! j) = k) →
  k ∈ keysOf (propsAt (objects w') model).
Proof.
  revert i w. induction vals as [|val vals IH]; intros i w.
  - simpl. unfold mret, M_ret. intros [= <-] [Hin|(_ & j & Hj & _)]; [done|lia].
  - simpl. unfold mbind, M_bind, gets, lift. simpl.
    destruct (typeCast _ _ _ _) as [value|e]; [|done].
    unfold setField, setObjects. intros Hr Hk. apply IH in Hr; [done|].
    simpl. rewrite propsAt_insert.
    destruct Hk as [Hin|(Hne & j & Hj & Hkj)].
    + left. by apply keysOf_setProp_mono.
    + destruct (decide (j = i)) as [->|Hji].
      * left. rewrite Hkj. by apply keysOf_setProp_in.
      * right. split; [done|]. exists j. split; [simpl in Hj; lia|done].
Qed.

(** X11: a value beyond the last header key is assigned under the name
    [undefined]: after a completed assignment by position of more values
    than the record has header keys, the record has a property of that
    name. *)
Theorem assign_beyond_header model items w m w' :
  (length (header (propsAt (objects w) model)) < length items)%nat →
  assign model (VArr items) w = (Ok m, w') →
  "undefined" ∈ keys (propsAt (objects w') model).
Proof.
  intros Hlen. unfold assign. simpl.
  unfold mbind, M_bind, gets, mret, M_ret. simpl.
  destruct (assignByPosition _ _ _ _ _) as [[[]|] w1] eqn:Ha; [|done].
  intros [= <- <-]. eapply assignByPosition_grows; [done|].
  right. split; [done|].
  exists (length (header (propsAt (objects w) model))). split; [lia|].
  by rewrite lookup_ge_None_2.
Qed.

Lemma assignByName_unknown model fields w :
  (∀ k v, (k, v) ∈ fields →
          hasProp rowModelPrototype (propsAt (objects w) model) k = false) →
  assignByName model fields w = (Ok (), w).
Proof.
  induction fields as [|[k v] fields IH]; intros Hun; [done|].
  simpl. unfold mbind, M_bind, gets, mret, M_ret. simpl.
  rewrite (Hun k v) by (by apply elem_of_cons; left).
  apply IH. intros k' v' Hin. apply (Hun k' v'). by apply elem_of_cons; right.
Qed.

(** X12: an assignment by name ignores the fields that the record does
    not have: when no key of the object is a property of the record, own
    or inherited, the record is returned and the world is unchanged. *)
Theorem assign_ignores_unknown_fields model fields w :
  (∀ k v, (k, v) ∈ fields →
          hasProp rowModelPrototype (propsAt (objects w) model) k = false) →
  assign model (VObj fields) w = (Ok model, w).
Proof.
  intros Hun. unfold assign. simpl.
  unfold mbind, M_bind, gets, mret, M_ret. simpl.
  by rewrite assignByName_unknown.
Qed.

(** X13: a key that names a method of the record counts as one of its
    fields. Assigning a truthy value under such a key, on a record without
    an own [toString], adds an own property of that name, which holds the
    text of the record as [Object.prototype.toString] gives it. *)
Theorem assign_by_name_shadows_method model k v w this :
  objects w !! model = Some this →
  lookupProp k this = None → inherited rowModelPrototype k = true →
  k ≠ "__proto__" → truthy v = true → lookupProp "toString" this = None →
  ∃ w', assign model (VObj [(k, v)]) w = (Ok model, w')
        ∧ objects w' !! model = Some (this ++ [(k, VStr "[object Object]")]).
Proof.
  intros Hm Hk Hinh Hne Hv Hts. eexists. unfold assign. simpl.
  unfold mbind, M_bind, gets, lift, mret, M_ret. simpl.
  unfold hasProp, propsAt. rewrite Hm. simpl. rewrite Hk, Hinh.
  unfold typeCast, getProp. rewrite Hv, Hk, Hinh. simpl.
  apply String.eqb_neq in Hne. rewrite Hne. simpl.
  unfold objectToString. rewrite Hts. simpl.
  unfold setField, setObjects, propsAt. rewrite Hm. simpl.
  split; [done|]. simpl. rewrite lookup_insert_eq. f_equal.
  unfold setProp. rewrite Hne. by apply upsert_new.
Qed.

End RecordAssign.

Section FieldCodec.
Context `{Host}.

(** X6: an absent value is written as NIL, [undefined], [null] and
    [noDate] alike, and NIL read back is never [undefined]: into a string
    field it is the text NIL itself. *)
Theorem nil_is_not_decoded_to_undefined hp this key :
  (stringer hp VUndefined = Ok NIL ∧ stringer hp VNull = Ok NIL
   ∧ stringer hp (VDate NoDate) = Ok NIL)
  ∧ typeCast hp this key (VStr NIL) ≠ Ok VUndefined
  ∧ (typeOf (getProp rowModelPrototype this key) = TString →
     typeCast hp this key (VStr NIL) = Ok (VStr NIL)).
Proof.
  split; [done|]. unfold typeCast. simpl. split.
  - destruct (typeOf (getProp rowModelPrototype this key)); simpl;
      try (destruct (instanceOfDate _); simpl; [done|];
           destruct (objectToString this); done);
      try done.
  - by intros ->.
Qed.



End FieldCodec.

Section Save.
Context `{Host}.

(** X15: [save] is [update] for a record with a truthy row and [create]
    for a record whose row is 0. It raises, leaving the world as it is,
    when the key of the record is not set, and when the row is falsy
    without being 0. *)
Theorem save_dispatch w model :
  (keySet w model = false → ∃ e, save model w = (Throw e, w))
  ∧ (truthy (rowOf w model) = false →
     strictEq (rowOf w model) (VNum (NInt 0)) = false →
     ∃ e, save model w = (Throw e, w))
  ∧ (truthy (rowOf w model) = true → save model w = update model w)
  ∧ (strictEq (rowOf w model) (VNum (NInt 0)) = true →
     save model w = (m ← create model; mret (VRef m)) w).
Proof.
  unfold save, rowOf. unfold mbind at 1 3 5 7. unfold M_bind, gets. simpl.
  split_and!.
  - intros Hk. destruct (truthy _).
    + by apply update_unchecked; left.
    + destruct (create_unchecked w model) as [e He]; [by left|].
      exists e. unfold mbind, M_bind. by rewrite He.
  - intros -> Hr. destruct (create_unchecked w model) as [e He]; [by right|].
    exists e. unfold mbind, M_bind. by rewrite He.
  - by intros ->.
  - intros Hr. apply strictEq_eq in Hr. unfold field in *. by rewrite Hr.
Qed.

End Save.


Lemma assign_values_round_trip_witness :
  ∃ vs, modelValues (H := plainHost) (objects (oneRowWorld 2 []))
          (person 2 "x" "n") = Ok vs
        ∧ assign (H := plainHost) 0%nat (VArr (VStr <$> vs)) (oneRowWorld 2 [])
          = (Ok 0%nat, oneRowWorld 2 []).
Proof.
  apply (assign_values_round_trip (H := plainHost)); [reflexivity|].
  intros k Hk. repeat (apply elem_of_cons in Hk as [->|Hk]; [reflexivity|]).
  by apply elem_of_nil in Hk.
Defined.

Lemma assign_changes_only_the_record_witness :
  let w := oneRowWorld 2 [] in
  let w' := {| objects := {[ 0%nat := person 2 "y" "n";
                             1%nat := person 2 "x" "changed" ]};
               this := this w; remote := remote w |} in
  this w' = this w ∧ remote w' = remote w
  ∧ (∀ l, l ≠ 0%nat → objects w' !! l = objects w !! l)
  ∧ (truthy (VArr [VStr "y"]) = false → w' = w ∧ Ok 0%nat = Ok 0%nat).
Proof.
  apply (assign_changes_only_the_record (H := plainHost) 0%nat (VArr [VStr "y"])
           (oneRowWorld 2 []) (Ok 0%nat)).
  vm_compute. reflexivity.
Defined.


Lemma assign_beyond_header_witness :
  let w := oneRowWorld 2 [] in
  let w' := {| objects := {[ 0%nat := person 2 "a" "b"
                                        ++ [("undefined", VStr "[object Object]")];
                             1%nat := person 2 "x" "changed" ]};
               this := this w; remote := remote w |} in
  "undefined" ∈ keys (propsAt (objects w') 0%nat).
Proof.
  apply (assign_beyond_header (H := plainHost) 0%nat
           [VStr "a"; VStr "b"; VStr "c"] (oneRowWorld 2 []) 0%nat).
  - vm_compute. lia.
  - vm_compute. reflexivity.
Defined.

Lemma assign_ignores_unknown_fields_witness :
  assign (H := plainHost) 0%nat
    (VObj [("spreadsheetId", VStr "doc");
           ("updates", VObj [("updatedRanges", VStr "people!A1:B1")])])
    (emptyStoreWorld [])
  = (Ok 0%nat, emptyStoreWorld []).
Proof.
  apply (assign_ignores_unknown_fields (H := plainHost)).
  intros k v Hk. repeat (apply elem_of_cons in Hk as [[= -> ->]|Hk]; [reflexivity|]).
  by apply elem_of_nil in Hk.
Defined.

Lemma assign_by_name_shadows_method_witness :
  ∃ w', assign (H := plainHost) 0%nat (VObj [("values", VArr [])])
          (emptyStoreWorld [])
        = (Ok 0%nat, w')
        ∧ objects w' !! 0%nat
          = Some (person 0 "x" "n" ++ [("values", VStr "[object Object]")]).
Proof.
  by apply (assign_by_name_shadows_method (H := plainHost)).
Defined.


Lemma nil_is_not_decoded_to_undefined_witness :
  typeCast (H := plainHost) ∅ (person 2 "x" "n") "name" (VStr NIL)
  = Ok (VStr NIL).
Proof.
  by apply (proj2 (proj2 (nil_is_not_decoded_to_undefined (H := plainHost) ∅
                            (person 2 "x" "n") "name"))).
Defined.

Lemma save_dispatch_witness :
  ∃ e, save (H := plainHost) 0%nat (twoRowsWorld "" "b" emptyIndex)
       = (Throw e, twoRowsWorld "" "b" emptyIndex).
Proof.
  by apply (proj1 (save_dispatch (H := plainHost)
                     (twoRowsWorld "" "b" emptyIndex) 0%nat)).
Defined.

(** ** The client *)

Section ClientCalls.
Context `{Host}.

Lemma request_sent sdk hp method api body t r t' :
  request sdk hp method api body t = (r, t') →
  sentOne method body t t'
  ∧ (∀ response, r = Ok response ↔ head (replies t) = Some (Reply true response)).
Proof.
  unfold request, sentOne. destruct (replies t) as [|[ok response|] rest]; simpl.
  - intros [= <- <-]. split; [eauto|]. by intros response.
  - destruct ok; simpl.
    + intros [= <- <-]. split; [eauto|]. intros response'.
      split; by intros [= ->].
    + intros [= <- <-]. split; [eauto|]. intros response'.
      split; [|done]. by destruct (errorMessage hp response).
  - intros [= <- <-]. split; [eauto|]. by intros response.
Qed.

(** X16: [getRow] raises on a falsy row before any request is made. For
    any other row, the negative ones included, it sends one GET request
    without body and, when the response is ok, returns its [values]. *)
Theorem getRow_checks_row sdk hp tab row t :
  (truthy row = false →
   getRow sdk hp tab row t = (Throw (SheetError "row cannot be zero"), t))
  ∧ (∀ rowText r t',
       truthy row = true → ToString hp row = Ok rowText →
       getRow sdk hp tab row t = (r, t') →
       sentOne GET None t t'
       ∧ (∀ sheet, head (replies t) = Some (Reply true sheet) →
                   r = readValues hp sheet)).
Proof.
  unfold getRow. split.
  - by intros ->.
  - intros rowText r t' -> ->. simpl.
    destruct (request _ _ _ _ _ _) as [r1 t1] eqn:Hreq.
    apply request_sent in Hreq as [Hsent Hok].
    destruct r1 as [sheet|e]; intros [= <- <-]; (split; [done|]).
    + intros sheet' Hhead. apply Hok in Hhead. by injection Hhead as ->.
    + intros sheet' Hhead. by apply Hok in Hhead.
Qed.

(** X17: [createRow] sends one POST request with the values, whatever
    the outcome, and returns the response exactly when the transport
    answers ok and the response names the ranges it has updated. *)
Theorem createRow_succeeds_when_confirmed sdk hp tab row values t rowText r t' :
  ToString hp row = Ok rowText →
  createRow sdk hp tab row values t = (r, t') →
  sentOne POST (Some values) t t'
  ∧ (∀ response,
       r = Ok response
       ↔ head (replies t) = Some (Reply true response)
         ∧ confirmed hp response = true).
Proof.
  unfold createRow. intros ->.
  destruct (request _ _ _ _ _ _) as [r1 t1] eqn:Hreq.
  apply request_sent in Hreq as [Hsent Hok].
  destruct r1 as [response|e].
  - intros [= <- <-]. split; [done|]. intros response'. unfold confirmed.
    pose proof (proj1 (Hok response) eq_refl) as Hhead. rewrite Hhead.
    destruct (readProp hp response "updates") as [updates|] eqn:Hu; simpl.
    2:{ split; [done|]. intros [[= <-] Hc]. by rewrite Hu in Hc. }
    destruct (truthy updates) eqn:Htu; simpl.
    2:{ split; [done|]. intros [[= <-] Hc]. by rewrite Hu, Htu in Hc. }
    destruct (readProp hp updates "updatedRanges") as [ranges|] eqn:Hr; simpl.
    2:{ split; [done|]. intros [[= <-] Hc]. by rewrite Hu, Htu, Hr in Hc. }
    destruct (truthy ranges) eqn:Htr; simpl.
    2:{ split; [done|]. intros [[= <-] Hc]. by rewrite Hu, Htu, Hr, Htr in Hc. }
    split.
    + intros [= <-]. by rewrite Hu, Htu, Hr, Htr.
    + by intros [[= <-] _].
  - intros [= <- <-]. split; [done|]. intros response. split; [done|].
    intros [Hhead _]. by apply Hok in Hhead.
Qed.

End ClientCalls.

Lemma getRow_checks_row_witness :
  let t := {| sent := []; replies := [Reply true (VObj [("values", VArr [])])] |} in
  let t' := {| sent := [{| reqMethod := GET;
                           reqPath := "https://sheets.googleapis.com/v4/spreadsheets/doc/values/people!A-1:end?key=key";
                           reqValues := None |}];
               replies := [] |} in
  sentOne GET None t t'
  ∧ (∀ sheet, head (replies t) = Some (Reply true sheet) →
              Ok (VArr []) = readValues ∅ sheet).
Proof.
  apply (proj2 (getRow_checks_row (H := plainHost) demoSdk ∅ (TabName "people")
                  (VNum (NInt (-1)))
                  {| sent := [];
                     replies := [Reply true (VObj [("values", VArr [])])] |})
           "-1"); reflexivity.
Defined.

Lemma createRow_succeeds_when_confirmed_witness :
  let t := {| sent := []; replies := [Reply true appended] |} in
  let t' := {| sent := [appendRequest "3" ["x"; "n"]]; replies := [] |} in
  sentOne POST (Some ["x"; "n"]) t t'
  ∧ (∀ response,
       Ok appended = Ok response
       ↔ head (replies t) = Some (Reply true response)
         ∧ confirmed ∅ response = true).
Proof.
  apply (createRow_succeeds_when_confirmed (H := plainHost) demoSdk ∅
           (TabName "people") (VNum (NInt 3)) ["x"; "n"]
           {| sent := []; replies := [Reply true appended] |} "3");
    reflexivity.
Defined.

(** ** The tabs of a document *)

Lemma indexSheets_ok sheets tabs tabs' :
  indexSheets sheets tabs = (Ok (), tabs') →
  Forall (λ tab, is_Some (loaded tab)) sheets
  ∧ ∀ k, k ≠ "__proto__" →
         tabsOwn tabs' !! k
         = match last (filter (λ tab, title tab = k) sheets) with
           | Some tab => loaded tab
           | None => tabsOwn tabs !! k
           end.
Proof.
  revert tabs. induction sheets as [|tab sheets IH]; intros tabs.
  - simpl. intros [= <-]. split; [constructor|done].
  - simpl. destruct (loadTabTable tab "id") as [table|] eqn:Hload; [|done].
    intros Hrest. apply IH in Hrest as [Hall Hk]. split.
    + constructor; [|done]. unfold loaded. by rewrite Hload.
    + intros k Hne. rewrite (Hk k Hne). unfold tabsSet.
      apply String.eqb_neq in Hne.
      destruct (decide (title tab = k)) as [Heq|Hdiff].
      * rewrite filter_cons_True by done. rewrite last_cons.
        destruct (last _); [done|]. rewrite Heq, Hne. simpl.
        rewrite lookup_insert_eq. unfold loaded. by rewrite Hload.
      * rewrite filter_cons_False by done.
        destruct (last _); [done|].
        destruct (String.eqb (title tab) "__proto__"); simpl; [done|].
        by rewrite lookup_insert_ne.
Qed.

Lemma indexSheets_error sheets tabs e tabs' :
  indexSheets sheets tabs = (Throw e, tabs') →
  ∃ pre tab post,
    sheets = pre ++ tab :: post
    ∧ loadTabTable tab "id" = Throw e
    ∧ indexSheets pre tabs = (Ok (), tabs').
Proof.
  revert tabs. induction sheets as [|tab sheets IH]; intros tabs; [done|].
  simpl. destruct (loadTabTable tab "id") as [table|e'] eqn:Hload.
  - intros Hrest. apply IH in Hrest as (pre & tab' & post & -> & Hfail & Hpre).
    exists (tab :: pre), tab', post. split_and!; [done|done|].
    simpl. by rewrite Hload.
  - intros [= <- <-]. by exists [], tab, sheets.
Qed.

(** X18: [index] on a given document loads every tab with the key [id].
    When it returns, every tab has loaded and under each title other than
    [__proto__] is the table of the last tab with that title. When it
    raises, the error is that of the first tab that fails to load, and the
    document holds the tables of the tabs before that one. *)
Theorem index_loads_every_tab doc :
  (∀ doc' after,
     SheetSDK.index doc = (Ok doc', after) →
     after = doc' ∧ SheetSDK.sheets doc' = SheetSDK.sheets doc
     ∧ Forall (λ tab, is_Some (loaded tab)) (SheetSDK.sheets doc)
     ∧ ∀ k, k ≠ "__proto__" →
            tabsOwn (tabs doc') !! k
            = last (filter (λ tab, title tab = k) (SheetSDK.sheets doc))
                ≫= loaded)
  ∧ (∀ e after,
       SheetSDK.index doc = (Throw e, after) →
       ∃ pre tab post,
         SheetSDK.sheets doc = pre ++ tab :: post
         ∧ loadTabTable tab "id" = Throw e
         ∧ SheetSDK.index {| SheetSDK.sheets := pre; tabs := tabs doc |}
           = (Ok {| SheetSDK.sheets := pre; tabs := tabs after |},
              {| SheetSDK.sheets := pre; tabs := tabs after |})).
Proof.
  unfold SheetSDK.index. split.
  - intros doc' after.
    destruct (indexSheets _ _) as [[[]|] tabs'] eqn:Hloop; [|done].
    simpl. intros [= <- <-]. apply indexSheets_ok in Hloop as [Hall Hk].
    split_and!; [done|done|done|].
    intros k Hne. simpl. rewrite (Hk k Hne).
    destruct (last _); [done|]. simpl. apply lookup_empty.
  - intros e after.
    destruct (indexSheets _ _) as [[[]|e'] tabs'] eqn:Hloop; [done|].
    simpl. intros [= <- <-].
    apply indexSheets_error in Hloop as (pre & tab & post & Hsheets & Hfail & Hpre).
    exists pre, tab, post. split_and!; [done|done|]. simpl. by rewrite Hpre.
Qed.

Lemma index_loads_every_tab_witness :
  let doc := {| SheetSDK.sheets := [peopleTab; paddedTab];
                tabs := {| tabsProto := None; tabsOwn := ∅ |} |} in
  let doc' := {| SheetSDK.sheets := [peopleTab; paddedTab];
                 tabs := {| tabsProto := None;
                            tabsOwn := {[ "people" :=
                                            {| tableHeader := ["id"; "name"];
                                               tableRows := [] |} ]} |} |} in
  doc' = doc' ∧ SheetSDK.sheets doc' = SheetSDK.sheets doc
  ∧ Forall (λ tab, is_Some (loaded tab)) (SheetSDK.sheets doc)
  ∧ ∀ k, k ≠ "__proto__" →
         tabsOwn (tabs doc') !! k
         = last (filter (λ tab, title tab = k) (SheetSDK.sheets doc)) ≫= loaded.
Proof.
  apply (proj1 (index_loads_every_tab
                  {| SheetSDK.sheets := [peopleTab; paddedTab];
                     tabs := {| tabsProto := None; tabsOwn := ∅ |} |})).
  vm_compute. reflexivity.
Defined.

(** ** The row store, further *)

Lemma mapM_ok {A B} (f : A → result B) (l : list A) (vs : list B) :
  mapM f l = Ok vs →
  length vs = length l
  ∧ ∀ i x, l !! i = Some x → ∃ y, vs !! i = Some y ∧ f x = Ok y.
Proof.
  revert vs. induction l as [|a l IH]; intros vs.
  - simpl. intros [= <-]. split; [done|]. by intros i x.
  - simpl. destruct (f a) as [y|] eqn:Hy; [|done]. simpl.
    destruct (mapM f l) as [rest|]; [|done]. simpl. intros [= <-].
    destruct (IH rest eq_refl) as [Hlen Hnth]. split; [simpl; lia|].
    intros [|i] x; simpl.
    + intros [= <-]. eauto.
    + apply Hnth.
Qed.

Lemma mapM_total {A B} (f : A → result B) (l : list A) :
  (∀ x, x ∈ l → ∃ y, f x = Ok y) → ∃ vs, mapM f l = Ok vs.
Proof.
  induction l as [|a l IH]; intros Hf; [by exists []|].
  destruct (Hf a) as [y Hy]; [by apply elem_of_cons; left|].
  destruct IH as [rest Hrest].
  { intros x Hx. apply Hf. by apply elem_of_cons; right. }
  exists (y :: rest). simpl. rewrite Hy. simpl. by rewrite Hrest.
Qed.

Lemma mapM_throws {A B} (f : A → result B) (l : list A) x e :
  x ∈ l → f x = Throw e → ∃ e', mapM f l = Throw e'.
Proof.
  intros Hin Hx. induction l as [|a l IH]; [by apply elem_of_nil in Hin|].
  simpl. destruct (f a) as [y|e0] eqn:Hy; [|by exists e0]. simpl.
  apply elem_of_cons in Hin as [->|Hin]; [congruence|].
  destruct (IH Hin) as [e' ->]. by exists e'.
Qed.

Section StoreCalls.
Context `{Host}.

Lemma stringer_printable hp v : printable v = true → ∃ s, stringer hp v = Ok s.
Proof.
  destruct v as [| |b|n|s|[|[t|]]| | | |]; try done; intros _; simpl; eauto.
Qed.

(** X19: the values of a record for the sheet follow the header of the
    table, not the keys of the record. For a record whose fields under the
    header columns are [printable] there is one text per column, the text
    that [stringer] gives for the field of that name, and NIL where the
    record has no such field. *)
Theorem values_follow_the_table_header hp s model :
  (∀ h, h ∈ tableHeader (table s) → printable (field hp model h) = true) →
  ∃ vs, valuesOf hp s model = Ok vs
        ∧ length vs = length (tableHeader (table s))
        ∧ ∀ i h, tableHeader (table s) !! i = Some h →
                 ∃ text, vs !! i = Some text ∧ stringer hp (field hp model h) = Ok text
                         ∧ (field hp model h = VUndefined → text = NIL).
Proof.
  intros Hp. unfold valuesOf.
  destruct (mapM_total (λ h, stringer hp (field hp model h)) (tableHeader (table s)))
    as [vs Hvs].
  { intros h Hh. by apply stringer_printable, Hp. }
  exists vs. split; [done|]. apply mapM_ok in Hvs as [Hlen Hnth].
  split; [done|]. intros i h Hh. destruct (Hnth i h Hh) as (y & Hy & Hs).
  exists y. split_and!; [done|done|]. intros Hu. rewrite Hu in Hs.
  by injection Hs as <-.
Qed.

Lemma valuesOf_invalid_date hp s model h :
  h ∈ tableHeader (table s) → field hp model h = VDate (DateObj None) →
  ∃ e, valuesOf hp s model = Throw e.
Proof.
  intros Hh Hd. unfold valuesOf.
  apply (mapM_throws _ _ h RangeError); [done|]. by rewrite Hd.
Qed.

(** X20: a record with an invalid Date under a header column can be
    neither created nor updated: both calls raise and leave the world, the
    transport included, as it is. *)
Theorem invalid_date_blocks_the_call w model h :
  h ∈ tableHeader (table (this w)) →
  field (objects w) model h = VDate (DateObj None) →
  (∃ e, create model w = (Throw e, w)) ∧ (∃ e, update model w = (Throw e, w)).
Proof.
  intros Hh Hd.
  destruct (valuesOf_invalid_date (objects w) (this w) model h Hh Hd) as [e He].
  split.
  - destruct (keySet w model) eqn:Hk; [|by apply create_unchecked; left].
    destruct (strictEq (rowOf w model) (VNum (NInt 0))) eqn:Hr;
      [|by apply create_unchecked; right].
    rewrite create_checked by done. exists e.
    unfold createBody, mbind, M_bind, gets, lift. simpl. by rewrite He.
  - destruct (keySet w model) eqn:Hk; [|by apply update_unchecked; left].
    destruct (truthy (rowOf w model)) eqn:Hr;
      [|by apply update_unchecked; right].
    rewrite update_checked by done. exists e.
    unfold updateBody, mbind, M_bind, gets, lift. simpl. by rewrite He.
Qed.

(** X21: without a column name [find] makes no use of the index. For a
    truthy value it is the linear scan of the rows, over [row] for a number
    and over the key column for any other value; an empty column name
    counts as none. *)
Theorem find_without_column w value :
  truthy value = true →
  find w value None
  = Ok (linearScan w value
          match typeOf value with
          | TNumber => "row"
          | _ => keyColumn (this w)
          end)
  ∧ (keyColumn (this w) ≠ "" → find w value (Some "") = find w value None).
Proof.
  intros Hv. unfold find. rewrite Hv. simpl. split.
  - unfold linearScan. rewrite <- findRow_filter. unfold toAT.
    by destruct (findRow _ _ _ _).
  - intros Hk. rewrite bool_decide_eq_false_2; [done|]. congruence.
Qed.

(** *** What the calls leave of the world *)

Lemma setIndex_id w : setIndex (index (this w)) w = w.
Proof. by destruct w as [? [] ?]. Qed.

Lemma setIndex_setIndex i j w : setIndex i (setIndex j w) = setIndex i w.
Proof. done. Qed.

Lemma indexRowsFrom_frame rs w r w' :
  indexRowsFrom rs w = (r, w') → ∃ i, w' = setIndex i w.
Proof.
  revert w. induction rs as [|r0 rs IH]; intros w.
  - simpl. unfold mret, M_ret. intros [= <- <-]. exists (index (this w)).
    by rewrite setIndex_id.
  - simpl. unfold mbind, M_bind, gets, lift, setThis. simpl.
    destruct (ToString _ _) as [k|]; simpl.
    + intros Hr. apply IH in Hr as [i ->]. by exists i.
    + intros [= <- <-]. exists (index (this w)). by rewrite setIndex_id.
Qed.

Lemma createIndex_frame w r w' :
  createIndex w = (r, w') → ∃ i, w' = setIndex i w.
Proof.
  unfold createIndex, mbind, M_bind, gets, setThis. simpl.
  intros Hr. apply indexRowsFrom_frame in Hr as [i ->]. by exists i.
Qed.

Lemma indexRowsFrom_fold rs w i :
  indexFold (objects w) (keyColumn (this w)) rs (index (this w)) = Ok i →
  indexRowsFrom rs w = (Ok (), setIndex i w).
Proof.
  revert w. induction rs as [|r rs IH]; intros w.
  - simpl. intros [= <-]. unfold mret, M_ret. by rewrite setIndex_id.
  - simpl. unfold mbind, M_bind, gets, lift, setThis. simpl.
    destruct (ToString _ _) as [k|]; [|done]. simpl.
    intros Hi. exact (IH (setIndex (indexSet k r (index (this w))) w) Hi).
Qed.

Lemma createIndex_current w w' :
  createIndex w = (Ok (), w') → createIndex w' = (Ok (), w').
Proof.
  intros Hc. apply createIndex_ok in Hc as (i & Hi & ->).
  unfold createIndex, mbind, M_bind, gets, setThis. simpl.
  exact (indexRowsFrom_fold (rows (this w)) (setIndex emptyIndex w) i Hi).
Qed.

(** X25: after a successful [create], [update] or [save] the index is
    current: building it again changes nothing. *)
Theorem index_is_current_after_a_call w model :
  (∀ m w', create model w = (Ok m, w') → createIndex w' = (Ok (), w'))
  ∧ (∀ v w', update model w = (Ok v, w') → createIndex w' = (Ok (), w'))
  ∧ (∀ v w', save model w = (Ok v, w') → createIndex w' = (Ok (), w')).
Proof.
  assert (∀ m w', create model w = (Ok m, w') → createIndex w' = (Ok (), w'))
    as Hcreate.
  { intros m w' Hc.
    destruct (keySet w model) eqn:Hk.
    2:{ destruct (create_unchecked w model) as [e He]; [by left|]. congruence. }
    destruct (strictEq (rowOf w model) (VNum (NInt 0))) eqn:Hr.
    2:{ destruct (create_unchecked w model) as [e He]; [by right|]. congruence. }
    rewrite create_checked in Hc by done.
    unfold createBody, mbind, M_bind, gets, lift, call, mret, M_ret in Hc.
    simpl in Hc.
    destruct (valuesOf _ _ _) as [values|]; [|done].
    destruct (createRow _ _ _ _ _ _) as [[result|] t]; [|done].
    destruct (assign model result _) as [[m1|] w1]; [|done].
    destruct (createIndex w1) as [[[]|] w2] eqn:Hindex; [|done].
    injection Hc as <- <-. by apply createIndex_current in Hindex. }
  assert (∀ v w', update model w = (Ok v, w') → createIndex w' = (Ok (), w'))
    as Hupdate.
  { intros v w' Hu.
    destruct (keySet w model) eqn:Hk.
    2:{ destruct (update_unchecked w model) as [e He]; [by left|]. congruence. }
    destruct (truthy (rowOf w model)) eqn:Hr.
    2:{ destruct (update_unchecked w model) as [e He]; [by right|]. congruence. }
    rewrite update_checked in Hu by done.
    unfold updateBody, mbind, M_bind, gets, lift, call, mret, M_ret, throw in Hu.
    simpl in Hu.
    destruct (valuesOf _ _ _) as [values|]; [|done].
    destruct (updateRow _ _ _ _ _ _) as [[result|] t]; [|done].
    destruct (rowAt _ _ _) as [[r|]|]; [|done|done].
    destruct (assign r result _) as [[m1|] w1]; [|done].
    destruct (createIndex w1) as [[[]|] w2] eqn:Hindex; [|done].
    destruct (rowAt _ _ _); [|done].
    injection Hu as <- <-. by apply createIndex_current in Hindex. }
  split_and!; [done|done|].
  intros v w'. unfold save. unfold mbind at 1. unfold M_bind, gets. simpl.
  destruct (truthy _); [apply Hupdate|].
  unfold mbind, M_bind, mret, M_ret.
  destruct (create model w) as [[m|] w1] eqn:Hc; [|done].
  intros [= <- <-]. by eapply Hcreate.
Qed.

Lemma createRow_sent sdk hp tab row values t r t' :
  createRow sdk hp tab row values t = (r, t') →
  t' = t ∨ sentOne POST (Some values) t t'.
Proof.
  unfold createRow. destruct (ToString hp row) as [rowText|e].
  - destruct (request _ _ _ _ _ _) as [r1 t1] eqn:Hreq.
    apply request_sent in Hreq as [Hsent _].
    destruct r1; intros [= <- <-]; by right.
  - intros [= <- <-]. by left.
Qed.

Lemma updateRow_sent sdk hp tab row values t r t' :
  updateRow sdk hp tab row values t = (r, t') →
  t' = t ∨ sentOne PUT (Some values) t t'.
Proof.
  unfold updateRow. destruct (ToString hp row) as [rowText|e].
  - intros Hreq. apply request_sent in Hreq as [Hsent _]. by right.
  - intros [= <- <-]. by left.
Qed.

Lemma create_sent w model r w' :
  create model w = (r, w') →
  remote w' = remote w
  ∨ ∃ values, valuesOf (objects w) (this w) model = Ok values
              ∧ sentOne POST (Some values) (remote w) (remote w').
Proof.
  intros Hc.
  destruct (keySet w model) eqn:Hk.
  2:{ destruct (create_unchecked w model) as [e He]; [by left|].
      left. rewrite He in Hc. by injection Hc as <- <-. }
  destruct (strictEq (rowOf w model) (VNum (NInt 0))) eqn:Hr.
  2:{ destruct (create_unchecked w model) as [e He]; [by right|].
      left. rewrite He in Hc. by injection Hc as <- <-. }
  rewrite create_checked in Hc by done.
  unfold createBody, mbind, M_bind, gets, lift, call, mret, M_ret in Hc.
  simpl in Hc.
  destruct (valuesOf _ _ _) as [values|]; [|left; by injection Hc as <- <-].
  destruct (createRow _ _ _ _ _ _) as [r1 t] eqn:Hrow.
  apply createRow_sent in Hrow as Hsent.
  assert (remote w' = t) as ->.
  { destruct r1 as [result|]; [|by injection Hc as <- <-].
    destruct (assign model result _) as [r2 w1] eqn:Hassign.
    apply assign_frame in Hassign as [_ Hremote]. simpl in Hremote.
    destruct r2 as [m1|]; [|by injection Hc as <- <-].
    destruct (createIndex w1) as [r3 w2] eqn:Hindex.
    apply createIndex_frame in Hindex as [i ->].
    destruct r3 as [[]|]; by injection Hc as <- <-. }
  destruct Hsent as [->|Hsent]; [by left|right; eauto].
Qed.

Lemma update_sent w model r w' :
  update model w = (r, w') →
  remote w' = remote w
  ∨ ∃ values, valuesOf (objects w) (this w) model = Ok values
              ∧ sentOne PUT (Some values) (remote w) (remote w').
Proof.
  intros Hu.
  destruct (keySet w model) eqn:Hk.
  2:{ destruct (update_unchecked w model) as [e He]; [by left|].
      left. rewrite He in Hu. by injection Hu as <- <-. }
  destruct (truthy (rowOf w model)) eqn:Hr.
  2:{ destruct (update_unchecked w model) as [e He]; [by right|].
      left. rewrite He in Hu. by injection Hu as <- <-. }
  rewrite update_checked in Hu by done.
  unfold updateBody, mbind, M_bind, gets, lift, call, mret, M_ret, throw in Hu.
  simpl in Hu.
  destruct (valuesOf _ _ _) as [values|]; [|left; by injection Hu as <- <-].
  destruct (updateRow _ _ _ _ _ _) as [r1 t] eqn:Hrow.
  apply updateRow_sent in Hrow as Hsent.
  assert (remote w' = t) as ->.
  { destruct r1 as [result|]; [|by injection Hu as <- <-].
    destruct (rowAt _ _ _) as [[r0|]|]; [|by injection Hu as <- <-..].
    destruct (assign r0 result _) as [r2 w1] eqn:Hassign.
    apply assign_frame in Hassign as [_ Hremote]. simpl in Hremote.
    destruct r2 as [m1|]; [|by injection Hu as <- <-].
    destruct (createIndex w1) as [r3 w2] eqn:Hindex.
    apply createIndex_frame in Hindex as [i ->].
    destruct r3 as [[]|]; [|by injection Hu as <- <-].
    destruct (rowAt _ _ _); by injection Hu as <- <-. }
  destruct Hsent as [->|Hsent]; [by left|right; eauto].
Qed.

(** X26: [create], [update] and [save] send at most one request. Either
    the transport is as before, or the values of the record have been
    encoded and one request with them has been sent, a POST by [create]
    and a PUT by [update], and one reply has been taken. *)
Theorem calls_send_at_most_one_request w model :
  (∀ r w', create model w = (r, w') →
           remote w' = remote w
           ∨ ∃ values, valuesOf (objects w) (this w) model = Ok values
                       ∧ sentOne POST (Some values) (remote w) (remote w'))
  ∧ (∀ r w', update model w = (r, w') →
             remote w' = remote w
             ∨ ∃ values, valuesOf (objects w) (this w) model = Ok values
                         ∧ sentOne PUT (Some values) (remote w) (remote w'))
  ∧ (∀ r w', save model w = (r, w') →
             remote w' = remote w
             ∨ ∃ values, valuesOf (objects w) (this w) model = Ok values
                         ∧ sentOne (if truthy (rowOf w model) then PUT else POST)
                             (Some values) (remote w) (remote w')).
Proof.
  split_and!; [apply create_sent|apply update_sent|].
  intros r w'. unfold save, rowOf. unfold mbind at 1. unfold M_bind, gets. simpl.
  destruct (truthy _); [apply update_sent|].
  unfold mbind, M_bind, mret, M_ret.
  destruct (create model w) as [r1 w1] eqn:Hc. apply create_sent in Hc.
  destruct r1; by intros [= <- <-].
Qed.

(** *** The rows and the index after [create] and [update] *)

Lemma indexFold_rows hp column rs i i' :
  indexFold hp column rs i = Ok i' →
  (∀ k r, indexOwn i' !! k = Some r → r ∈ rs ∨ indexOwn i !! k = Some r)
  ∧ (∀ r, indexProto i' = Some r → r ∈ rs ∨ indexProto i = Some r).
Proof.
  revert i. induction rs as [|r0 rs IH]; intros i.
  - simpl. intros [= <-]. split; intros; by right.
  - simpl. destruct (ToString _ _) as [k0|]; [|done]. simpl.
    intros Hi. apply IH in Hi as [Hown Hproto]. split.
    + intros k r Hk. destruct (Hown k r Hk) as [Hin|Hset].
      * left. by apply elem_of_cons; right.
      * revert Hset. unfold indexSet. destruct (String.eqb k0 "__proto__"); simpl.
        { by right. }
        destruct (decide (k0 = k)) as [->|Hne].
        { rewrite lookup_insert_eq. intros [= <-]. left. by apply elem_of_cons; left. }
        rewrite lookup_insert_ne by done. by right.
    + intros r Hr. destruct (Hproto r Hr) as [Hin|Hset].
      * left. by apply elem_of_cons; right.
      * revert Hset. unfold indexSet. destruct (String.eqb k0 "__proto__"); simpl.
        { intros [= <-]. left. by apply elem_of_cons; left. }
        by right.
Qed.

(** X27: a successful [create] returns the record it was given and
    leaves the rows list, and with it [nextRow], as it was; a record that
    was not among the rows is not a value of the index afterwards. *)
Theorem created_record_is_not_added w model m w' :
  create model w = (Ok m, w') →
  m = model
  ∧ rows (this w') = rows (this w)
  ∧ nextRow (this w') = nextRow (this w)
  ∧ (model ∉ rows (this w) →
     (∀ k, indexOwn (index (this w')) !! k ≠ Some model)
     ∧ indexProto (index (this w')) ≠ Some model).
Proof.
  intros Hc. destruct (create_keeps_rows _ _ _ _ Hc) as (Hrows & Hfold & _).
  split_and!; [|done|by unfold nextRow; rewrite Hrows|].
  - destruct (keySet w model) eqn:Hk.
    2:{ destruct (create_unchecked w model) as [e He]; [by left|]. congruence. }
    destruct (strictEq (rowOf w model) (VNum (NInt 0))) eqn:Hr.
    2:{ destruct (create_unchecked w model) as [e He]; [by right|]. congruence. }
    rewrite create_checked in Hc by done.
    unfold createBody, mbind, M_bind, gets, lift, call, mret, M_ret in Hc.
    simpl in Hc.
    destruct (valuesOf _ _ _) as [values|]; [|done].
    destruct (createRow _ _ _ _ _ _) as [[result|] t]; [|done].
    destruct (assign model result _) as [[m1|] w1]; [|done].
    destruct (createIndex w1) as [[[]|] w2]; [|done].
    by injection Hc as <- <-.
  - intros Hnot. apply indexFold_rows in Hfold as [Hown Hproto]. split.
    + intros k Hk. destruct (Hown k model Hk) as [Hin|Hempty]; [done|].
      cbn [emptyIndex indexOwn] in Hempty. by rewrite lookup_empty in Hempty.
    + intros Hp. by destruct (Hproto model Hp) as [Hin|Hempty].
Qed.

(** X24: over rows with text keys, none of them [__proto__], the index
    that [createIndex] builds holds under each key the last row of the
    rows list with that key. *)
Theorem index_holds_last_row_of_key w w' :
  createIndex w = (Ok (), w') →
  textKeys (objects w) (keyColumn (this w)) (rows (this w)) →
  ∀ s, indexOwn (index (this w')) !! s
       = last (filter (λ r, strictEq (field (objects w) r (keyColumn (this w)))
                              (VStr s) = true)
                 (rows (this w))).
Proof.
  intros Hc Htext s. apply createIndex_ok in Hc as (i & Hi & ->). simpl.
  destruct (indexFold_text (objects w) (keyColumn (this w)) (rows (this w))
              emptyIndex Htext) as (i' & Hi' & _ & Hown).
  rewrite Hi in Hi'. injection Hi' as <-. rewrite Hown.
  rewrite findRow_filter, filter_reverse, head_reverse.
  by destruct (last _).
Qed.

End StoreCalls.

(** ** The row that [update] assigns *)

Lemma digitsValue_nonneg acc l : 0 <= acc → 0 <= digitsValue acc l.
Proof.
  revert acc. induction l as [|c l IH]; intros acc Hacc; [done|].
  simpl. apply IH. unfold digitVal.
  destruct (_ && _) eqn:Hc; simpl; [|lia].
  apply andb_prop in Hc as [Hlo _]. apply Z.leb_le in Hlo. lia.
Qed.

Lemma numberToString_int_inj a b :
  numberToString (NInt a) = numberToString (NInt b) → a = b.
Proof.
  unfold numberToString. intros Heq.
  assert (numberText (NInt a) = numberText (NInt b)) as Htext.
  { by rewrite <- (text_str (numberText (NInt a))), Heq, text_str. }
  pose proof (number_text_round_trip (NInt a) eq_refl) as Ha.
  pose proof (number_text_round_trip (NInt b) eq_refl) as Hb.
  rewrite Htext in Ha. rewrite Ha in Hb. by injection Hb.
Qed.

Lemma arrayIndex_int z i :
  arrayIndex (numberToString (NInt z)) = Some i → 0 <= z ∧ i = Z.to_nat z.
Proof.
  unfold arrayIndex. destruct (_ && _) eqn:Hc; [|done]. intros [= <-].
  apply andb_prop in Hc as [_ Heq]. apply String.eqb_eq in Heq.
  apply numberToString_int_inj in Heq. rewrite <- Heq.
  split; [|done]. rewrite Heq at 1. by apply digitsValue_nonneg.
Qed.

Section UpdatedRow.
Context `{Host}.

(** X28: a successful [update] of a record whose row is the integer [z]
    has assigned the response to [rows[z]]: [z] is positive and below the
    number of rows, the rows list is as before, no object other than the
    record at [rows[z]] has changed, and that record is what the call
    returns when it is not the record given. *)
Theorem update_assigns_the_row_at_index w model v w' z :
  update model w = (Ok v, w') → rowOf w model = VNum (NInt z) →
  0 < z
  ∧ ∃ r, rows (this w) !! Z.to_nat z = Some r
         ∧ rows (this w') = rows (this w)
         ∧ (∀ l, l ≠ r → objects w' !! l = objects w !! l)
         ∧ (model ≠ r → v = VRef r).
Proof.
  intros Hu Hz.
  destruct (keySet w model) eqn:Hk.
  2:{ destruct (update_unchecked w model) as [e He]; [by left|]. congruence. }
  destruct (truthy (rowOf w model)) eqn:Hr.
  2:{ destruct (update_unchecked w model) as [e He]; [by right|]. congruence. }
  rewrite update_checked in Hu by done.
  unfold updateBody, mbind, M_bind, gets, lift, call, mret, M_ret, throw in Hu.
  simpl in Hu.
  destruct (valuesOf _ _ _) as [values|]; [|done].
  destruct (updateRow _ _ _ _ _ _) as [[result|] t]; [|done].
  unfold rowOf in Hu, Hz, Hr. simpl in Hu. rewrite Hz in Hu, Hr.
  unfold rowAt in Hu at 1. simpl in Hu.
  destruct (arrayIndex _) as [i|] eqn:Hi; [|done]. simpl in Hu.
  pose proof Hi as Hindex0. apply arrayIndex_int in Hi as [Hpos ->].
  destruct (rows (this w) !! Z.to_nat z) as [r|] eqn:Hrow; [|done].
  destruct (assign r result _) as [[m1|] w1] eqn:Hassign; [|done].
  destruct (createIndex w1) as [[[]|] w2] eqn:Hindex; [|done].
  apply createIndex_frame in Hindex as [j ->].
  destruct (assign_frame _ _ _ _ _ Hassign) as [Hthis _]. simpl in Hthis.
  destruct (rowAt _ _ _) as [entry|] eqn:Hentry; [|done]. injection Hu as <- <-.
  split.
  - assert (z ≠ 0) by (intros ->; done). lia.
  - exists r. split_and!; [done|by simpl; rewrite Hthis| |].
    + intros l Hl. simpl. by rewrite (assign_heap _ _ _ _ _ l Hassign).
    + intros Hne. revert Hentry. unfold rowAt, rowOf, field, propsAt. simpl.
      rewrite (assign_heap _ _ _ _ _ model Hassign) by done. simpl.
      fold (propsAt (objects w) model). fold (field (objects w) model "row").
      rewrite Hz. simpl. rewrite Hindex0. simpl. rewrite Hthis, Hrow.
      by intros [= <-].
Qed.
(** *** The header check and the constructor *)



End UpdatedRow.







Lemma values_follow_the_table_header_witness :
  ∃ vs, valuesOf (H := plainHost) (objects (oneRowWorld 2 [])) (storeOf [0%nat])
          0%nat = Ok vs
        ∧ length vs = length (tableHeader (table (storeOf [0%nat])))
        ∧ ∀ i h, tableHeader (table (storeOf [0%nat])) !! i = Some h →
                 ∃ text, vs !! i = Some text
                         ∧ stringer (H := plainHost) (objects (oneRowWorld 2 []))
                             (field (objects (oneRowWorld 2 [])) 0%nat h) = Ok text
                         ∧ (field (objects (oneRowWorld 2 [])) 0%nat h = VUndefined →
                            text = NIL).
Proof.
  apply (values_follow_the_table_header (H := plainHost)).
  intros h Hh. repeat (apply elem_of_cons in Hh as [->|Hh]; [reflexivity|]).
  by apply elem_of_nil in Hh.
Defined.

Lemma invalid_date_blocks_the_call_witness :
  (∃ e, create (H := plainHost) 0%nat undatedWorld = (Throw e, undatedWorld))
  ∧ (∃ e, update (H := plainHost) 0%nat undatedWorld = (Throw e, undatedWorld)).
Proof.
  apply (invalid_date_blocks_the_call (H := plainHost) undatedWorld 0%nat "name").
  - apply elem_of_cons; right. by apply elem_of_cons; left.
  - reflexivity.
Defined.

Lemma find_without_column_witness :
  find (H := plainHost) (oneRowWorld 2 []) (VNum (NInt 2)) None
  = Ok (linearScan (oneRowWorld 2 []) (VNum (NInt 2)) "row")
  ∧ (keyColumn (this (oneRowWorld 2 [])) ≠ "" →
     find (H := plainHost) (oneRowWorld 2 []) (VNum (NInt 2)) (Some "")
     = find (H := plainHost) (oneRowWorld 2 []) (VNum (NInt 2)) None).
Proof.
  apply (find_without_column (H := plainHost) (oneRowWorld 2 []) (VNum (NInt 2))).
  reflexivity.
Defined.

Lemma index_is_current_after_a_call_witness :
  ∃ w', create (H := plainHost) 0%nat (emptyStoreWorld [Reply true appended])
        = (Ok 0%nat, w')
        ∧ createIndex (H := plainHost) w' = (Ok (), w').
Proof.
  eexists. split; [vm_compute; reflexivity|].
  apply (proj1 (index_is_current_after_a_call (H := plainHost)
                  (emptyStoreWorld [Reply true appended]) 0%nat) 0%nat).
  vm_compute. reflexivity.
Defined.

Lemma calls_send_at_most_one_request_witness :
  ∃ w', save (H := plainHost) 1%nat (oneRowWorld 2 [Reply false (VStr "denied")])
        = (Throw (SheetError "denied"), w')
        ∧ (remote w' = remote (oneRowWorld 2 [Reply false (VStr "denied")])
           ∨ ∃ values,
               valuesOf (H := plainHost)
                 (objects (oneRowWorld 2 [Reply false (VStr "denied")]))
                 (this (oneRowWorld 2 [Reply false (VStr "denied")])) 1%nat
               = Ok values
               ∧ sentOne
                   (if truthy (rowOf (oneRowWorld 2 [Reply false (VStr "denied")])
                                 1%nat)
                    then PUT else POST)
                   (Some values)
                   (remote (oneRowWorld 2 [Reply false (VStr "denied")]))
                   (remote w')).
Proof.
  eexists. split; [vm_compute; reflexivity|].
  apply (proj2 (proj2 (calls_send_at_most_one_request (H := plainHost)
                         (oneRowWorld 2 [Reply false (VStr "denied")]) 1%nat))
           (Throw (SheetError "denied"))).
  vm_compute. reflexivity.
Defined.

Lemma created_record_is_not_added_witness :
  ∃ w', create (H := plainHost) 0%nat (emptyStoreWorld [Reply true appended])
        = (Ok 0%nat, w')
        ∧ 0%nat = 0%nat
        ∧ rows (this w') = rows (this (emptyStoreWorld [Reply true appended]))
        ∧ nextRow (this w') = nextRow (this (emptyStoreWorld [Reply true appended]))
        ∧ (0%nat ∉ rows (this (emptyStoreWorld [Reply true appended])) →
           (∀ k, indexOwn (index (this w')) !! k ≠ Some 0%nat)
           ∧ indexProto (index (this w')) ≠ Some 0%nat).
Proof.
  eexists. split; [vm_compute; reflexivity|].
  apply (created_record_is_not_added (H := plainHost)
           (emptyStoreWorld [Reply true appended]) 0%nat 0%nat).
  vm_compute. reflexivity.
Defined.

Lemma index_holds_last_row_of_key_witness :
  indexOwn (index (this (twoRowsWorld "k" "k" (ownIndex {[ "k" := 1%nat ]}))))
    !! "k"
  = last (filter (λ r, strictEq
                         (field (objects (twoRowsWorld "k" "k" emptyIndex)) r
                            (keyColumn (this (twoRowsWorld "k" "k" emptyIndex))))
                         (VStr "k") = true)
            (rows (this (twoRowsWorld "k" "k" emptyIndex)))).
Proof.
  apply (index_holds_last_row_of_key (H := plainHost)
           (twoRowsWorld "k" "k" emptyIndex)
           (twoRowsWorld "k" "k" (ownIndex {[ "k" := 1%nat ]}))).
  - vm_compute. reflexivity.
  - intros r Hr.
    repeat (apply elem_of_cons in Hr as [->|Hr];
            [exists "k"; split; [reflexivity|done]|]).
    by apply elem_of_nil in Hr.
Defined.

Lemma update_assigns_the_row_at_index_witness :
  ∃ w', update (H := plainHost) 3%nat
          (threeRowsWorld [Reply true (VObj [("name", VStr "changed")])])
        = (Ok (VRef 2%nat), w')
        ∧ 0 < 2
        ∧ ∃ r, rows (this (threeRowsWorld
                             [Reply true (VObj [("name", VStr "changed")])]))
                 !! Z.to_nat 2 = Some r
               ∧ rows (this w')
                 = rows (this (threeRowsWorld
                                 [Reply true (VObj [("name", VStr "changed")])]))
               ∧ (∀ l, l ≠ r →
                       objects w' !! l
                       = objects (threeRowsWorld
                                    [Reply true (VObj [("name", VStr "changed")])])
                           !! l)
               ∧ (3%nat ≠ r → VRef 2%nat = VRef r).
Proof.
  eexists. split; [vm_compute; reflexivity|].
  apply (update_assigns_the_row_at_index (H := plainHost)
           (threeRowsWorld [Reply true (VObj [("name", VStr "changed")])])
           3%nat (VRef 2%nat)).
  - vm_compute. reflexivity.
  - reflexivity.
Defined.


